(** * Luggage compliance: a shallow embedding of the policy engine

    The development follows [luggage.py] (the [Luggage] record, its unit
    conversions, its dictionary round trip and its equality) and
    [luggage_compliance.py] (the policy table, [validate_carry_on],
    [validate_checked_baggage] and [test_eligibility]).

    Modelling conventions.
    - Python floats that carry weights and lengths are exact rationals [Q];
      comparisons are the boolean tests of [QArith].  Rounding of binary
      floating point is not modelled; [sizes_decided] tells the sizes on
      which the floating-point sum compares with a limit as the exact sum
      does, and the weight tolerance of [__eq__] is stated with a margin.
    - The engine reads finite numbers only.  The constructor, the
      dictionary round trip, [__eq__] and [is_oversized] are modelled on
      objects that may hold an infinity or a NaN, and a [dim] dictionary
      with other keys.
    - Fees are sums of the integer constants 75, 100 and 150 held in a float;
      they are integers [Z].
    - [Luggage] objects are mutable and shared between lists: a list of
      luggage is a list of addresses into a store, and every flag update is a
      store update.  The per-class [checked] dictionaries live in a second
      store, so that [dict.copy()] allocates and item assignment writes.
    - A call either returns a value or raises; both carry the final store.
    - [print] calls write to standard output only and are left out. *)

From Stdlib Require Import List String ZArith QArith Qabs Bool Lia Lqa.
From Stdlib Require Import Permutation Sorted.
Import ListNotations.

Local Open Scope string_scope.
Local Open Scope list_scope.

(** ** Python helpers *)

Definition addr := nat.

(** [a > b] and [a < b] on floats. *)
Definition Qgt_bool (a b : Q) : bool := negb (Qle_bool a b).
Definition Qlt_bool (a b : Q) : bool := negb (Qle_bool b a).

(** [max(a, b)]: the first argument unless the second is strictly larger. *)
Definition py_max (a b : Q) : Q := if Qgt_bool b a then b else a.

(** [l[n:]] with Python's treatment of a negative or too large index. *)
Definition slice_from {A} (n : Z) (l : list A) : list A :=
  if (0 <=? n)%Z then skipn (Z.to_nat n) l
  else skipn (List.length l - Z.to_nat (- n)) l.

(** [l[:n]]. *)
Definition slice_to {A} (n : Z) (l : list A) : list A :=
  if (0 <=? n)%Z then firstn (Z.to_nat n) l
  else firstn (List.length l - Z.to_nat (- n)) l.

(** [k in d] and [d[k]] on a dictionary with string keys. *)
Fixpoint lookup {V} (k : string) (d : list (string * V)) : option V :=
  match d with
  | [] => None
  | (k', v) :: d' => if String.eqb k k' then Some v else lookup k d'
  end.

(** [x in l] on a list of strings. *)
Definition str_in (x : string) (l : list string) : bool :=
  existsb (String.eqb x) l.

(** [list.sort(key=...)]: a stable sort, here by insertion.  [le a b] tells
    that [a] may stay in front of [b]. *)
Section StableSort.
Context {A : Type} (le : A -> A -> bool).

Fixpoint insert_by (a : A) (l : list A) : list A :=
  match l with
  | [] => [a]
  | b :: l' => if le a b then a :: b :: l' else b :: insert_by a l'
  end.

Definition sort_by (l : list A) : list A := fold_right insert_by [] l.
End StableSort.

(** ** luggage.py *)

Record Dim := mkDim {
  height : Q;
  width : Q;
  depth : Q;
  dunit : string
}.

Record Luggage := mkLuggage {
  storage : string;
  excess : bool;
  special : bool;
  compliance : bool;
  weight : Q;
  dim : Dim
}.

Inductive exn :=
| ValueError (msg : string)
| KeyError (key : string).

(** [str(e)]. *)
Definition str_exn (e : exn) : string :=
  match e with
  | ValueError m => m
  | KeyError k => ("'" ++ k ++ "'")%string
  end.

Definition valid_storage_types : list string :=
  ["carry-on"; "checked"; "special"; "personal"].

Definition valid_units : list string := ["cm"; "in"; "mm"].

(** [_get_dimensions_in_cm]. *)
Definition get_dimensions_in_cm (x : Luggage) : Dim :=
  let d := dim x in
  if String.eqb (dunit d) "mm" then
    mkDim (height d / 10) (width d / 10) (depth d / 10) (dunit d)
  else if String.eqb (dunit d) "in" then
    mkDim (height d * 2.54) (width d * 2.54) (depth d * 2.54) (dunit d)
  else d.

(** [get_total_size_cm]: [sum] over the three converted lengths, added
    exactly; the interpreter adds them in floating point, see
    [sizes_decided]. *)
Definition get_total_size_cm (x : Luggage) : Q :=
  let d := get_dimensions_in_cm x in
  fold_left Qplus [height d; width d; depth d] 0.

(** [get_dimensions_list_cm]. *)
Definition get_dimensions_list_cm (x : Luggage) : list Q :=
  let d := get_dimensions_in_cm x in
  [height d; width d; depth d].


(** The flat dictionary that [to_dict] builds for an item of the engine.  A
    field is [None] when the key is absent. *)
Record FlatDict := mkFlat {
  f_storage : option string;
  f_excess : option bool;
  f_special : option bool;
  f_compliance : option bool;
  f_weight : option Q;
  f_height : option Q;
  f_width : option Q;
  f_depth : option Q;
  f_unit : option string
}.

(** [to_dict]. *)
Definition to_dict (x : Luggage) : FlatDict :=
  mkFlat (Some (storage x)) (Some (excess x)) (Some (special x))
         (Some (compliance x)) (Some (weight x))
         (Some (height (dim x))) (Some (width (dim x)))
         (Some (depth (dim x))) (Some (dunit (dim x))).

(** [data.get(key, default)]. *)
Definition get_default {V} (o : option V) (default : V) : V :=
  match o with Some v => v | None => default end.

Definition from_dict_error (e : exn) : exn :=
  ValueError ("Erreur lors de la création du Luggage depuis le dictionnaire: "
                ++ str_exn e)%string.

(** ** luggage.py: the objects as Python has them

    The engine reads an item through finite numbers, and the [Luggage]
    record above is that view.  The constructor, [to_dict], [from_dict],
    [__eq__] and [is_oversized] also meet the floats that are not finite
    and a [dim] dictionary with keys of its own; they are modelled on the
    objects themselves. *)

(** A number held by an object.  A finite number is modelled by its value:
    an [int] and the [float] of the same value are one [Finite q], on which
    [float(x)] is the identity, and arithmetic is exact.  [float(x)]
    returns a float object itself and a dictionary compares its values by
    identity before [==], so a NaN carries the identity of its object. *)
Inductive pyfloat :=
| Finite (q : Q)
| Infinity (negative : bool)
| NaN (obj : nat).

(** [a < b]. *)
Definition float_lt (a b : pyfloat) : bool :=
  match a, b with
  | Finite x, Finite y => Qlt_bool x y
  | Finite _, Infinity negative => negb negative
  | Infinity negative, Finite _ => negative
  | Infinity n1, Infinity n2 => n1 && negb n2
  | _, _ => false
  end.



(** [a == b]. *)
Definition float_eq (a b : pyfloat) : bool :=
  match a, b with
  | Finite x, Finite y => Qeq_bool x y
  | Infinity n1, Infinity n2 => Bool.eqb n1 n2
  | _, _ => false
  end.

(** [a is b or a == b], the comparison of two values inside a dictionary. *)
Definition float_same (a b : pyfloat) : bool :=
  match a, b with
  | NaN i, NaN j => Nat.eqb i j
  | _, _ => float_eq a b
  end.

(** [a - b].  The NaN that an operation makes is a new object; its identity
    is never looked at. *)
Definition float_sub (a b : pyfloat) : pyfloat :=
  match a, b with
  | Finite x, Finite y => Finite (x - y)
  | Finite _, Infinity negative => Infinity (negb negative)
  | Infinity negative, Finite _ => Infinity negative
  | Infinity n1, Infinity n2 =>
      if Bool.eqb n1 n2 then NaN 0 else Infinity n1
  | _, _ => NaN 0
  end.

(** [abs(a)]. *)
Definition float_abs (a : pyfloat) : pyfloat :=
  match a with
  | Finite x => Finite (Qabs x)
  | Infinity _ => Infinity false
  | NaN i => NaN i
  end.




(** A value of a [dim] dictionary: a number, or something that is not. *)
Inductive value :=
| Num (f : pyfloat)
| Str (s : string).

(** The argument [dim] of the constructor, when it is a dictionary: each
    length may be absent, the unit may be absent, and the dictionary may
    hold other keys. *)
Record DimArg := mkDimArg {
  a_height : option value;
  a_width : option value;
  a_depth : option value;
  a_unit : option string;
  a_others : list (string * value)
}.

(** [self.dim] of an object that the constructor returned: the three lengths
    are numbers, the unit is there, and the other keys of the argument are
    kept, since the constructor stores the dictionary it was given. *)
Record PyDim := mkPyDim {
  d_height : pyfloat;
  d_width : pyfloat;
  d_depth : pyfloat;
  d_unit : string;
  d_others : list (string * value)
}.

Record PyLuggage := mkPyLuggage {
  o_storage : string;
  o_excess : bool;
  o_special : bool;
  o_compliance : bool;
  o_weight : pyfloat;
  o_dim : PyDim
}.

(** One round of the loop over [required_dims]: the key must be there, and
    hold a number that is not below 0. *)
Definition check_length (name : string) (v : option value) : exn + pyfloat :=
  match v with
  | None => inl (ValueError ("Dimension requise manquante: " ++ name)%string)
  | Some (Str _) =>
      inl (ValueError ("La dimension " ++ name
                         ++ " doit être un nombre positif")%string)
  | Some (Num f) =>
      if float_lt f (Finite 0) then
        inl (ValueError ("La dimension " ++ name
                           ++ " doit être un nombre positif")%string)
      else inr f
  end.

(** [Luggage.__init__]. *)
Definition Luggage_init (storage_ : string) (excess_ special_ compliance_ : bool)
    (weight_ : pyfloat) (dim_ : option DimArg) : exn + PyLuggage :=
  if negb (str_in storage_ valid_storage_types) then
    inl (ValueError ("Type de stockage invalide: " ++ storage_
      ++ ". Options valides: ['carry-on', 'checked', 'special', 'personal']")%string)
  else if float_lt weight_ (Finite 0) then
    inl (ValueError "Le poids ne peut pas être négatif")
  else
    match dim_ with
    | None =>
        inr (mkPyLuggage storage_ excess_ special_ compliance_ weight_
               (mkPyDim (Finite 0) (Finite 0) (Finite 0) "cm" []))
    | Some d =>
        match check_length "height" (a_height d) with
        | inl e => inl e
        | inr h =>
        match check_length "width" (a_width d) with
        | inl e => inl e
        | inr w =>
        match check_length "depth" (a_depth d) with
        | inl e => inl e
        | inr dp =>
            match a_unit d with
            | None =>
                inr (mkPyLuggage storage_ excess_ special_ compliance_ weight_
                       (mkPyDim h w dp "cm" (a_others d)))
            | Some u =>
                if negb (str_in u valid_units) then
                  inl (ValueError ("Unité invalide: " ++ u
                                     ++ ". Options: cm, in, mm")%string)
                else
                  inr (mkPyLuggage storage_ excess_ special_ compliance_
                         weight_ (mkPyDim h w dp u (a_others d)))
            end
        end end end
    end.



(** The dictionary that [to_dict] builds and [from_dict] reads, with values
    of the types the constructor is annotated with.  A field is [None] when
    the key is absent. *)
Record PyFlat := mkPyFlat {
  p_storage : option string;
  p_excess : option bool;
  p_special : option bool;
  p_compliance : option bool;
  p_weight : option pyfloat;
  p_height : option pyfloat;
  p_width : option pyfloat;
  p_depth : option pyfloat;
  p_unit : option string
}.

(** [to_dict] on an object: the keys of [dim] beyond the four are left
    out. *)
Definition py_to_dict (x : PyLuggage) : PyFlat :=
  mkPyFlat (Some (o_storage x)) (Some (o_excess x)) (Some (o_special x))
           (Some (o_compliance x)) (Some (o_weight x))
           (Some (d_height (o_dim x))) (Some (d_width (o_dim x)))
           (Some (d_depth (o_dim x))) (Some (d_unit (o_dim x))).

(** [from_dict]: the subscripted keys raise [KeyError] when absent; every
    error is re-raised as a [ValueError].  [float(v)] is [v] itself on a
    float. *)
Definition from_dict (data : PyFlat) : exn + PyLuggage :=
  match p_storage data with
  | None => inl (from_dict_error (KeyError "storage"))
  | Some st =>
  match p_weight data with
  | None => inl (from_dict_error (KeyError "weight"))
  | Some w =>
  match p_height data with
  | None => inl (from_dict_error (KeyError "height"))
  | Some h =>
  match p_width data with
  | None => inl (from_dict_error (KeyError "width"))
  | Some wd =>
  match p_depth data with
  | None => inl (from_dict_error (KeyError "depth"))
  | Some dp =>
      match Luggage_init st
              (get_default (p_excess data) false)
              (get_default (p_special data) false)
              (get_default (p_compliance data) false)
              w
              (Some (mkDimArg (Some (Num h)) (Some (Num wd)) (Some (Num dp))
                       (Some (get_default (p_unit data) "cm")) []))
      with
      | inl e => inl (from_dict_error e)
      | inr x => inr x
      end
  end end end end end.

(** Two values of a dictionary, compared as a dictionary compares them. *)
Definition value_same (a b : value) : bool :=
  match a, b with
  | Num x, Num y => float_same x y
  | Str x, Str y => String.eqb x y
  | _, _ => false
  end.

(** Equality of the keys of two [dim] dictionaries beyond the four: each key
    of either is a key of the other, with the same value. *)
Definition others_eq (o1 o2 : list (string * value)) : bool :=
  forallb (fun k =>
             match lookup k o1, lookup k o2 with
             | Some a, Some b => value_same a b
             | _, _ => false
             end)
          (map fst o1 ++ map fst o2).

(** [self.dim == other.dim]. *)
Definition dim_eq (d1 d2 : PyDim) : bool :=
  float_same (d_height d1) (d_height d2)
  && float_same (d_width d1) (d_width d2)
  && float_same (d_depth d1) (d_depth d2)
  && String.eqb (d_unit d1) (d_unit d2)
  && others_eq (d_others d1) (d_others d2).

(** [__eq__] between two [Luggage] objects. *)
Definition Luggage_eq (self other : PyLuggage) : bool :=
  String.eqb (o_storage self) (o_storage other)
  && float_lt (float_abs (float_sub (o_weight self) (o_weight other)))
              (Finite 0.01)
  && dim_eq (o_dim self) (o_dim other)
  && Bool.eqb (o_excess self) (o_excess other)
  && Bool.eqb (o_special self) (o_special other)
  && Bool.eqb (o_compliance self) (o_compliance other).

(** An item of the engine as an object, and its dictionary. *)
Definition as_object (x : Luggage) : PyLuggage :=
  mkPyLuggage (storage x) (excess x) (special x) (compliance x)
    (Finite (weight x))
    (mkPyDim (Finite (height (dim x))) (Finite (width (dim x)))
             (Finite (depth (dim x))) (dunit (dim x)) []).

Definition as_flat (d : FlatDict) : PyFlat :=
  mkPyFlat (f_storage d) (f_excess d) (f_special d) (f_compliance d)
           (option_map Finite (f_weight d)) (option_map Finite (f_height d))
           (option_map Finite (f_width d)) (option_map Finite (f_depth d))
           (f_unit d).

(** ** luggage_compliance.py: stores and the policy table *)

Record CarryOnPolicy := mkCarryOn {
  quantity : Z;
  co_weight_limit : Q;
  co_size_limit : list Q
}.

(** The [checked] dictionary of a class; it is a heap object. *)
Record CheckedPolicy := mkChecked {
  allowance : Z;
  weight_limit : Q;
  size_limit : Q
}.

(** One entry of [self.classes]: the [carry_on] dictionary is only ever
    read and is kept by value, the [checked] dictionary is held by address. *)
Record ClassEntry := mkClass {
  carry_on : CarryOnPolicy;
  checked : addr
}.

Record ExcessFees := mkFees {
  overweight : Z;
  oversize : Z;
  extra_piece : Z
}.

Record LuggageCompliance := mkPolicy {
  classes : list (string * ClassEntry);
  child_allowances : list (string * CheckedPolicy);
  excess_fees : ExcessFees
}.

(** The store: the [Luggage] objects, the [checked] dictionaries and the
    next free dictionary address. *)
Record State := mkState {
  items : addr -> Luggage;
  dicts : addr -> CheckedPolicy;
  next_dict : addr
}.

Definition upd {V} (m : addr -> V) (a : addr) (v : V) : addr -> V :=
  fun b => if Nat.eqb b a then v else m b.

Definition with_items (s : State) (its : addr -> Luggage) : State :=
  mkState its (dicts s) (next_dict s).

(** Allocation of a dictionary. *)
Definition alloc_dict (s : State) (d : CheckedPolicy) : addr * State :=
  (next_dict s, mkState (items s) (upd (dicts s) (next_dict s) d)
                        (S (next_dict s))).

Definition write_dict (s : State) (a : addr) (d : CheckedPolicy) : State :=
  mkState (items s) (upd (dicts s) a d) (next_dict s).

(** Attribute assignments on a [Luggage] object. *)
Definition set_storage (v : string) (x : Luggage) : Luggage :=
  mkLuggage v (excess x) (special x) (compliance x) (weight x) (dim x).
Definition set_excess (v : bool) (x : Luggage) : Luggage :=
  mkLuggage (storage x) v (special x) (compliance x) (weight x) (dim x).
Definition set_special (v : bool) (x : Luggage) : Luggage :=
  mkLuggage (storage x) (excess x) v (compliance x) (weight x) (dim x).
Definition set_compliance (v : bool) (x : Luggage) : Luggage :=
  mkLuggage (storage x) (excess x) (special x) v (weight x) (dim x).

Definition assign (f : Luggage -> Luggage) (a : addr)
    (its : addr -> Luggage) : addr -> Luggage :=
  upd its a (f (its a)).

(** The outcome of a call: a returned value or a raised exception, with the
    store the call leaves behind. *)
Inductive outcome (A : Type) :=
| Returns (v : A) (s : State)
| Raises (e : exn) (s : State).
Arguments Returns {A} v s.
Arguments Raises {A} e s.

Definition economy_checked : CheckedPolicy := mkChecked 1 23 158.
Definition business_checked : CheckedPolicy := mkChecked 2 32 158.
Definition first_checked : CheckedPolicy := mkChecked 3 32 158.

(** [LuggageCompliance.__init__]: the three [checked] dictionaries are
    allocated in the order of the literal. *)
Definition LuggageCompliance_init (s : State) : LuggageCompliance * State :=
  let '(e, s1) := alloc_dict s economy_checked in
  let '(b, s2) := alloc_dict s1 business_checked in
  let '(f, s3) := alloc_dict s2 first_checked in
  (mkPolicy
     [("Economy", mkClass (mkCarryOn 1 7 [55; 40; 23]) e);
      ("Business", mkClass (mkCarryOn 2 12 [55; 40; 23]) b);
      ("First", mkClass (mkCarryOn 2 12 [55; 40; 23]) f)]
     [("child", mkChecked 1 23 158); ("infant", mkChecked 1 10 158)]
     (mkFees 75 100 150),
   s3).

(** ** Messages

    The texts interpolate floats; a message is kept as the data it is
    formatted from. *)

Inductive carry_msg :=
| Cabine_conformes
| Mais_deplacer (n : nat).

Inductive fee_note :=
| Allowance_enfant (n : Z)
| Surpoids (dims : list Q) (w limit : Q)
| Surtaille (dims : list Q) (size limit : Q)
| Supplementaires (n : Z).

(** ["ECHEC: n article(s) ..."] in front when [echec] is [Some n];
    ["Frais applicables: ..."] when [notes] is not empty, otherwise
    ["Bagages enregistres conformes."]. *)
Record checked_msg := mkCheckedMsg {
  echec : option nat;
  notes : list fee_note
}.

Inductive sub_msg :=
| Of_carry (m : carry_msg)
| Of_checked (m : checked_msg).

Inductive message :=
| Tous_conformes
| Joined (ms : list sub_msg)
| Erreur_validation (text : string).

Definition carry_msg_is_default (m : carry_msg) : bool :=
  match m with Cabine_conformes => true | _ => false end.

Definition checked_msg_is_default (m : checked_msg) : bool :=
  match echec m, notes m with
  | None, [] => true
  | _, _ => false
  end.

(** ** validate_carry_on *)

(** [all(dim <= lim for dim, lim in zip(dimensions_cm, size_limit))]. *)
Definition all_zip_le (dims limits : list Q) : bool :=
  forallb (fun p => Qle_bool (fst p) (snd p)) (combine dims limits).

Record carry_acc := mkCarryAcc {
  c_items : addr -> Luggage;
  checked_candidates : list addr;
  compliant_items : list addr
}.

(** The body of the loop over [total_items].  The [except] branch needs a
    failing read of a dimension; a [Luggage] record always has its three
    lengths, so the branch has no counterpart here. *)
Definition carry_step (class_policy : CarryOnPolicy) (acc : carry_acc)
    (a : addr) : carry_acc :=
  let item := c_items acc a in
  let dimensions_cm := get_dimensions_list_cm item in
  let size_ok := all_zip_le dimensions_cm (co_size_limit class_policy) in
  let weight_ok := Qle_bool (weight item) (co_weight_limit class_policy) in
  if negb size_ok || negb weight_ok then
    mkCarryAcc (assign (set_compliance false) a (c_items acc))
               (checked_candidates acc ++ [a]) (compliant_items acc)
  else
    mkCarryAcc (assign (set_compliance true) a (c_items acc))
               (checked_candidates acc) (compliant_items acc ++ [a]).

(** [sort(key=lambda x: x.weight, reverse=True)] on a list of objects. *)
Definition sort_weight_desc (its : addr -> Luggage) (l : list addr) : list addr :=
  sort_by (fun a b => Qle_bool (weight (its b)) (weight (its a))) l.

(** [sort(key=lambda x: x.weight)]. *)
Definition sort_weight_asc (its : addr -> Luggage) (l : list addr) : list addr :=
  sort_by (fun a b => Qle_bool (weight (its a)) (weight (its b))) l.

(** The loop that marks the overflow. *)
Definition mark_overflow (overflow : list addr) (its : addr -> Luggage)
    : addr -> Luggage :=
  fold_left (fun m a => assign (set_compliance false)
                          a (assign (set_excess true) a m))
            overflow its.

(** The two passes of [validate_carry_on]: the loop over [total_items], then
    the quantity check.  The result holds the locals [checked_candidates] and
    [compliant_items] as they are at the [return]. *)
Definition carry_on_passes (class_policy : CarryOnPolicy)
    (total_items : list addr) (its : addr -> Luggage) : carry_acc :=
  let acc := fold_left (carry_step class_policy) total_items
               (mkCarryAcc its [] []) in
  let max_items := (quantity class_policy + 1)%Z in
  if (Z.of_nat (List.length (compliant_items acc)) >? max_items)%Z then
    let sorted := sort_weight_desc (c_items acc) (compliant_items acc) in
    let overflow := slice_from max_items sorted in
    mkCarryAcc (mark_overflow overflow (c_items acc))
               (checked_candidates acc ++ overflow)
               (slice_to max_items sorted)
  else acc.

Definition validate_carry_on (self : LuggageCompliance) (travel_class : string)
    (carry_on_items personal_items : list addr) (s : State)
    : outcome (bool * carry_msg * list addr) :=
  match lookup travel_class (classes self) with
  | None =>
      Raises (ValueError ("Classe de voyage invalide: " ++ travel_class)%string) s
  | Some entry =>
      let acc := carry_on_passes (carry_on entry)
                   (carry_on_items ++ personal_items) (items s) in
      let msg :=
        if (0 <? List.length (checked_candidates acc))%nat
        then Mais_deplacer (List.length (checked_candidates acc))
        else Cabine_conformes in
      Returns (true, msg, checked_candidates acc) (with_items s (c_items acc))
  end.

(** ** validate_checked_baggage *)

(** [all(dim <= carry_on_limits[i] for i, dim in enumerate(dimensions_cm))],
    from index [i] on; [None] is the [IndexError] of a short limit list. *)
Fixpoint all_enum_le (i : nat) (dims limits : list Q) : option bool :=
  match dims with
  | [] => Some true
  | d :: ds =>
      match nth_error limits i with
      | None => None
      | Some lim =>
          if Qle_bool d lim then all_enum_le (S i) ds limits else Some false
      end
  end.

Record reclaim_acc := mkReclaim {
  r_items : addr -> Luggage;
  carry_on_capacity : Z;
  carryon_candidates : list addr;
  retained_checked_items : list addr
}.

(** The test of the cabin-reclaim pass, with the short-circuit order of the
    source; an [IndexError] lands in the [except] branch, which retains the
    item as the [else] branch does. *)
Definition can_return_to_cabin (co : CarryOnPolicy) (capacity : Z)
    (item : Luggage) : bool :=
  (capacity >? 0)%Z
  && match all_enum_le 0 (get_dimensions_list_cm item) (co_size_limit co) with
     | Some b => b && Qle_bool (weight item) (co_weight_limit co)
     | None => false
     end.

Definition reclaim_step (co : CarryOnPolicy) (acc : reclaim_acc) (a : addr)
    : reclaim_acc :=
  if can_return_to_cabin co (carry_on_capacity acc) (r_items acc a) then
    mkReclaim
      (assign (set_excess false) a
         (assign (set_compliance true) a
            (assign (set_storage "carry-on") a (r_items acc))))
      (carry_on_capacity acc - 1)
      (carryon_candidates acc ++ [a])
      (retained_checked_items acc)
  else
    mkReclaim (r_items acc) (carry_on_capacity acc) (carryon_candidates acc)
              (retained_checked_items acc ++ [a]).

Record fee_acc := mkFeeAcc {
  f_items : addr -> Luggage;
  fees : Z;
  cargo_items : list addr;
  message_parts : list fee_note
}.

(** [weight > 32 or total_size_cm > 203]. *)
Definition cargo_bound (item : Luggage) : bool :=
  Qgt_bool (weight item) 32 || Qgt_bool (get_total_size_cm item) 203.

(** The body of the loop over [retained_checked_items]; the first branch is
    the one that ends in [continue]. *)
Definition fee_step (fee : ExcessFees) (class_policy : CheckedPolicy)
    (acc : fee_acc) (a : addr) : fee_acc :=
  let item := f_items acc a in
  let w := weight item in
  let total_size_cm := get_total_size_cm item in
  let dimensions_cm := get_dimensions_list_cm item in
  if cargo_bound item then
    mkFeeAcc (assign (set_compliance false) a
                (assign (set_special true) a (f_items acc)))
             (fees acc) (cargo_items acc ++ [a]) (message_parts acc)
  else
    let acc1 :=
      if Qgt_bool w (weight_limit class_policy) then
        mkFeeAcc (assign (set_excess true) a (f_items acc))
                 (fees acc + overweight fee) (cargo_items acc)
                 (message_parts acc
                    ++ [Surpoids dimensions_cm w (weight_limit class_policy)])
      else acc in
    if Qgt_bool total_size_cm (size_limit class_policy)
       && Qle_bool total_size_cm 203 then
      mkFeeAcc (assign (set_excess true) a (f_items acc1))
               (fees acc1 + oversize fee) (cargo_items acc1)
               (message_parts acc1
                  ++ [Surtaille dimensions_cm total_size_cm
                        (size_limit class_policy)])
    else acc1.

(** The age overlay, written to the dictionary at [p]. *)
Definition apply_child_allowance (self : LuggageCompliance)
    (passenger_type : string) (p : addr) (s : State)
    : State * list fee_note :=
  match lookup passenger_type (child_allowances self) with
  | None => (s, [])
  | Some child_policy =>
      let d := dicts s p in
      let s1 := write_dict s p
                  (mkChecked (allowance d + allowance child_policy)
                             (weight_limit d) (size_limit d)) in
      let d1 := dicts s1 p in
      let s2 := write_dict s1 p
                  (mkChecked (allowance d1)
                     (py_max (weight_limit d1) (weight_limit child_policy))
                     (size_limit d1)) in
      (s2, [Allowance_enfant (allowance child_policy)])
  end.

Definition mark_excess (l : list addr) (its : addr -> Luggage)
    : addr -> Luggage :=
  fold_left (fun m a => assign (set_excess true) a m) l its.

Definition checked_result : Type := bool * checked_msg * list addr * Z.

(** The cabin-reclaim loop over the sorted list. *)
Definition reclaim_pass (co : CarryOnPolicy) (capacity : Z)
    (sorted_items : list addr) (its : addr -> Luggage) : reclaim_acc :=
  fold_left (reclaim_step co) sorted_items (mkReclaim its capacity [] []).

(** The loop over [retained_checked_items]. *)
Definition fee_pass (fee : ExcessFees) (class_policy : CheckedPolicy)
    (retained : list addr) (its : addr -> Luggage) (parts0 : list fee_note)
    : fee_acc :=
  fold_left (fee_step fee class_policy) retained (mkFeeAcc its 0%Z [] parts0).

(** [max(0, len(retained_checked_items) - class_policy["allowance"])]. *)
Definition excess_count (class_policy : CheckedPolicy) (retained : list addr)
    : Z :=
  Z.max 0 (Z.of_nat (List.length retained) - allowance class_policy).

(** Everything [validate_checked_baggage] does once [class_policy] holds the
    overlaid copy: the in-place sort, the two loops, the piece count and the
    result tuple.  It yields the item store, the result and the sorted list. *)
Definition checked_passes (fee : ExcessFees) (co : CarryOnPolicy)
    (class_policy : CheckedPolicy) (parts0 : list fee_note) (capacity : Z)
    (checked_items : list addr) (its0 : addr -> Luggage)
    : (addr -> Luggage) * checked_result * list addr :=
  let sorted_items := sort_weight_asc its0 checked_items in
  let r := reclaim_pass co capacity sorted_items its0 in
  let f := fee_pass fee class_policy (retained_checked_items r) (r_items r)
             parts0 in
  let excess_items := excess_count class_policy (retained_checked_items r) in
  let '(its, total, parts) :=
    if (excess_items >? 0)%Z then
      (mark_excess (slice_from (- excess_items) (retained_checked_items r))
                   (f_items f),
       (fees f + extra_piece fee * excess_items)%Z,
       message_parts f ++ [Supplementaires excess_items])
    else (f_items f, fees f, message_parts f) in
  match cargo_items f with
  | [] =>
      (its, (true, mkCheckedMsg None parts, cargo_items f, total),
       sorted_items)
  | _ :: _ =>
      (its,
       (false, mkCheckedMsg (Some (List.length (cargo_items f))) parts,
        cargo_items f, total),
       sorted_items)
  end.

(** [validate_checked_baggage].  The value paired with the result tuple is
    the content of the caller's list object [checked_items] when the call
    returns; a call that raises has not touched that list. *)
Definition validate_checked_baggage (self : LuggageCompliance)
    (travel_class : string) (checked_items : list addr)
    (passenger_type : string) (capacity : Z) (s : State)
    : outcome (checked_result * list addr) :=
  match lookup travel_class (classes self) with
  | None =>
      Raises (ValueError ("Classe de voyage invalide: " ++ travel_class)%string) s
  | Some entry =>
      let '(p, s1) := alloc_dict s (dicts s (checked entry)) in
      let '(s2, parts0) := apply_child_allowance self passenger_type p s1 in
      let '(its, result, sorted_items) :=
        checked_passes (excess_fees self) (carry_on entry) (dicts s2 p)
          parts0 capacity checked_items (items s2) in
      Returns (result, sorted_items) (with_items s2 its)
  end.

(** ** test_eligibility *)

Record LuggageComplianceRequest := mkRequest {
  travel_class : string;
  age_category : string;
  luggages : list addr
}.


Definition storage_is (its : addr -> Luggage) (v : string) (a : addr) : bool :=
  String.eqb (storage (its a)) v.

Definition move_to_checked (l : list addr) (its : addr -> Luggage)
    : addr -> Luggage :=
  fold_left (fun m a => assign (set_storage "checked") a m) l its.

Definition eligibility : Type := bool * message * list addr * list addr * Z.

(** The first half of the [try] block: the split by storage, the carry-on
    validation, the move of its candidates to the hold and the remaining
    cabin capacity.  It yields the carry-on message, [carry_on_to_check],
    [all_checked_items] and [carry_on_capacity]. *)
Definition cabin_stage (self : LuggageCompliance)
    (request : LuggageComplianceRequest) (s : State)
    : outcome (carry_msg * list addr * list addr * Z) :=
  let carry_on_items :=
    filter (storage_is (items s) "carry-on") (luggages request) in
  let personal_items :=
    filter (storage_is (items s) "personal") (luggages request) in
  let checked_items :=
    filter (storage_is (items s) "checked") (luggages request) in
  match validate_carry_on self (travel_class request)
          carry_on_items personal_items s with
  | Raises e s1 => Raises e s1
  | Returns (_, carry_on_msg, carry_on_to_check) s1 =>
      let s2 := with_items s1 (move_to_checked carry_on_to_check (items s1)) in
      let all_checked_items := checked_items ++ carry_on_to_check in
      match lookup (travel_class request) (classes self) with
      | None => Raises (KeyError (travel_class request)) s2
      | Some entry =>
          let class_policy := carry_on entry in
          let capacity :=
            Z.max 0 (quantity class_policy + 1
                     - (Z.of_nat (List.length carry_on_items)
                        + Z.of_nat (List.length personal_items)
                        - Z.of_nat (List.length carry_on_to_check))) in
          Returns (carry_on_msg, carry_on_to_check, all_checked_items,
                   capacity) s2
      end
  end.

(** The body of the [try] block. *)
Definition eligibility_try (self : LuggageCompliance)
    (request : LuggageComplianceRequest) (s : State) : outcome eligibility :=
  match cabin_stage self request s with
  | Raises e s2 => Raises e s2
  | Returns (carry_on_msg, carry_on_to_check, all_checked_items, capacity) s2 =>
      match validate_checked_baggage self (travel_class request)
              all_checked_items (age_category request) capacity s2 with
      | Raises e s3 => Raises e s3
      | Returns ((ok, checked_message, cargo, total), _) s3 =>
          let messages :=
            (if carry_msg_is_default carry_on_msg then []
             else [Of_carry carry_on_msg])
            ++ (if checked_msg_is_default checked_message then []
                else [Of_checked checked_message]) in
          let full_message :=
            match messages with
            | [] => Tous_conformes
            | _ :: _ => Joined messages
            end in
          let final_result :=
            ok && Nat.eqb (List.length cargo) 0 in
          Returns (final_result, full_message, carry_on_to_check,
                   cargo, total) s3
      end
  end.

(** The result of the [except] branch. *)
Definition failed_result (e : exn) : eligibility :=
  (false,
   Erreur_validation ("Erreur lors de la validation: " ++ str_exn e)%string,
   [], [], 0%Z).

(** [test_eligibility]: the [try] block and its handler. *)
Definition test_eligibility (self : LuggageCompliance)
    (request : LuggageComplianceRequest) (s : State) : outcome eligibility :=
  match eligibility_try self request s with
  | Returns v s' => Returns v s'
  | Raises e s' => Returns (failed_result e) s'
  end.

(** ** generate_detailed_report *)





(** ** A concrete store

    The object built by [__init__] on an empty heap, and stores holding a
    given list of bags at the addresses 0, 1, 2, ... *)

Definition blank : Luggage :=
  mkLuggage "carry-on" false false false 0 (mkDim 0 0 0 "cm").

Definition store_of (bags : list Luggage) : addr -> Luggage :=
  fun a => nth a bags blank.

Definition empty_state : State :=
  mkState (fun _ => blank) (fun _ => mkChecked 0 0 0) 0%nat.

Definition policy : LuggageCompliance :=
  fst (LuggageCompliance_init empty_state).

Definition state_with (bags : list Luggage) : State :=
  with_items (snd (LuggageCompliance_init empty_state)) (store_of bags).

Definition bag (st : string) (w h wd dp : Q) : Luggage :=
  mkLuggage st false false false w (mkDim h wd dp "cm").

(** ** Notions used in the statements *)


(** Two states of an object with the same weight and the same dimensions;
    the engine writes neither. *)
Definition same_measure (x y : Luggage) : Prop :=
  weight x = weight y /\ dim x = dim y.

Definition same_measures (its its' : addr -> Luggage) : Prop :=
  forall a, same_measure (its a) (its' a).

(** The part of the test that does not depend on the remaining capacity. *)
Definition fits_cabin (co : CarryOnPolicy) (item : Luggage) : bool :=
  can_return_to_cabin co 1 item.

Definition count_fit (co : CarryOnPolicy) (its : addr -> Luggage)
    (l : list addr) : nat :=
  List.length (filter (fun a => fits_cabin co (its a)) l).

(** What one pass of the loop body adds to [fees] for an item. *)
Definition item_fee (fee : ExcessFees) (class_policy : CheckedPolicy)
    (item : Luggage) : Z :=
  if cargo_bound item then 0%Z
  else
    ((if Qgt_bool (weight item) (weight_limit class_policy)
      then overweight fee else 0)
     + (if Qgt_bool (get_total_size_cm item) (size_limit class_policy)
           && Qle_bool (get_total_size_cm item) 203
        then oversize fee else 0))%Z.

(** The sum of the per-item fees over a list. *)
Definition sum_fees (fee : ExcessFees) (pol : CheckedPolicy)
    (its : addr -> Luggage) (l : list addr) : Z :=
  fold_right (fun a acc => (item_fee fee pol (its a) + acc)%Z) 0%Z l.


(** Every [checked] dictionary of [self.classes] has been allocated. *)
Definition allocated (self : LuggageCompliance) (s : State) : Prop :=
  Forall (fun kv => (checked (snd kv) < next_dict s)%nat) (classes self).

(** [self.classes] with the [checked] dictionaries read from the store. *)
Definition classes_view (self : LuggageCompliance) (s : State)
    : list (string * (CarryOnPolicy * CheckedPolicy)) :=
  map (fun kv => (fst kv, (carry_on (snd kv), dicts s (checked (snd kv)))))
      (classes self).

Definition policy_table : list (string * (CarryOnPolicy * CheckedPolicy)) :=
  [("Economy", (mkCarryOn 1 7 [55; 40; 23], economy_checked));
   ("Business", (mkCarryOn 2 12 [55; 40; 23], business_checked));
   ("First", (mkCarryOn 2 12 [55; 40; 23], first_checked))].

(** [self] is an object built by [__init__] and its table is as built. *)
Definition standard_policy (self : LuggageCompliance) (s : State) : Prop :=
  allocated self s
  /\ classes_view self s = policy_table
  /\ child_allowances self
     = [("child", mkChecked 1 23 158); ("infant", mkChecked 1 10 158)]
  /\ excess_fees self = mkFees 75 100 150.

(** What [class_policy] holds after the overlay. *)
Definition age_overlay (base : CheckedPolicy) (child : option CheckedPolicy)
    : CheckedPolicy :=
  match child with
  | None => base
  | Some c =>
      mkChecked (allowance base + allowance c)
                (py_max (weight_limit base) (weight_limit c))
                (size_limit base)
  end.

Definition overlay_notes (child : option CheckedPolicy) : list fee_note :=
  match child with
  | None => []
  | Some c => [Allowance_enfant (allowance c)]
  end.

Definition res_ok (r : checked_result) : bool := fst (fst (fst r)).

Definition res_msg (r : checked_result) : checked_msg := snd (fst (fst r)).

Definition res_cargo (r : checked_result) : list addr := snd (fst r).

Definition res_fee (r : checked_result) : Z := snd r.

(** The checks of the constructor, on an existing object. *)
Definition valid_luggage (x : Luggage) : Prop :=
  str_in (storage x) valid_storage_types = true
  /\ 0 <= weight x
  /\ 0 <= height (dim x) /\ 0 <= width (dim x) /\ 0 <= depth (dim x)
  /\ str_in (dunit (dim x)) valid_units = true.



(** The dictionary with the defaults of [from_dict] filled in. *)
Definition with_defaults (d : PyFlat) : PyFlat :=
  mkPyFlat (p_storage d)
           (Some (get_default (p_excess d) false))
           (Some (get_default (p_special d) false))
           (Some (get_default (p_compliance d) false))
           (p_weight d) (p_height d) (p_width d) (p_depth d)
           (Some (get_default (p_unit d) "cm")).


(** [its'] differs from [its] at the addresses of [l] only, and there by
    writes that [keep] allows. *)
Definition framed (keep : Luggage -> Luggage -> Prop) (l : list addr)
    (its its' : addr -> Luggage) : Prop :=
  forall a, keep (its a) (its' a) /\ (~ In a l -> its' a = its a).

(** What the carry-on validation may write: [compliance] and [excess]. *)
Definition keeps_identity (x y : Luggage) : Prop :=
  storage x = storage y /\ special x = special y
  /\ weight x = weight y /\ dim x = dim y.

(** The test of the loop body of [validate_carry_on]: [size_ok and
    weight_ok]. *)
Definition cabin_compliant (co : CarryOnPolicy) (item : Luggage) : bool :=
  all_zip_le (get_dimensions_list_cm item) (co_size_limit co)
  && Qle_bool (weight item) (co_weight_limit co).

(** What the cabin-reclaim pass may write: storage, [compliance] and
    [excess]. *)
Definition keeps_reclaim (x y : Luggage) : Prop :=
  same_measure x y /\ special x = special y.

(** What the fee pass and the marking of excess pieces may write: the three
    flags. *)
Definition keeps_storage (x y : Luggage) : Prop :=
  same_measure x y /\ storage x = storage y.

(** The flags of an item that went back to the cabin. *)
Definition in_cabin (x : Luggage) : Prop :=
  storage x = "carry-on" /\ compliance x = true /\ excess x = false.

(** What the engine may do to an object: weight and dimensions stay, and
    the storage stays or becomes carry-on or checked. *)
Definition engine_step (x y : Luggage) : Prop :=
  same_measure x y
  /\ (storage y = storage x \/ storage y = "carry-on"
      \/ storage y = "checked").

(** A pass that never sets [compliance] to true. *)
Definition stays_refused (x y : Luggage) : Prop :=
  compliance x = false -> compliance y = false.

(** The storage of an item that travels in the cabin. *)
Definition cabin_storage (x : Luggage) : bool :=
  String.eqb (storage x) "carry-on" || String.eqb (storage x) "personal".





(** A weight or a length that the constructor lets through: a finite
    number that is not negative, plus infinity, or a NaN. *)
Definition not_negative (a : pyfloat) : Prop :=
  match a with
  | Finite q => 0 <= q
  | Infinity negative => negative = false
  | NaN _ => True
  end.

(** A number that [float()] returns with its value: an infinity, a NaN, or
    a finite number of magnitude at most 2^53, which is a float or an [int]
    that a float holds exactly.  Beyond that magnitude an [int] is rounded
    by [float()], or rejected with [OverflowError]. *)
Definition float_keeps (a : pyfloat) : bool :=
  match a with
  | Finite q => Qle_bool (Qabs q) 9007199254740992
  | _ => true
  end.


Definition keeps_entries (d : PyFlat) : Prop :=
  forall f,
    In (Some f) [p_weight d; p_height d; p_width d; p_depth d] ->
    float_keeps f = true.

(** An object that satisfies the checks of the constructor. *)
Definition passes_checks (x : PyLuggage) : Prop :=
  str_in (o_storage x) valid_storage_types = true
  /\ not_negative (o_weight x)
  /\ not_negative (d_height (o_dim x))
  /\ not_negative (d_width (o_dim x))
  /\ not_negative (d_depth (o_dim x))
  /\ str_in (d_unit (o_dim x)) valid_units = true.

(** The interpreter converts and adds lengths in binary floating point,
    this development exactly.  The two give the same answer to the
    comparison of a total size with a limit when no length is negative and
    either the lengths are whole centimetres, given in cm or mm, on which
    the floating-point operations are exact, or the total is off the limit
    by more than one part in 10^12, which is far more than the rounding of
    the three operations. *)
Definition whole (q : Q) : bool := (Qnum q mod Z.pos (Qden q) =? 0)%Z.

Definition whole_cm (x : Luggage) : bool :=
  negb (String.eqb (dunit (dim x)) "in")
  && forallb whole (get_dimensions_list_cm x).

Definition off_limit (limit : Q) (x : Luggage) : bool :=
  Qle_bool (get_total_size_cm x * (1 + (1 # 1000000000000))) limit
  || Qle_bool (limit * (1 + (1 # 1000000000000))) (get_total_size_cm x).

Definition size_decided (limit : Q) (x : Luggage) : bool :=
  forallb (Qle_bool 0) [height (dim x); width (dim x); depth (dim x)]
  && (whole_cm x || off_limit limit x).

(** The items of [l] have total sizes on which the interpreter and this
    development agree, against the cargo threshold of 203 and against the
    size limit of the policy. *)
Definition sizes_decided (size_limit_ : Q) (its : addr -> Luggage)
    (l : list addr) : Prop :=
  forall a, In a l ->
            size_decided 203 (its a) = true
            /\ size_decided size_limit_ (its a) = true.


(** * Facts *)

(** ** Comparisons on [Q] *)

Lemma Qle_bool_total (a b : Q) : Qle_bool a b = false -> Qle_bool b a = true.
Proof.
  intros H. apply Qle_bool_iff.
  destruct (Qlt_le_dec b a) as [Hlt | Hle].
  - apply Qlt_le_weak; exact Hlt.
  - apply Qle_bool_iff in Hle. congruence.
Qed.

Lemma Qle_bool_trans (a b c : Q) :
  Qle_bool a b = true -> Qle_bool b c = true -> Qle_bool a c = true.
Proof.
  rewrite !Qle_bool_iff. intros; eapply Qle_trans; eauto.
Qed.

Lemma Qgt_bool_true (a b : Q) : Qgt_bool a b = true <-> b < a.
Proof.
  unfold Qgt_bool. rewrite negb_true_iff. split; intros H.
  - apply Qnot_le_lt. intros Hle. apply Qle_bool_iff in Hle. congruence.
  - destruct (Qle_bool a b) eqn:E; [|reflexivity].
    apply Qle_bool_iff in E. exfalso. eapply Qlt_not_le; eauto.
Qed.

Lemma Qgt_bool_false (a b : Q) : Qgt_bool a b = false <-> a <= b.
Proof.
  unfold Qgt_bool. rewrite negb_false_iff. apply Qle_bool_iff.
Qed.

Lemma Qlt_bool_true (a b : Q) : Qlt_bool a b = true <-> a < b.
Proof. apply Qgt_bool_true. Qed.

Lemma Qlt_bool_false (a b : Q) : Qlt_bool a b = false <-> b <= a.
Proof. apply Qgt_bool_false. Qed.

(** ** The stable sort *)

Section StableSortFacts.
Context {A : Type} (le : A -> A -> bool).
Hypothesis le_total : forall a b, le a b = false -> le b a = true.
Hypothesis le_trans :
  forall a b c, le a b = true -> le b c = true -> le a c = true.

Lemma insert_by_perm (a : A) (l : list A) :
  Permutation (a :: l) (insert_by le a l).
Proof.
  induction l as [|b l IH]; simpl.
  - apply Permutation_refl.
  - destruct (le a b).
    + apply Permutation_refl.
    + eapply perm_trans; [apply perm_swap|].
      apply perm_skip, IH.
Qed.

Lemma sort_by_perm (l : list A) : Permutation l (sort_by le l).
Proof.
  induction l as [|a l IH]; simpl.
  - constructor.
  - eapply perm_trans; [apply perm_skip, IH|]. apply insert_by_perm.
Qed.

Lemma sort_by_length (l : list A) :
  List.length (sort_by le l) = List.length l.
Proof. symmetry. apply Permutation_length, sort_by_perm. Qed.

Lemma insert_by_sorted (a : A) (l : list A) :
  StronglySorted (fun x y => le x y = true) l ->
  StronglySorted (fun x y => le x y = true) (insert_by le a l).
Proof.
  induction l as [|b l IH]; intros Hs; simpl.
  - repeat constructor.
  - inversion Hs as [|? ? Hs' Hall]; subst.
    destruct (le a b) eqn:E.
    + constructor; [exact Hs|].
      constructor; [exact E|].
      eapply Forall_impl; [|exact Hall].
      intros c Hc. eapply le_trans; eauto.
    + constructor; [apply IH, Hs'|].
      eapply Permutation_Forall; [apply insert_by_perm|].
      constructor; [apply le_total, E | exact Hall].
Qed.

Lemma sort_by_sorted (l : list A) :
  StronglySorted (fun x y => le x y = true) (sort_by le l).
Proof.
  induction l as [|a l IH]; simpl.
  - constructor.
  - apply insert_by_sorted, IH.
Qed.



End StableSortFacts.

Lemma sort_weight_asc_perm (its : addr -> Luggage) (l : list addr) :
  Permutation l (sort_weight_asc its l).
Proof. apply sort_by_perm. Qed.

Lemma StronglySorted_weaken {A} (R R' : A -> A -> Prop) (l : list A) :
  (forall a b, R a b -> R' a b) -> StronglySorted R l -> StronglySorted R' l.
Proof.
  intros HR Hs. induction Hs as [|a l Hs IH Hall]; constructor.
  - exact IH.
  - eapply Forall_impl; [|exact Hall]. intros b; apply HR.
Qed.

Lemma sort_weight_asc_sorted (its : addr -> Luggage) (l : list addr) :
  StronglySorted (fun a b => weight (its a) <= weight (its b))
                 (sort_weight_asc its l).
Proof.
  eapply StronglySorted_weaken;
    [|apply sort_by_sorted].
  - intros a b H. apply Qle_bool_iff. exact H.
  - intros a b. apply Qle_bool_total.
  - intros a b c. apply Qle_bool_trans.
Qed.

(** ** Stores *)

Lemma upd_same {V} (m : addr -> V) (a : addr) (v : V) : upd m a v a = v.
Proof. unfold upd. rewrite Nat.eqb_refl. reflexivity. Qed.

Lemma upd_other {V} (m : addr -> V) (a b : addr) (v : V) :
  b <> a -> upd m a v b = m b.
Proof.
  intros H. unfold upd. destruct (Nat.eqb b a) eqn:E; [|reflexivity].
  apply Nat.eqb_eq in E. contradiction.
Qed.

Lemma assign_same (f : Luggage -> Luggage) a its :
  assign f a its a = f (its a).
Proof. apply upd_same. Qed.

Lemma assign_other (f : Luggage -> Luggage) a b its :
  b <> a -> assign f a its b = its b.
Proof. apply upd_other. Qed.

Lemma same_measures_refl its : same_measures its its.
Proof. intros a; split; reflexivity. Qed.

Lemma same_measures_trans its1 its2 its3 :
  same_measures its1 its2 -> same_measures its2 its3 ->
  same_measures its1 its3.
Proof.
  intros H1 H2 a. destruct (H1 a), (H2 a). split; congruence.
Qed.

Lemma same_measures_assign (f : Luggage -> Luggage) a its :
  (forall x, same_measure x (f x)) -> same_measures its (assign f a its).
Proof.
  intros Hf b. destruct (Nat.eq_dec b a) as [->|Hne].
  - rewrite assign_same. apply Hf.
  - rewrite assign_other by exact Hne. split; reflexivity.
Qed.

Lemma same_measure_total x y :
  same_measure x y -> get_total_size_cm x = get_total_size_cm y.
Proof.
  intros [_ Hd]. unfold get_total_size_cm, get_dimensions_in_cm.
  rewrite Hd. reflexivity.
Qed.

Lemma same_measure_dims x y :
  same_measure x y -> get_dimensions_list_cm x = get_dimensions_list_cm y.
Proof.
  intros [_ Hd]. unfold get_dimensions_list_cm, get_dimensions_in_cm.
  rewrite Hd. reflexivity.
Qed.

Lemma same_measure_cargo x y :
  same_measure x y -> cargo_bound x = cargo_bound y.
Proof.
  intros H. unfold cargo_bound.
  rewrite (same_measure_total _ _ H). destruct H as [-> _]. reflexivity.
Qed.

Lemma same_measure_cabin co cap x y :
  same_measure x y ->
  can_return_to_cabin co cap x = can_return_to_cabin co cap y.
Proof.
  intros H. unfold can_return_to_cabin.
  rewrite (same_measure_dims _ _ H). destruct H as [-> _]. reflexivity.
Qed.

Ltac measure_step :=
  repeat (eapply same_measures_trans;
          [|apply same_measures_assign; intros []; split; reflexivity]);
  try apply same_measures_refl.

Lemma fold_left_invariant {A B} (P : A -> Prop) (f : A -> B -> A) l acc :
  (forall x b, P x -> P (f x b)) -> P acc -> P (fold_left f l acc).
Proof.
  intros Hf. revert acc. induction l as [|b l IH]; simpl; intros acc H.
  - exact H.
  - apply IH, Hf, H.
Qed.

(** ** The cabin-reclaim pass *)

Lemma can_return_split co cap item :
  can_return_to_cabin co cap item = (cap >? 0)%Z && fits_cabin co item.
Proof. unfold fits_cabin, can_return_to_cabin. reflexivity. Qed.

Lemma reclaim_step_measures co acc a :
  same_measures (r_items acc) (r_items (reclaim_step co acc a)).
Proof.
  unfold reclaim_step.
  destruct (can_return_to_cabin co (carry_on_capacity acc) (r_items acc a));
    simpl; measure_step.
Qed.

Lemma reclaim_fold_measures co l acc :
  same_measures (r_items acc) (r_items (fold_left (reclaim_step co) l acc)).
Proof.
  revert acc. induction l as [|a l IH]; simpl; intros acc.
  - apply same_measures_refl.
  - eapply same_measures_trans; [apply reclaim_step_measures | apply IH].
Qed.

Lemma count_fit_measures co its its' l :
  same_measures its its' -> count_fit co its l = count_fit co its' l.
Proof.
  intros H. unfold count_fit. f_equal. apply filter_ext.
  intros a. unfold fits_cabin. apply same_measure_cabin, H.
Qed.

Lemma count_fit_perm co its l l' :
  Permutation l l' -> count_fit co its l = count_fit co its l'.
Proof.
  intros H. unfold count_fit. apply Permutation_length.
  induction H; simpl.
  - constructor.
  - destruct (fits_cabin co (its x)); [apply perm_skip|]; assumption.
  - destruct (fits_cabin co (its x)), (fits_cabin co (its y));
      try apply Permutation_refl. apply perm_swap.
  - eapply perm_trans; eassumption.
Qed.

Lemma count_fit_cons co its a l :
  count_fit co its (a :: l)
  = ((if fits_cabin co (its a) then 1 else 0) + count_fit co its l)%nat.
Proof.
  unfold count_fit. simpl. destruct (fits_cabin co (its a)); reflexivity.
Qed.

(** What the loop leaves in its four locals, counted. *)
Lemma reclaim_fold_counts co l acc :
  let r := fold_left (reclaim_step co) l acc in
  let n := Z.min (Z.max 0 (carry_on_capacity acc))
                 (Z.of_nat (count_fit co (r_items acc) l)) in
  Z.of_nat (List.length (carryon_candidates r))
    = (Z.of_nat (List.length (carryon_candidates acc)) + n)%Z
  /\ carry_on_capacity r = (carry_on_capacity acc - n)%Z
  /\ Z.of_nat (List.length (retained_checked_items r))
     = (Z.of_nat (List.length (retained_checked_items acc))
        + Z.of_nat (List.length l) - n)%Z.
Proof.
  revert acc. induction l as [|a l IH]; intros acc.
  - cbn. lia.
  - cbn zeta.
    change (fold_left (reclaim_step co) (a :: l) acc)
      with (fold_left (reclaim_step co) l (reclaim_step co acc a)).
    specialize (IH (reclaim_step co acc a)). cbn zeta in IH.
    destruct IH as (IH1 & IH2 & IH3). rewrite IH1, IH2, IH3.
    rewrite <- (count_fit_measures co _ _ l (reclaim_step_measures co acc a)).
    rewrite count_fit_cons.
    unfold reclaim_step. rewrite can_return_split.
    destruct (carry_on_capacity acc >? 0)%Z eqn:Ec;
      destruct (fits_cabin co (r_items acc a)) eqn:Ef;
      cbn [andb carryon_candidates carry_on_capacity retained_checked_items];
      rewrite ?length_app; cbn [List.length];
      try (apply Z.gtb_lt in Ec);
      try (rewrite Z.gtb_ltb in Ec; apply Z.ltb_ge in Ec); lia.
Qed.

Lemma reclaim_step_eq co its cap cands ret a :
  reclaim_step co (mkReclaim its cap cands ret) a
  = if can_return_to_cabin co cap (its a) then
      mkReclaim
        (assign (set_excess false) a
           (assign (set_compliance true) a
              (assign (set_storage "carry-on") a its)))
        (cap - 1) (cands ++ [a]) ret
    else mkReclaim its cap cands (ret ++ [a]).
Proof. reflexivity. Qed.



(** ** The fee pass *)

Lemma item_fee_measure fee pol x y :
  same_measure x y -> item_fee fee pol x = item_fee fee pol y.
Proof.
  intros H. unfold item_fee.
  rewrite (same_measure_cargo _ _ H), (same_measure_total _ _ H).
  destruct H as [-> _]. reflexivity.
Qed.

Lemma fee_step_fees fee pol acc a :
  fees (fee_step fee pol acc a)
  = (fees acc + item_fee fee pol (f_items acc a))%Z.
Proof.
  unfold fee_step, item_fee.
  destruct (cargo_bound (f_items acc a)); cbn [fees]; [lia|].
  destruct (Qgt_bool (weight (f_items acc a)) (weight_limit pol));
    destruct (Qgt_bool (get_total_size_cm (f_items acc a)) (size_limit pol)
              && Qle_bool (get_total_size_cm (f_items acc a)) 203);
    cbn [fees]; lia.
Qed.

Lemma fee_step_measures fee pol acc a :
  same_measures (f_items acc) (f_items (fee_step fee pol acc a)).
Proof.
  unfold fee_step.
  destruct (cargo_bound (f_items acc a)); cbn [f_items]; [measure_step|].
  destruct (Qgt_bool (weight (f_items acc a)) (weight_limit pol));
    destruct (Qgt_bool (get_total_size_cm (f_items acc a)) (size_limit pol)
              && Qle_bool (get_total_size_cm (f_items acc a)) 203);
    cbn [f_items]; measure_step.
Qed.

Lemma fee_fold_measures fee pol l acc :
  same_measures (f_items acc) (f_items (fold_left (fee_step fee pol) l acc)).
Proof.
  revert acc. induction l as [|a l IH]; cbn [fold_left]; intros acc.
  - apply same_measures_refl.
  - eapply same_measures_trans; [apply fee_step_measures | apply IH].
Qed.

Lemma sum_fees_measures fee pol its its' l :
  same_measures its its' -> sum_fees fee pol its l = sum_fees fee pol its' l.
Proof.
  intros H. induction l as [|a l IH]; cbn; [reflexivity|].
  fold (sum_fees fee pol its l). fold (sum_fees fee pol its' l).
  rewrite IH, (item_fee_measure fee pol _ _ (H a)). reflexivity.
Qed.


Lemma fee_fold_fees fee pol l acc :
  fees (fold_left (fee_step fee pol) l acc)
  = (fees acc + sum_fees fee pol (f_items acc) l)%Z.
Proof.
  revert acc. induction l as [|a l IH]; intros acc.
  - cbn. lia.
  - cbn [fold_left]. rewrite IH, fee_step_fees.
    rewrite <- (sum_fees_measures fee pol _ _ l
                  (fee_step_measures fee pol acc a)).
    cbn [sum_fees fold_right]. fold (sum_fees fee pol (f_items acc) l). lia.
Qed.

(** The cargo list is the retained list filtered by the cargo test. *)
Lemma fee_step_cargo fee pol acc a :
  cargo_items (fee_step fee pol acc a)
  = cargo_items acc ++ (if cargo_bound (f_items acc a) then [a] else []).
Proof.
  unfold fee_step.
  destruct (cargo_bound (f_items acc a)); cbn [cargo_items]; [reflexivity|].
  destruct (Qgt_bool (weight (f_items acc a)) (weight_limit pol));
    destruct (Qgt_bool (get_total_size_cm (f_items acc a)) (size_limit pol)
              && Qle_bool (get_total_size_cm (f_items acc a)) 203);
    cbn [cargo_items]; rewrite app_nil_r; reflexivity.
Qed.

Lemma fee_fold_cargo fee pol l acc :
  cargo_items (fold_left (fee_step fee pol) l acc)
  = cargo_items acc ++ filter (fun a => cargo_bound (f_items acc a)) l.
Proof.
  revert acc. induction l as [|a l IH]; intros acc.
  - cbn. rewrite app_nil_r. reflexivity.
  - cbn [fold_left filter]. rewrite IH, fee_step_cargo, <- app_assoc.
    f_equal.
    rewrite (filter_ext (fun b => cargo_bound (f_items (fee_step fee pol acc a) b))
                        (fun b => cargo_bound (f_items acc b))).
    + destruct (cargo_bound (f_items acc a)); reflexivity.
    + intros b. symmetry. apply same_measure_cargo, fee_step_measures.
Qed.





(** The marking of the excess pieces writes [excess] only. *)
Lemma mark_excess_measures l its : same_measures its (mark_excess l its).
Proof.
  unfold mark_excess. revert its.
  induction l as [|a l IH]; cbn [fold_left]; intros its.
  - apply same_measures_refl.
  - eapply same_measures_trans; [|apply IH]. measure_step.
Qed.

Lemma mark_excess_flags l its b :
  special (mark_excess l its b) = special (its b)
  /\ compliance (mark_excess l its b) = compliance (its b)
  /\ storage (mark_excess l its b) = storage (its b).
Proof.
  unfold mark_excess. revert its.
  induction l as [|a l IH]; cbn [fold_left]; intros its.
  - repeat split.
  - destruct (IH (assign (set_excess true) a its)) as (H1 & H2 & H3).
    rewrite H1, H2, H3.
    destruct (Nat.eq_dec b a) as [->|Hne].
    + rewrite assign_same. repeat split.
    + rewrite assign_other by exact Hne. repeat split.
Qed.

Lemma mark_excess_excess l its b :
  excess (mark_excess l its b) = existsb (Nat.eqb b) l || excess (its b).
Proof.
  unfold mark_excess. revert its.
  induction l as [|a l IH]; cbn [fold_left existsb]; intros its.
  - reflexivity.
  - rewrite IH. destruct (Nat.eqb b a) eqn:E.
    + apply Nat.eqb_eq in E. subst b. rewrite assign_same. cbn.
      apply orb_true_r.
    + apply Nat.eqb_neq in E. rewrite assign_other by exact E. reflexivity.
Qed.

(** ** The policy table seen through the store *)

Lemma init_standard (s0 : State) (its : addr -> Luggage) :
  standard_policy (fst (LuggageCompliance_init s0))
                  (with_items (snd (LuggageCompliance_init s0)) its).
Proof.
  unfold standard_policy, allocated, classes_view, LuggageCompliance_init.
  cbn -[Nat.eqb]. repeat split.
  - repeat constructor; cbn; lia.
  - unfold upd, policy_table.
    rewrite !Nat.eqb_refl.
    replace (Nat.eqb (next_dict s0) (S (S (next_dict s0)))) with false
      by (symmetry; apply Nat.eqb_neq; lia).
    replace (Nat.eqb (next_dict s0) (S (next_dict s0))) with false
      by (symmetry; apply Nat.eqb_neq; lia).
    replace (Nat.eqb (S (next_dict s0)) (S (S (next_dict s0)))) with false
      by (symmetry; apply Nat.eqb_neq; lia).
    reflexivity.
Qed.

Lemma lookup_view (self : LuggageCompliance) (s : State) (tc : string) :
  lookup tc (classes_view self s)
  = option_map (fun e => (carry_on e, dicts s (checked e)))
               (lookup tc (classes self)).
Proof.
  unfold classes_view. induction (classes self) as [|[k e] l IH]; cbn.
  - reflexivity.
  - destruct (String.eqb tc k); [reflexivity | exact IH].
Qed.

Lemma standard_lookup self s tc co cp :
  standard_policy self s ->
  lookup tc policy_table = Some (co, cp) ->
  exists entry,
    lookup tc (classes self) = Some entry
    /\ carry_on entry = co /\ dicts s (checked entry) = cp
    /\ (checked entry < next_dict s)%nat.
Proof.
  intros (Ha & Hv & _) Hl. rewrite <- Hv, lookup_view in Hl.
  destruct (lookup tc (classes self)) as [e|] eqn:E; [|discriminate].
  cbn in Hl. injection Hl as H1 H2. exists e. repeat split; try assumption.
  unfold allocated in Ha. rewrite Forall_forall in Ha.
  clear - E Ha. induction (classes self) as [|[k e'] l IH]; [discriminate|].
  cbn in E. destruct (String.eqb tc k).
  - injection E as ->. apply (Ha (k, e)). left; reflexivity.
  - apply IH; [|exact E]. intros x Hx. apply Ha. right; exact Hx.
Qed.

Lemma standard_unknown self s tc :
  standard_policy self s ->
  str_in tc ["Economy"; "Business"; "First"] = false ->
  lookup tc (classes self) = None.
Proof.
  intros (_ & Hv & _) Hn.
  assert (H : lookup tc (classes_view self s) = None).
  { rewrite Hv. cbn in *.
    destruct (String.eqb tc "Economy"); [discriminate|].
    destruct (String.eqb tc "Business"); [discriminate|].
    destruct (String.eqb tc "First"); [discriminate|]. reflexivity. }
  rewrite lookup_view in H.
  destruct (lookup tc (classes self)); [discriminate | reflexivity].
Qed.

(** The three classes of the table. *)
Lemma standard_classes tc :
  str_in tc ["Economy"; "Business"; "First"] = true ->
  exists co cp,
    lookup tc policy_table = Some (co, cp)
    /\ co_size_limit co = [55; 40; 23]
    /\ (co_weight_limit co == 7 \/ co_weight_limit co == 12)
    /\ (1 <= quantity co)%Z
    /\ (1 <= allowance cp)%Z
    /\ (weight_limit cp == 23 \/ weight_limit cp == 32)
    /\ size_limit cp = 158.
Proof.
  intros H. cbn in H. cbn [policy_table lookup].
  destruct (String.eqb tc "Economy").
  { eexists _, _. split; [reflexivity|]. cbn.
    repeat split; try lia; left; reflexivity. }
  destruct (String.eqb tc "Business").
  { eexists _, _. split; [reflexivity|]. cbn.
    repeat split; try lia; right; reflexivity. }
  destruct (String.eqb tc "First"); [|discriminate].
  eexists _, _. split; [reflexivity|]. cbn.
  repeat split; try lia; right; reflexivity.
Qed.

(** ** The age overlay *)

(** The call on a known class: the copy sits at the next free address and
    holds the overlay, every other dictionary is as before, and the result is
    that of the passes run against the overlay. *)
Lemma validate_checked_baggage_returns self tc l ptype cap s entry :
  lookup tc (classes self) = Some entry ->
  let child := lookup ptype (child_allowances self) in
  let pol := age_overlay (dicts s (checked entry)) child in
  let run := checked_passes (excess_fees self) (carry_on entry) pol
               (overlay_notes child) cap l (items s) in
  exists s',
    validate_checked_baggage self tc l ptype cap s
    = Returns (snd (fst run), snd run) s'
    /\ items s' = fst (fst run)
    /\ next_dict s' = S (next_dict s)
    /\ dicts s' (next_dict s) = pol
    /\ (forall a, a <> next_dict s -> dicts s' a = dicts s a).
Proof.
  intros Hl child pol run. unfold validate_checked_baggage. rewrite Hl.
  unfold alloc_dict, apply_child_allowance. fold child.
  assert (Hpol :
    forall s2,
      dicts s2 (next_dict s) = pol -> items s2 = items s ->
      forall parts0, parts0 = overlay_notes child ->
      (let '(its, result, sorted_items) :=
         checked_passes (excess_fees self) (carry_on entry)
           (dicts s2 (next_dict s)) parts0 cap l (items s2) in
       Returns (result, sorted_items) (with_items s2 its))
      = Returns (snd (fst run), snd run) (with_items s2 (fst (fst run)))).
  { intros s2 H1 H2 parts0 ->. rewrite H1, H2. fold run.
    destruct run as [[its result] sorted_items]. reflexivity. }
  destruct child as [c|] eqn:Ec; cbn [age_overlay overlay_notes] in *.
  - eexists. split; [apply Hpol; [|reflexivity|reflexivity]|].
    + cbn. repeat (rewrite upd_same; cbn). reflexivity.
    + cbn. repeat (rewrite upd_same; cbn).
      split; [reflexivity|]. split; [reflexivity|]. split; [reflexivity|].
      intros a Ha. rewrite !upd_other by exact Ha. reflexivity.
  - eexists. split; [apply Hpol; [|reflexivity|reflexivity]|].
    + cbn. rewrite upd_same. reflexivity.
    + cbn. rewrite upd_same.
      split; [reflexivity|]. split; [reflexivity|]. split; [reflexivity|].
      intros a Ha. rewrite upd_other by exact Ha. reflexivity.
Qed.

(** ** The passes of validate_checked_baggage *)

Section CheckedPasses.
Variables (fee : ExcessFees) (co : CarryOnPolicy) (pol : CheckedPolicy).
Variables (parts0 : list fee_note) (cap : Z) (l : list addr).
Variable its0 : addr -> Luggage.

Let sorted := sort_weight_asc its0 l.
Let r := reclaim_pass co cap sorted its0.
Let f := fee_pass fee pol (retained_checked_items r) (r_items r) parts0.
Let n := excess_count pol (retained_checked_items r).
Let run := checked_passes fee co pol parts0 cap l its0.

Lemma checked_passes_spec :
  snd run = sorted
  /\ res_cargo (snd (fst run)) = cargo_items f
  /\ res_ok (snd (fst run))
     = match cargo_items f with [] => true | _ :: _ => false end
  /\ res_fee (snd (fst run))
     = (fees f + (if (n >? 0)%Z then extra_piece fee * n else 0))%Z
  /\ fst (fst run)
     = (if (n >? 0)%Z
        then mark_excess (slice_from (- n) (retained_checked_items r))
                         (f_items f)
        else f_items f).
Proof.
  unfold run, checked_passes. fold sorted. fold r. fold f. fold n.
  destruct (n >? 0)%Z; destruct (cargo_items f);
    cbn; repeat split; lia.
Qed.

Lemma checked_passes_measures : same_measures its0 (fst (fst run)).
Proof.
  destruct checked_passes_spec as (_ & _ & _ & _ & ->).
  assert (H : same_measures its0 (f_items f)).
  { eapply same_measures_trans;
      [apply (reclaim_fold_measures co sorted (mkReclaim its0 cap [] []))|].
    apply (fee_fold_measures fee pol (retained_checked_items r)
             (mkFeeAcc (r_items r) 0 [] parts0)). }
  destruct (n >? 0)%Z; [|exact H].
  eapply same_measures_trans; [exact H | apply mark_excess_measures].
Qed.

(** The cargo list: the retained items beyond the cargo threshold. *)
Lemma checked_passes_cargo :
  res_cargo (snd (fst run))
  = filter (fun a => cargo_bound (its0 a)) (retained_checked_items r).
Proof.
  destruct checked_passes_spec as (_ & -> & _).
  unfold f, fee_pass. rewrite fee_fold_cargo. cbn [cargo_items app f_items].
  apply filter_ext. intros a. symmetry. apply same_measure_cargo.
  apply (reclaim_fold_measures co sorted (mkReclaim its0 cap [] [])).
Qed.

(** The fee: the per-item fees of the retained items, and the extra-piece
    fee on the length of the retained list. *)
Lemma checked_passes_fee :
  res_fee (snd (fst run))
  = (sum_fees fee pol its0 (retained_checked_items r)
     + (if (n >? 0)%Z then extra_piece fee * n else 0))%Z.
Proof.
  destruct checked_passes_spec as (_ & _ & _ & -> & _).
  unfold f, fee_pass. rewrite fee_fold_fees. cbn [fees f_items].
  rewrite (sum_fees_measures fee pol its0 (r_items r)); [lia|].
  apply (reclaim_fold_measures co sorted (mkReclaim its0 cap [] [])).
Qed.

End CheckedPasses.

(** ** test_eligibility on a known class *)



(** * The claims *)

(** ** C1: the cargo threshold *)



(** ** C2: the extra-piece fee *)

(** C2, at the failing input.  Economy, adult, no cabin capacity, two
    checked bags of 20 kg and 35 kg.  The 35 kg bag goes to cargo, so one
    checked item is not cargo and the allowance is 1; the call still charges
    one extra piece, 150, and the piece it marks [excess] is the cargo one:
    the count is taken on the whole retained list. *)
Theorem extra_piece_counts_cargo :
  let bags := [bag "checked" 20 60 40 25; bag "checked" 35 60 40 25] in
  let s := state_with bags in
  exists s',
    validate_checked_baggage policy "Economy" [0; 1]%nat "adult" 0 s
    = Returns ((false, mkCheckedMsg (Some 1%nat) [Supplementaires 1],
                [1%nat], 150%Z), [0; 1]%nat) s'
    /\ List.length (filter (fun a => negb (cargo_bound (items s a)))
                      [0; 1]%nat) = 1%nat
    /\ allowance economy_checked = 1%Z
    /\ excess (items s' 0%nat) = false
    /\ excess (items s' 1%nat) = true
    /\ special (items s' 1%nat) = true.
Proof.
  cbn zeta. eexists. split; [vm_compute; reflexivity|].
  repeat split; vm_compute; reflexivity.
Qed.

(** ** C3: the carry-on capacity *)

(** The count that stays in the cabin is within the class quantity plus 1. *)
Lemma carry_on_capacity_invariant (co : CarryOnPolicy) (l : list addr) its :
  (0 <= quantity co + 1)%Z ->
  (Z.of_nat (List.length (compliant_items (carry_on_passes co l its)))
   <= quantity co + 1)%Z.
Proof.
  intros Hq. unfold carry_on_passes.
  set (acc := fold_left (carry_step co) l (mkCarryAcc its [] [])).
  destruct (Z.of_nat (List.length (compliant_items acc)) >? quantity co + 1)%Z
    eqn:E; cbn [compliant_items].
  - unfold slice_to. replace (0 <=? quantity co + 1)%Z with true
      by (symmetry; apply Z.leb_le; exact Hq).
    rewrite length_firstn. lia.
  - rewrite Z.gtb_ltb in E. apply Z.ltb_ge in E. exact E.
Qed.

(** C3, at the failing input.  Economy allows two cabin items; with three
    fitting carry-on bags of 1, 2 and 3 kg the one moved to the hold is the
    bag of 1 kg, the lightest: the list is sorted by descending weight and the
    overflow is its tail.  The bags of 2 and 3 kg stay compliant. *)
Theorem overflow_moves_lightest :
  let bags := [bag "carry-on" 1 10 10 10; bag "carry-on" 2 10 10 10;
               bag "carry-on" 3 10 10 10] in
  let s := state_with bags in
  exists s',
    validate_carry_on policy "Economy" [0; 1; 2]%nat [] s
    = Returns (true, Mais_deplacer 1, [0%nat]) s'
    /\ weight (items s 0%nat) = 1 /\ weight (items s 2%nat) = 3
    /\ excess (items s' 0%nat) = true
    /\ compliance (items s' 0%nat) = false
    /\ excess (items s' 2%nat) = false
    /\ compliance (items s' 2%nat) = true
    /\ compliance (items s' 1%nat) = true.
Proof.
  cbn zeta. eexists. split; [vm_compute; reflexivity|].
  repeat split; vm_compute; reflexivity.
Qed.

(** ** C4: the orchestrator boundary *)

(** C4.  [test_eligibility] returns on every request and every store; when
    its [try] block raises [e], the value returned is verdict false, the
    message ["Erreur lors de la validation: " + str(e)], no moved item, no
    cargo item and a fee of 0; an unknown travel class is such a case. *)
Theorem orchestrator_catches :
  forall self request s,
    (exists v s', test_eligibility self request s = Returns v s')
    /\ (forall e s',
          eligibility_try self request s = Raises e s' ->
          test_eligibility self request s
          = Returns (false,
                     Erreur_validation
                       ("Erreur lors de la validation: " ++ str_exn e)%string,
                     [], [], 0%Z) s')
    /\ (lookup (travel_class request) (classes self) = None ->
        test_eligibility self request s
        = Returns (false,
                   Erreur_validation
                     ("Erreur lors de la validation: Classe de voyage invalide: "
                        ++ travel_class request)%string,
                   [], [], 0%Z) s).
Proof.
  intros self request s. split; [|split].
  - unfold test_eligibility.
    destruct (eligibility_try self request s) as [v s'|e s'];
      eexists _, _; reflexivity.
  - intros e s' H. unfold test_eligibility. rewrite H. reflexivity.
  - intros H. unfold test_eligibility, eligibility_try, cabin_stage,
      validate_carry_on. rewrite H. reflexivity.
Qed.

Lemma orchestrator_catches_witness :
  test_eligibility policy (mkRequest "Premium" "adult" [0%nat])
    (state_with [bag "checked" 20 60 40 25])
  = Returns (false,
             Erreur_validation
               "Erreur lors de la validation: Classe de voyage invalide: Premium",
             [], [], 0%Z)
            (state_with [bag "checked" 20 60 40 25]).
Proof.
  apply (proj2 (proj2 (orchestrator_catches policy
                         (mkRequest "Premium" "adult" [0%nat])
                         (state_with [bag "checked" 20 60 40 25])))).
  reflexivity.
Defined.

(** ** C10: the evaluators reject an unknown class *)

(** C10.  For a travel class outside Economy, Business and First, a direct
    call of [validate_carry_on] or of [validate_checked_baggage] raises
    [ValueError] and leaves the store as it found it: no item has been read
    or written. *)
Theorem evaluators_reject_unknown_class :
  forall self s tc carry_on_items personal_items checked_items ptype cap,
    standard_policy self s ->
    str_in tc ["Economy"; "Business"; "First"] = false ->
    validate_carry_on self tc carry_on_items personal_items s
    = Raises (ValueError ("Classe de voyage invalide: " ++ tc)%string) s
    /\ validate_checked_baggage self tc checked_items ptype cap s
       = Raises (ValueError ("Classe de voyage invalide: " ++ tc)%string) s.
Proof.
  intros self s tc co pe ch ptype cap Hstd Hn.
  pose proof (standard_unknown self s tc Hstd Hn) as Hl.
  unfold validate_carry_on, validate_checked_baggage. rewrite Hl.
  split; reflexivity.
Qed.

Lemma evaluators_reject_unknown_class_witness :
  validate_carry_on policy "Premium" [0%nat] []
    (state_with [bag "carry-on" 5 50 30 20])
  = Raises (ValueError "Classe de voyage invalide: Premium")
           (state_with [bag "carry-on" 5 50 30 20])
  /\ validate_checked_baggage policy "Premium" [0%nat] "adult" 0
       (state_with [bag "carry-on" 5 50 30 20])
     = Raises (ValueError "Classe de voyage invalide: Premium")
              (state_with [bag "carry-on" 5 50 30 20]).
Proof.
  apply (evaluators_reject_unknown_class policy
           (state_with [bag "carry-on" 5 50 30 20]) "Premium").
  - apply init_standard.
  - reflexivity.
Defined.

(** ** C9: the in-place sort of the caller's list *)

(** C9.  On a known class the call returns, and the caller's list then holds
    the stable ascending sort by weight of what it held: the same items,
    permuted, in ascending order of weight, whatever the fees and the moves
    of the call. *)
Theorem checked_list_sorted_in_place :
  forall self tc l ptype cap s entry,
    lookup tc (classes self) = Some entry ->
    exists res final s',
      validate_checked_baggage self tc l ptype cap s
      = Returns (res, final) s'
      /\ final = sort_weight_asc (items s) l
      /\ Permutation l final
      /\ StronglySorted
           (fun a b => weight (items s' a) <= weight (items s' b)) final.
Proof.
  intros self tc l ptype cap s entry Hl.
  destruct (validate_checked_baggage_returns self tc l ptype cap s entry Hl)
    as (s' & Hrun & Hits & _).
  cbn zeta in Hrun, Hits.
  set (child := lookup ptype (child_allowances self)) in *.
  set (pol := age_overlay (dicts s (checked entry)) child) in *.
  destruct (checked_passes_spec (excess_fees self) (carry_on entry) pol
              (overlay_notes child) cap l (items s)) as (Hsorted & _).
  eexists _, _, s'. split; [exact Hrun|]. rewrite Hsorted.
  split; [reflexivity|]. split; [apply sort_weight_asc_perm|].
  eapply StronglySorted_weaken; [|apply (sort_weight_asc_sorted (items s) l)].
  intros a b Hab. rewrite Hits.
  pose proof (checked_passes_measures (excess_fees self) (carry_on entry) pol
                (overlay_notes child) cap l (items s)) as Hm.
  destruct (Hm a) as [<- _]. destruct (Hm b) as [<- _]. exact Hab.
Qed.

Lemma checked_list_sorted_in_place_witness :
  exists res final s',
    validate_checked_baggage policy "Business" [0; 1]%nat "adult" 0
      (state_with [bag "checked" 20 60 40 25; bag "checked" 10 60 40 25])
    = Returns (res, final) s'
    /\ final = sort_weight_asc
                 (items (state_with [bag "checked" 20 60 40 25;
                                     bag "checked" 10 60 40 25]))
                 [0; 1]%nat
    /\ Permutation [0; 1]%nat final
    /\ StronglySorted
         (fun a b => weight (items s' a) <= weight (items s' b)) final.
Proof.
  apply (checked_list_sorted_in_place policy "Business" [0; 1]%nat "adult" 0
           (state_with [bag "checked" 20 60 40 25; bag "checked" 10 60 40 25])
           (mkClass (mkCarryOn 2 12 [55; 40; 23]) 1%nat)).
  reflexivity.
Defined.

(** ** C7: the age overlay is written to a copy *)

Lemma py_max_spec (a b : Q) :
  a <= py_max a b /\ b <= py_max a b /\ (py_max a b = a \/ py_max a b = b).
Proof.
  unfold py_max. destruct (Qgt_bool b a) eqn:E.
  - apply Qgt_bool_true in E. repeat split.
    + apply Qlt_le_weak, E.
    + apply Qle_refl.
    + right; reflexivity.
  - apply Qgt_bool_false in E. repeat split.
    + apply Qle_refl.
    + exact E.
    + left; reflexivity.
Qed.

(** C7.  For a class of the table and a child or an infant, the call
    allocates a copy of the class's [checked] dictionary, and the overlay is
    written to the copy: its allowance is the class allowance plus the age
    allowance, its weight limit is the larger of the class limit and the age
    override, and the result is that of the passes run against it.  Every
    dictionary that existed before the call is unchanged, so [self.classes]
    reads as before and is still the table of [__init__]. *)
Theorem age_overlay_on_copy :
  forall self s tc ptype l cap,
    standard_policy self s ->
    str_in tc ["Economy"; "Business"; "First"] = true ->
    str_in ptype ["child"; "infant"] = true ->
    exists entry child res final s',
      lookup tc (classes self) = Some entry
      /\ lookup ptype (child_allowances self) = Some child
      /\ validate_checked_baggage self tc l ptype cap s
         = Returns (res, final) s'
      /\ checked entry <> next_dict s
      /\ allowance (dicts s' (next_dict s))
         = (allowance (dicts s (checked entry)) + allowance child)%Z
      /\ weight_limit (dicts s (checked entry))
         <= weight_limit (dicts s' (next_dict s))
      /\ weight_limit child <= weight_limit (dicts s' (next_dict s))
      /\ (weight_limit (dicts s' (next_dict s))
          = weight_limit (dicts s (checked entry))
          \/ weight_limit (dicts s' (next_dict s)) = weight_limit child)
      /\ size_limit (dicts s' (next_dict s))
         = size_limit (dicts s (checked entry))
      /\ (res, final)
         = (let run := checked_passes (excess_fees self) (carry_on entry)
                         (dicts s' (next_dict s))
                         [Allowance_enfant (allowance child)] cap l (items s)
            in (snd (fst run), snd run))
      /\ (forall a, (a < next_dict s)%nat -> dicts s' a = dicts s a)
      /\ classes_view self s' = classes_view self s
      /\ standard_policy self s'.
Proof.
  intros self s tc ptype l cap Hstd Htc Hp.
  destruct (standard_classes tc Htc) as (co & cp & Ht & _).
  destruct (standard_lookup self s tc co cp Hstd Ht)
    as (entry & Hl & Hco & Hcp & Halloc).
  assert (Hchild : exists child,
             lookup ptype (child_allowances self) = Some child).
  { destruct Hstd as (_ & _ & -> & _). cbn in *.
    destruct (String.eqb ptype "child"); [eexists; reflexivity|].
    destruct (String.eqb ptype "infant"); [eexists; reflexivity|].
    discriminate. }
  destruct Hchild as (child & Hchild).
  destruct (validate_checked_baggage_returns self tc l ptype cap s entry Hl)
    as (s' & Hrun & Hits & Hnext & Hcopy & Hframe).
  cbn zeta in Hrun, Hits, Hcopy. rewrite Hchild in Hrun, Hits, Hcopy.
  cbn [age_overlay overlay_notes] in Hrun, Hits, Hcopy.
  assert (Hview : classes_view self s' = classes_view self s).
  { unfold classes_view. apply map_ext_in. intros [k e] Hin. cbn.
    rewrite Hframe; [reflexivity|].
    destruct Hstd as (Ha & _). unfold allocated in Ha.
    rewrite Forall_forall in Ha. specialize (Ha _ Hin). cbn in Ha. lia. }
  exists entry, child. eexists _, _, s'.
  split; [exact Hl|]. split; [exact Hchild|]. split; [exact Hrun|].
  split; [lia|].
  rewrite Hcopy. cbn [allowance weight_limit size_limit].
  destruct (py_max_spec (weight_limit (dicts s (checked entry)))
              (weight_limit child)) as (H1 & H2 & H3).
  repeat (split; [first [reflexivity | assumption]|]).
  split; [intros a Ha; apply Hframe; lia|].
  split; [exact Hview|].
  destruct Hstd as (Ha & Hv & Hc & Hf). repeat split; try assumption.
  - unfold allocated in *. eapply Forall_impl; [|exact Ha].
    intros kv Hkv. cbn in Hkv |- *. lia.
  - rewrite Hview. exact Hv.
Qed.

Lemma age_overlay_on_copy_witness :
  exists entry child res final s',
    let s := state_with [bag "checked" 20 60 40 25] in
    lookup "Economy" (classes policy) = Some entry
    /\ lookup "infant" (child_allowances policy) = Some child
    /\ validate_checked_baggage policy "Economy" [0%nat] "infant" 0 s
       = Returns (res, final) s'
    /\ checked entry <> next_dict s
    /\ allowance (dicts s' (next_dict s))
       = (allowance (dicts s (checked entry)) + allowance child)%Z
    /\ weight_limit (dicts s (checked entry))
       <= weight_limit (dicts s' (next_dict s))
    /\ weight_limit child <= weight_limit (dicts s' (next_dict s))
    /\ (weight_limit (dicts s' (next_dict s))
        = weight_limit (dicts s (checked entry))
        \/ weight_limit (dicts s' (next_dict s)) = weight_limit child)
    /\ size_limit (dicts s' (next_dict s))
       = size_limit (dicts s (checked entry))
    /\ (res, final)
       = (let run := checked_passes (excess_fees policy) (carry_on entry)
                       (dicts s' (next_dict s))
                       [Allowance_enfant (allowance child)] 0 [0%nat] (items s)
          in (snd (fst run), snd run))
    /\ (forall a, (a < next_dict s)%nat -> dicts s' a = dicts s a)
    /\ classes_view policy s' = classes_view policy s
    /\ standard_policy policy s'.
Proof.
  apply (age_overlay_on_copy policy (state_with [bag "checked" 20 60 40 25])
           "Economy" "infant" [0%nat] 0).
  - apply init_standard.
  - reflexivity.
  - reflexivity.
Defined.

(** ** C8: the dictionary round trip *)

Lemma float_same_refl a : float_same a a = true.
Proof.
  destruct a as [q|n|i]; cbn.
  - apply Qeq_bool_iff, Qeq_refl.
  - destruct n; reflexivity.
  - apply Nat.eqb_refl.
Qed.




(** A weight is within the tolerance of itself exactly when it is finite. *)
Lemma weight_close_to_itself w :
  float_lt (float_abs (float_sub w w)) (Finite 0.01) = true
  <-> exists q, w = Finite q.
Proof.
  destruct w as [q|n|i].
  - cbn [float_sub float_abs float_lt].
    split; [intros _; eexists; reflexivity|]. intros _.
    apply Qlt_bool_true.
    assert (H0 : q - q == 0) by ring.
    rewrite H0. reflexivity.
  - destruct n; cbn; (split; [discriminate | intros [q H]; discriminate]).
  - cbn. split; [discriminate | intros [q H]; discriminate].
Qed.


Lemma check_length_returns name v f :
  check_length name v = inr f ->
  v = Some (Num f) /\ float_lt f (Finite 0) = false.
Proof.
  unfold check_length. destruct v as [[g|s]|]; try discriminate.
  destruct (float_lt g (Finite 0)) eqn:E; [discriminate|].
  intros H. injection H as <-. split; [reflexivity | exact E].
Qed.

(** What the constructor returns, and when. *)
Lemma Luggage_init_returns st e sp c w dm x :
  Luggage_init st e sp c w dm = inr x ->
  str_in st valid_storage_types = true
  /\ float_lt w (Finite 0) = false
  /\ o_storage x = st /\ o_excess x = e /\ o_special x = sp
  /\ o_compliance x = c /\ o_weight x = w
  /\ float_lt (d_height (o_dim x)) (Finite 0) = false
  /\ float_lt (d_width (o_dim x)) (Finite 0) = false
  /\ float_lt (d_depth (o_dim x)) (Finite 0) = false
  /\ str_in (d_unit (o_dim x)) valid_units = true
  /\ match dm with
     | None => o_dim x = mkPyDim (Finite 0) (Finite 0) (Finite 0) "cm" []
     | Some d =>
         a_height d = Some (Num (d_height (o_dim x)))
         /\ a_width d = Some (Num (d_width (o_dim x)))
         /\ a_depth d = Some (Num (d_depth (o_dim x)))
         /\ d_unit (o_dim x) = get_default (a_unit d) "cm"
         /\ d_others (o_dim x) = a_others d
     end.
Proof.
  intros H. unfold Luggage_init in H.
  destruct (str_in st valid_storage_types) eqn:Hst; [|discriminate].
  cbn [negb] in H.
  destruct (float_lt w (Finite 0)) eqn:Hw; [discriminate|].
  destruct dm as [d|].
  - destruct (check_length "height" (a_height d)) as [?|h] eqn:Eh;
      [discriminate|].
    destruct (check_length "width" (a_width d)) as [?|wd] eqn:Ew;
      [discriminate|].
    destruct (check_length "depth" (a_depth d)) as [?|dp] eqn:Ed;
      [discriminate|].
    apply check_length_returns in Eh, Ew, Ed.
    destruct Eh as [Eh Hh], Ew as [Ew Hwd], Ed as [Ed Hdp].
    destruct (a_unit d) as [u|] eqn:Hu.
    + destruct (str_in u valid_units) eqn:Hv; [|discriminate].
      cbn [negb] in H. injection H as <-.
      cbn. repeat split; assumption.
    + injection H as <-. cbn. repeat split; assumption.
  - injection H as <-. cbn. repeat split; assumption.
Qed.

(** The constructor accepts again what it returned, with any other keys. *)
Lemma Luggage_init_accepts (x : PyLuggage) (others : list (string * value)) :
  str_in (o_storage x) valid_storage_types = true ->
  float_lt (o_weight x) (Finite 0) = false ->
  float_lt (d_height (o_dim x)) (Finite 0) = false ->
  float_lt (d_width (o_dim x)) (Finite 0) = false ->
  float_lt (d_depth (o_dim x)) (Finite 0) = false ->
  str_in (d_unit (o_dim x)) valid_units = true ->
  Luggage_init (o_storage x) (o_excess x) (o_special x) (o_compliance x)
    (o_weight x)
    (Some (mkDimArg (Some (Num (d_height (o_dim x))))
             (Some (Num (d_width (o_dim x))))
             (Some (Num (d_depth (o_dim x))))
             (Some (d_unit (o_dim x))) others))
  = inr (mkPyLuggage (o_storage x) (o_excess x) (o_special x)
           (o_compliance x) (o_weight x)
           (mkPyDim (d_height (o_dim x)) (d_width (o_dim x))
              (d_depth (o_dim x)) (d_unit (o_dim x)) others)).
Proof.
  intros Hst Hw Hh Hwd Hd Hu.
  unfold Luggage_init, check_length.
  cbn [a_height a_width a_depth a_unit a_others].
  rewrite Hst, Hw, Hh, Hwd, Hd, Hu. reflexivity.
Qed.

(** The round trip of an object that the constructor returned: the same
    object without the keys of [dim] beyond the four. *)
Lemma from_dict_to_dict st e sp c w dm x :
  Luggage_init st e sp c w dm = inr x ->
  from_dict (py_to_dict x)
  = inr (mkPyLuggage (o_storage x) (o_excess x) (o_special x)
           (o_compliance x) (o_weight x)
           (mkPyDim (d_height (o_dim x)) (d_width (o_dim x))
              (d_depth (o_dim x)) (d_unit (o_dim x)) [])).
Proof.
  intros H.
  destruct (Luggage_init_returns _ _ _ _ _ _ _ H)
    as (Hst & Hw & E1 & _ & _ & _ & E5 & Hh & Hwd & Hd & Hu & _).
  rewrite <- E1 in Hst. rewrite <- E5 in Hw.
  unfold from_dict, py_to_dict.
  cbn [p_storage p_weight p_height p_width p_depth p_excess p_special
       p_compliance p_unit get_default].
  rewrite (Luggage_init_accepts x [] Hst Hw Hh Hwd Hd Hu). reflexivity.
Qed.




(** ** The test of the cabin-reclaim pass *)



Lemma reclaim_pass_count co cap l its :
  (0 <= cap)%Z ->
  Z.of_nat (List.length (carryon_candidates (reclaim_pass co cap l its)))
  = Z.min cap (Z.of_nat (count_fit co its l)).
Proof.
  intros Hcap.
  destruct (reclaim_fold_counts co l (mkReclaim its cap [] [])) as (H & _).
  cbn [carryon_candidates carry_on_capacity r_items List.length] in H.
  unfold reclaim_pass. rewrite H. lia.
Qed.

(** ** C5: one more overweight item *)

















(** * Further properties of the code *)

(** ** luggage.py: the constructor *)

Lemma float_lt_zero_false a :
  float_lt a (Finite 0) = false <-> not_negative a.
Proof.
  destruct a as [q|n|i]; cbn [float_lt not_negative].
  - apply Qlt_bool_false.
  - reflexivity.
  - split; [intros _; exact I | reflexivity].
Qed.

Lemma Luggage_init_passes st e sp c w dm x :
  Luggage_init st e sp c w dm = inr x -> passes_checks x.
Proof.
  intros H.
  destruct (Luggage_init_returns _ _ _ _ _ _ _ H)
    as (Hst & Hw & E1 & _ & _ & _ & E5 & Hh & Hwd & Hd & Hu & _).
  unfold passes_checks. rewrite E1, E5.
  repeat split; try assumption; apply float_lt_zero_false; assumption.
Qed.

Lemma check_length_raises name v err :
  check_length name v = inl err -> exists m, err = ValueError m.
Proof.
  unfold check_length. destruct v as [[g|s]|].
  - destruct (float_lt g (Finite 0)); [|discriminate].
    intros H. injection H as <-. eexists; reflexivity.
  - intros H. injection H as <-. eexists; reflexivity.
  - intros H. injection H as <-. eexists; reflexivity.
Qed.

Lemma Luggage_init_raises_ValueError st e sp c w dm err :
  Luggage_init st e sp c w dm = inl err -> exists m, err = ValueError m.
Proof.
  unfold Luggage_init. intros H.
  destruct (negb (str_in st valid_storage_types));
    [injection H as <-; eexists; reflexivity|].
  destruct (float_lt w (Finite 0));
    [injection H as <-; eexists; reflexivity|].
  destruct dm as [d|]; [|discriminate].
  destruct (check_length "height" (a_height d)) as [e1|h] eqn:Eh;
    [injection H as <-; apply (check_length_raises _ _ _ Eh)|].
  destruct (check_length "width" (a_width d)) as [e2|wd] eqn:Ew;
    [injection H as <-; apply (check_length_raises _ _ _ Ew)|].
  destruct (check_length "depth" (a_depth d)) as [e3|dp] eqn:Ed;
    [injection H as <-; apply (check_length_raises _ _ _ Ed)|].
  destruct (a_unit d) as [u|]; [|discriminate].
  destruct (negb (str_in u valid_units)); [|discriminate].
  injection H as <-. eexists; reflexivity.
Qed.

(** The two models of an item agree: an item of the engine that satisfies
    the checks is returned by the constructor, and its dictionary is the one
    of the engine. *)
Lemma Luggage_init_as_object (x : Luggage) :
  valid_luggage x ->
  Luggage_init (storage x) (excess x) (special x) (compliance x)
    (Finite (weight x))
    (Some (mkDimArg (Some (Num (Finite (height (dim x)))))
             (Some (Num (Finite (width (dim x)))))
             (Some (Num (Finite (depth (dim x)))))
             (Some (dunit (dim x))) []))
  = inr (as_object x).
Proof.
  intros (Hst & Hw & Hh & Hwd & Hd & Hu).
  apply (Luggage_init_accepts (as_object x) []); cbn; try assumption;
    apply Qlt_bool_false; assumption.
Qed.

Lemma to_dict_as_object (x : Luggage) :
  py_to_dict (as_object x) = as_flat (to_dict x).
Proof. reflexivity. Qed.

(** X1.  An object that [Luggage.__init__] returns carries the arguments it
    was given, has a recognised storage and a recognised unit (cm when the
    dictionary has none or is absent), and a weight and three lengths that
    passed the test [< 0]: each is a finite number that is not negative,
    plus infinity, or a NaN.  On a weight that is a number the constructor
    raises nothing but [ValueError]; it rejects an unknown storage and a
    weight below 0, and it lets a weight of plus infinity or NaN through. *)
Theorem Luggage_init_establishes_invariant :
  forall st e sp c w dm,
    (forall x,
       Luggage_init st e sp c w dm = inr x ->
       passes_checks x
       /\ o_storage x = st /\ o_excess x = e /\ o_special x = sp
       /\ o_compliance x = c /\ o_weight x = w
       /\ match dm with
          | None =>
              o_dim x = mkPyDim (Finite 0) (Finite 0) (Finite 0) "cm" []
          | Some d =>
              a_height d = Some (Num (d_height (o_dim x)))
              /\ a_width d = Some (Num (d_width (o_dim x)))
              /\ a_depth d = Some (Num (d_depth (o_dim x)))
              /\ d_unit (o_dim x) = get_default (a_unit d) "cm"
              /\ d_others (o_dim x) = a_others d
          end)
    /\ (forall err,
          Luggage_init st e sp c w dm = inl err -> exists m, err = ValueError m)
    /\ (str_in st valid_storage_types = false \/ float_lt w (Finite 0) = true ->
        exists m, Luggage_init st e sp c w dm = inl (ValueError m))
    /\ (str_in st valid_storage_types = true ->
        w = Infinity false \/ (exists i, w = NaN i) ->
        Luggage_init st e sp c w None
        = inr (mkPyLuggage st e sp c w
                 (mkPyDim (Finite 0) (Finite 0) (Finite 0) "cm" []))).
Proof.
  intros st e sp c w dm. split; [|split; [|split]].
  - intros x H. split; [apply (Luggage_init_passes _ _ _ _ _ _ _ H)|].
    destruct (Luggage_init_returns _ _ _ _ _ _ _ H)
      as (_ & _ & E1 & E2 & E3 & E4 & E5 & _ & _ & _ & _ & Hdm).
    repeat (split; [assumption|]). exact Hdm.
  - intros err H. apply (Luggage_init_raises_ValueError _ _ _ _ _ _ _ H).
  - intros H. unfold Luggage_init.
    destruct (str_in st valid_storage_types); cbn [negb];
      [|eexists; reflexivity].
    destruct H as [H|H]; [discriminate|]. rewrite H. eexists; reflexivity.
  - intros Hst Hw. unfold Luggage_init. rewrite Hst. cbn [negb].
    destruct Hw as [->|[i ->]]; reflexivity.
Qed.

Lemma Luggage_init_establishes_invariant_witness :
  passes_checks
    (mkPyLuggage "checked" false false false (Finite 20)
       (mkPyDim (Finite 60) (Finite 40) (Finite 25) "cm" []))
  /\ Luggage_init "checked" false false false (NaN 1) None
     = inr (mkPyLuggage "checked" false false false (NaN 1)
              (mkPyDim (Finite 0) (Finite 0) (Finite 0) "cm" [])).
Proof.
  split.
  - apply (proj1 (Luggage_init_establishes_invariant
                    "checked" false false false (Finite 20)
                    (Some (mkDimArg (Some (Num (Finite 60)))
                             (Some (Num (Finite 40)))
                             (Some (Num (Finite 25))) None [])))
                 (mkPyLuggage "checked" false false false (Finite 20)
                    (mkPyDim (Finite 60) (Finite 40) (Finite 25) "cm" []))
                 eq_refl).
  - apply (proj2 (proj2 (proj2 (Luggage_init_establishes_invariant
                                  "checked" false false false (NaN 1) None)))).
    + reflexivity.
    + right. exists 1%nat. reflexivity.
Defined.

(** ** luggage.py: from_dict *)

(** X2.  On a dictionary with no key beyond the nine of [to_dict] and
    whose values have the types the constructor is annotated with (a string
    for storage and unit, booleans for the flags, numbers that [float()]
    keeps for the weight and the lengths), [from_dict] raises nothing but
    [ValueError]: a missing [storage], [weight], [height], [width] or
    [depth] key and every rejection by the constructor are re-raised as
    [ValueError].  When it returns an object, the object passes the checks
    of the constructor, its [to_dict] is the input with the defaults filled
    in ([False] for an absent flag, cm for an absent unit), and [from_dict]
    of that dictionary returns the same object again. *)
Theorem from_dict_behaviour :
  forall d,
    keeps_entries d ->
    (forall e, from_dict d = inl e -> exists m, e = ValueError m)
    /\ (p_storage d = None \/ p_weight d = None \/ p_height d = None
        \/ p_width d = None \/ p_depth d = None ->
        exists m, from_dict d = inl (ValueError m))
    /\ (forall x,
          from_dict d = inr x ->
          passes_checks x
          /\ py_to_dict x = with_defaults d
          /\ from_dict (py_to_dict x) = inr x).
Proof.
  intros d _. split; [|split].
  - intros e H. unfold from_dict in H.
    destruct (p_storage d); [|injection H as <-; eexists; reflexivity].
    destruct (p_weight d); [|injection H as <-; eexists; reflexivity].
    destruct (p_height d); [|injection H as <-; eexists; reflexivity].
    destruct (p_width d); [|injection H as <-; eexists; reflexivity].
    destruct (p_depth d); [|injection H as <-; eexists; reflexivity].
    destruct (Luggage_init _ _ _ _ _ _); [|discriminate].
    injection H as <-. eexists; reflexivity.
  - intros H. unfold from_dict.
    destruct (p_storage d); [|eexists; reflexivity].
    destruct (p_weight d); [|eexists; reflexivity].
    destruct (p_height d); [|eexists; reflexivity].
    destruct (p_width d); [|eexists; reflexivity].
    destruct (p_depth d); [|eexists; reflexivity].
    exfalso. destruct H as [H|[H|[H|[H|H]]]]; discriminate.
  - intros x H. unfold from_dict in H.
    destruct (p_storage d) as [st|] eqn:E1; [|discriminate].
    destruct (p_weight d) as [w|] eqn:E2; [|discriminate].
    destruct (p_height d) as [h|] eqn:E3; [|discriminate].
    destruct (p_width d) as [wd|] eqn:E4; [|discriminate].
    destruct (p_depth d) as [dp|] eqn:E5; [|discriminate].
    destruct (Luggage_init _ _ _ _ _ _) as [e|y] eqn:E6; [discriminate|].
    injection H as <-.
    destruct (Luggage_init_returns _ _ _ _ _ _ _ E6)
      as (_ & _ & H1 & H2 & H3 & H4 & H5 & _ & _ & _ & _
          & H6 & H7 & H8 & H9 & H10).
    cbn [a_height a_width a_depth a_unit a_others get_default]
      in H6, H7, H8, H9, H10.
    injection H6 as H6. injection H7 as H7. injection H8 as H8.
    split; [apply (Luggage_init_passes _ _ _ _ _ _ _ E6)|]. split.
    + unfold py_to_dict, with_defaults.
      rewrite H1, H2, H3, H4, H5, <- H6, <- H7, <- H8, H9, E1, E2, E3, E4, E5.
      reflexivity.
    + rewrite (from_dict_to_dict _ _ _ _ _ _ _ E6). rewrite <- H10.
      destruct y as [? ? ? ? ? []]. reflexivity.
Qed.

Lemma from_dict_behaviour_witness :
  py_to_dict
    (mkPyLuggage "checked" false false false (Finite 20)
       (mkPyDim (Finite 70) (Finite 50) (Finite 30) "cm" []))
  = with_defaults
      (mkPyFlat (Some "checked") None None None (Some (Finite 20))
         (Some (Finite 70)) (Some (Finite 50)) (Some (Finite 30)) None)
  /\ exists m,
       from_dict (mkPyFlat (Some "checked") None None None None
                    (Some (Finite 70)) (Some (Finite 50)) (Some (Finite 30))
                    None)
       = inl (ValueError m).
Proof.
  assert (K : forall w : option pyfloat,
             (w = None \/ w = Some (Finite 20)) ->
             keeps_entries
               (mkPyFlat (Some "checked") None None None w
                  (Some (Finite 70)) (Some (Finite 50)) (Some (Finite 30))
                  None)).
  { intros w Hw f Hf. cbn in Hf.
    destruct Hf as [Hf|[Hf|[Hf|[Hf|[]]]]];
      try (injection Hf as <-; vm_compute; reflexivity).
    destruct Hw as [Hw|Hw]; rewrite Hw in Hf; [discriminate|].
    injection Hf as <-. vm_compute. reflexivity. }
  split.
  - apply (proj2 (proj2 (from_dict_behaviour
                           (mkPyFlat (Some "checked") None None None
                              (Some (Finite 20)) (Some (Finite 70))
                              (Some (Finite 50)) (Some (Finite 30)) None)
                           (K _ (or_intror eq_refl))))
                 (mkPyLuggage "checked" false false false (Finite 20)
                    (mkPyDim (Finite 70) (Finite 50) (Finite 30) "cm" []))
                 eq_refl).
  - apply (proj1 (proj2 (from_dict_behaviour
                           (mkPyFlat (Some "checked") None None None None
                              (Some (Finite 70)) (Some (Finite 50))
                              (Some (Finite 30)) None)
                           (K _ (or_introl eq_refl))))).
    right. left. reflexivity.
Defined.

(** ** luggage.py: units, volume, oversize *)













(** ** luggage.py: __eq__ *)

Lemma lookup_key {V} (k : string) (o : list (string * V)) :
  In k (map fst o) -> exists v, lookup k o = Some v.
Proof.
  induction o as [|[k' v'] o IH]; cbn [map fst In lookup]; [intros []|].
  intros [<-|H].
  - rewrite String.eqb_refl. eexists; reflexivity.
  - destruct (String.eqb k k'); [eexists; reflexivity | apply IH, H].
Qed.

Lemma value_same_refl v : value_same v v = true.
Proof. destruct v; cbn; [apply float_same_refl | apply String.eqb_refl]. Qed.

Lemma others_eq_refl o : others_eq o o = true.
Proof.
  unfold others_eq. apply forallb_forall. intros k Hk.
  apply in_app_or in Hk.
  assert (H : In k (map fst o)) by tauto.
  destruct (lookup_key k o H) as [v ->]. apply value_same_refl.
Qed.

Lemma float_same_sym a b : float_same a b = float_same b a.
Proof.
  destruct a as [p|m|i], b as [q|n|j]; cbn; try reflexivity.
  - destruct (Qeq_bool p q) eqn:E.
    + symmetry. apply Qeq_bool_iff. symmetry. apply Qeq_bool_iff, E.
    + destruct (Qeq_bool q p) eqn:E'; [|reflexivity].
      apply Qeq_bool_iff in E'. symmetry in E'.
      apply Qeq_bool_iff in E'. congruence.
  - destruct m, n; reflexivity.
  - apply Nat.eqb_sym.
Qed.

Lemma value_same_sym a b : value_same a b = value_same b a.
Proof.
  destruct a, b; cbn; try reflexivity;
    [apply float_same_sym | apply String.eqb_sym].
Qed.

Lemma forallb_same {A} (f g : A -> bool) (l : list A) :
  (forall a, f a = g a) -> forallb f l = forallb g l.
Proof.
  intros H. induction l as [|a l IH]; cbn [forallb]; [reflexivity|].
  rewrite H, IH. reflexivity.
Qed.

Lemma others_eq_sym o1 o2 : others_eq o1 o2 = others_eq o2 o1.
Proof.
  unfold others_eq. rewrite !forallb_app, andb_comm.
  f_equal; apply forallb_same; intros k;
    destruct (lookup k o1), (lookup k o2); try reflexivity;
    apply value_same_sym.
Qed.

Lemma weights_close_sym a b :
  float_lt (float_abs (float_sub a b)) (Finite 0.01)
  = float_lt (float_abs (float_sub b a)) (Finite 0.01).
Proof.
  destruct a as [p|m|i], b as [q|n|j]; try reflexivity.
  - cbn [float_sub float_abs]. rewrite (Qabs_Qminus p q). reflexivity.
  - destruct m, n; reflexivity.
Qed.

(** X6.  [__eq__] is symmetric.  An item is equal to itself exactly when
    its weight is finite: with a weight of infinity or NaN, [x == x] is
    [False].  The 0.01 tolerance on the weight makes [__eq__] not
    transitive: three bags that differ only by weights 0, 0.006 and 0.012
    are equal two by two in a chain and the ends are not equal. *)
Theorem Luggage_eq_not_an_equivalence :
  (forall x, Luggage_eq x x = true <-> exists q, o_weight x = Finite q)
  /\ (forall x y, Luggage_eq x y = Luggage_eq y x)
  /\ (exists x y z,
        Luggage_eq x y = true /\ Luggage_eq y z = true
        /\ Luggage_eq x z = false).
Proof.
  split; [|split].
  - intros x. unfold Luggage_eq, dim_eq.
    rewrite String.eqb_refl, !float_same_refl, String.eqb_refl,
      others_eq_refl, !Bool.eqb_reflx.
    cbn [andb]. rewrite !andb_true_r. apply weight_close_to_itself.
  - intros x y. unfold Luggage_eq, dim_eq.
    rewrite (weights_close_sym (o_weight x) (o_weight y)).
    rewrite (String.eqb_sym (o_storage x)),
      (String.eqb_sym (d_unit (o_dim x))).
    assert (Hb : forall a b, Bool.eqb a b = Bool.eqb b a)
      by (intros [] []; reflexivity).
    rewrite (Hb (o_excess x)), (Hb (o_special x)), (Hb (o_compliance x)).
    rewrite (float_same_sym (d_height (o_dim x))),
      (float_same_sym (d_width (o_dim x))),
      (float_same_sym (d_depth (o_dim x))),
      (others_eq_sym (d_others (o_dim x))).
    reflexivity.
  - exists (as_object (bag "checked" 0 60 40 25)),
      (as_object (bag "checked" 0.006 60 40 25)),
      (as_object (bag "checked" 0.012 60 40 25)).
    repeat split; vm_compute; reflexivity.
Qed.

(** ** Frames: which objects and which fields a pass may write *)

Section Frames.
Variable keep : Luggage -> Luggage -> Prop.
Hypothesis keep_refl : forall x, keep x x.
Hypothesis keep_trans : forall x y z, keep x y -> keep y z -> keep x z.

Lemma framed_refl l its : framed keep l its its.
Proof. intros a. split; [apply keep_refl | reflexivity]. Qed.

Lemma framed_trans l its1 its2 its3 :
  framed keep l its1 its2 -> framed keep l its2 its3 ->
  framed keep l its1 its3.
Proof.
  intros H1 H2 a. destruct (H1 a) as [K1 F1], (H2 a) as [K2 F2]. split.
  - eapply keep_trans; eassumption.
  - intros Hn. rewrite F2, F1 by exact Hn. reflexivity.
Qed.

Lemma framed_weaken l l' its its' :
  incl l l' -> framed keep l its its' -> framed keep l' its its'.
Proof.
  intros Hi H a. destruct (H a) as [K F]. split; [exact K|].
  intros Hn. apply F. intros Hin. apply Hn, Hi, Hin.
Qed.

Lemma framed_assign (f : Luggage -> Luggage) l a its :
  In a l -> (forall x, keep x (f x)) -> framed keep l its (assign f a its).
Proof.
  intros Hin Hf b. destruct (Nat.eq_dec b a) as [->|Hne].
  - rewrite assign_same. split; [apply Hf|]. intros Hn. contradiction.
  - rewrite assign_other by exact Hne. split; [apply keep_refl | reflexivity].
Qed.

(** A loop whose body writes the object it visits. *)
Lemma framed_fold (f : (addr -> Luggage) -> addr -> addr -> Luggage) l its :
  (forall m a, framed keep [a] m (f m a)) ->
  framed keep l its (fold_left f l its).
Proof.
  intros Hf. revert its. induction l as [|a l IH]; cbn [fold_left]; intros its.
  - apply framed_refl.
  - eapply framed_trans.
    + eapply framed_weaken; [|apply Hf]. intros b [<-|[]]. left; reflexivity.
    + eapply framed_weaken; [|apply IH]. intros b Hb. right; exact Hb.
Qed.
End Frames.

Lemma keeps_identity_refl x : keeps_identity x x.
Proof. repeat split. Qed.

Lemma keeps_identity_trans x y z :
  keeps_identity x y -> keeps_identity y z -> keeps_identity x z.
Proof.
  intros (A1 & A2 & A3 & A4) (B1 & B2 & B3 & B4).
  repeat split; congruence.
Qed.

Lemma same_measure_refl x : same_measure x x.
Proof. split; reflexivity. Qed.

Lemma same_measure_trans x y z :
  same_measure x y -> same_measure y z -> same_measure x z.
Proof. intros [A1 A2] [B1 B2]. split; congruence. Qed.

(** ** validate_carry_on as a whole *)

Lemma carry_step_eq co its cands compl a :
  carry_step co (mkCarryAcc its cands compl) a
  = if cabin_compliant co (its a) then
      mkCarryAcc (assign (set_compliance true) a its) cands (compl ++ [a])
    else
      mkCarryAcc (assign (set_compliance false) a its) (cands ++ [a]) compl.
Proof.
  unfold carry_step, cabin_compliant. cbn [c_items checked_candidates
    compliant_items].
  destruct (all_zip_le (get_dimensions_list_cm (its a)) (co_size_limit co));
    destruct (Qle_bool (weight (its a)) (co_weight_limit co)); reflexivity.
Qed.

Lemma cabin_compliant_measure co x y :
  same_measure x y -> cabin_compliant co x = cabin_compliant co y.
Proof.
  intros H. unfold cabin_compliant.
  rewrite (same_measure_dims _ _ H). destruct H as [-> _]. reflexivity.
Qed.

(** The first loop: the two lists are the input filtered by the test, and
    each visited object has [compliance] set to the answer of the test. *)
Lemma carry_fold_spec co l its cands compl :
  let acc := fold_left (carry_step co) l (mkCarryAcc its cands compl) in
  checked_candidates acc
  = cands ++ filter (fun a => negb (cabin_compliant co (its a))) l
  /\ compliant_items acc
     = compl ++ filter (fun a => cabin_compliant co (its a)) l
  /\ framed keeps_identity l its (c_items acc)
  /\ (forall a, In a l ->
                compliance (c_items acc a) = cabin_compliant co (its a))
  /\ (forall a, excess (c_items acc a) = excess (its a)).
Proof.
  revert its cands compl.
  induction l as [|b l IH]; intros its cands compl; cbn zeta.
  - cbn [fold_left filter checked_candidates compliant_items c_items].
    rewrite !app_nil_r. repeat split; try reflexivity.
    intros a [].
  - cbn [fold_left]. rewrite carry_step_eq.
    assert (Hext : forall (v : bool) (p : Luggage -> bool),
               (forall x y, same_measure x y -> p x = p y) ->
               filter (fun a => p (assign (set_compliance v) b its a)) l
               = filter (fun a => p (its a)) l).
    { intros v p Hp. apply filter_ext. intros a. apply Hp.
      destruct (Nat.eq_dec a b) as [->|Hne].
      - rewrite assign_same. split; reflexivity.
      - rewrite assign_other by exact Hne. split; reflexivity. }
    assert (Hfr : forall v : bool,
               framed keeps_identity (b :: l) its
                 (assign (set_compliance v) b its)).
    { intros v. apply framed_assign;
        [apply keeps_identity_refl | left; reflexivity | intros x; repeat split]. }
    destruct (cabin_compliant co (its b)) eqn:Eb.
    + specialize (IH (assign (set_compliance true) b its) cands (compl ++ [b])).
      cbn zeta in IH. destruct IH as (I1 & I2 & I3 & I4 & I5).
      rewrite I1, I2.
      rewrite (Hext true (fun x => negb (cabin_compliant co x)))
        by (intros x y Hxy; f_equal; apply cabin_compliant_measure, Hxy).
      rewrite (Hext true (cabin_compliant co))
        by (intros x y Hxy; apply cabin_compliant_measure, Hxy).
      cbn [filter]. rewrite Eb. cbn [negb]. rewrite <- app_assoc.
      split; [reflexivity|]. split; [reflexivity|]. split; [|split].
      * eapply framed_trans; [apply keeps_identity_trans | apply Hfr |].
        eapply framed_weaken; [|exact I3]. intros x Hx; right; exact Hx.
      * intros a Ha. destruct (in_dec Nat.eq_dec a l) as [Hl|Hl].
        -- rewrite (I4 a Hl). apply cabin_compliant_measure.
           destruct (Nat.eq_dec a b) as [->|Hne].
           ++ rewrite assign_same. split; reflexivity.
           ++ rewrite assign_other by exact Hne. split; reflexivity.
        -- destruct Ha as [<-|Ha]; [|contradiction].
           destruct (I3 b) as [_ F]. rewrite (F Hl), assign_same, Eb.
           reflexivity.
      * intros a. rewrite I5. destruct (Nat.eq_dec a b) as [->|Hne].
        -- rewrite assign_same. reflexivity.
        -- rewrite assign_other by exact Hne. reflexivity.
    + specialize (IH (assign (set_compliance false) b its) (cands ++ [b]) compl).
      cbn zeta in IH. destruct IH as (I1 & I2 & I3 & I4 & I5).
      rewrite I1, I2.
      rewrite (Hext false (fun x => negb (cabin_compliant co x)))
        by (intros x y Hxy; f_equal; apply cabin_compliant_measure, Hxy).
      rewrite (Hext false (cabin_compliant co))
        by (intros x y Hxy; apply cabin_compliant_measure, Hxy).
      cbn [filter]. rewrite Eb. cbn [negb]. rewrite <- app_assoc.
      split; [reflexivity|]. split; [reflexivity|]. split; [|split].
      * eapply framed_trans; [apply keeps_identity_trans | apply Hfr |].
        eapply framed_weaken; [|exact I3]. intros x Hx; right; exact Hx.
      * intros a Ha. destruct (in_dec Nat.eq_dec a l) as [Hl|Hl].
        -- rewrite (I4 a Hl). apply cabin_compliant_measure.
           destruct (Nat.eq_dec a b) as [->|Hne].
           ++ rewrite assign_same. split; reflexivity.
           ++ rewrite assign_other by exact Hne. split; reflexivity.
        -- destruct Ha as [<-|Ha]; [|contradiction].
           destruct (I3 b) as [_ F]. rewrite (F Hl), assign_same, Eb.
           reflexivity.
      * intros a. rewrite I5. destruct (Nat.eq_dec a b) as [->|Hne].
        -- rewrite assign_same. reflexivity.
        -- rewrite assign_other by exact Hne. reflexivity.
Qed.

Lemma mark_overflow_spec l its :
  framed keeps_identity l its (mark_overflow l its)
  /\ (forall a, In a l ->
                excess (mark_overflow l its a) = true
                /\ compliance (mark_overflow l its a) = false).
Proof.
  unfold mark_overflow. revert its.
  induction l as [|b l IH]; cbn [fold_left]; intros its.
  - split; [apply framed_refl, keeps_identity_refl | intros a []].
  - set (its1 := assign (set_compliance false) b
                   (assign (set_excess true) b its)).
    destruct (IH its1) as [F1 M1].
    assert (F0 : framed keeps_identity (b :: l) its its1).
    { unfold its1. eapply framed_trans; [apply keeps_identity_trans | |];
        apply framed_assign;
        try apply keeps_identity_refl; try (left; reflexivity);
        intros x; repeat split. }
    split.
    + eapply framed_trans; [apply keeps_identity_trans | exact F0 |].
      eapply framed_weaken; [|exact F1]. intros x Hx; right; exact Hx.
    + intros a Ha. destruct (in_dec Nat.eq_dec a l) as [Hl|Hl];
        [apply M1, Hl|].
      destruct Ha as [<-|Ha]; [|contradiction].
      destruct (F1 b) as [_ Fb]. rewrite (Fb Hl). unfold its1.
      rewrite !assign_same. split; reflexivity.
Qed.

Lemma StronglySorted_app_rel {A} (R : A -> A -> Prop) (l1 l2 : list A) :
  StronglySorted R (l1 ++ l2) ->
  forall a b, In a l1 -> In b l2 -> R a b.
Proof.
  induction l1 as [|x l1 IH]; cbn [app]; intros Hs a b Ha Hb.
  - destruct Ha.
  - inversion Hs as [|? ? Hs' Hall]; subst.
    destruct Ha as [<-|Ha].
    + rewrite Forall_forall in Hall. apply Hall, in_or_app. right; exact Hb.
    + apply (IH Hs' a b Ha Hb).
Qed.

Lemma sort_weight_desc_perm its l : Permutation l (sort_weight_desc its l).
Proof. apply sort_by_perm. Qed.

Lemma sort_weight_desc_sorted its l :
  StronglySorted (fun a b => weight (its b) <= weight (its a))
                 (sort_weight_desc its l).
Proof.
  eapply StronglySorted_weaken; [|apply sort_by_sorted].
  - intros a b H. apply Qle_bool_iff. exact H.
  - intros a b. apply Qle_bool_total.
  - intros a b c H1 H2. eapply Qle_bool_trans; eassumption.
Qed.

(** The two passes of [validate_carry_on] on a class whose quantity is not
    below -1: what is kept, what is moved, and the flags. *)
Lemma carry_on_passes_spec co l its :
  (0 <= quantity co + 1)%Z ->
  let acc := carry_on_passes co l its in
  exists overflow,
    checked_candidates acc
    = filter (fun a => negb (cabin_compliant co (its a))) l ++ overflow
    /\ Permutation (filter (fun a => cabin_compliant co (its a)) l)
                   (compliant_items acc ++ overflow)
    /\ (forall a b, In a (compliant_items acc) -> In b overflow ->
                    weight (its b) <= weight (its a))
    /\ (overflow <> [] ->
        Z.of_nat (List.length (compliant_items acc)) = (quantity co + 1)%Z)
    /\ (overflow = [] ->
        compliant_items acc = filter (fun a => cabin_compliant co (its a)) l)
    /\ framed keeps_identity l its (c_items acc)
    /\ (forall a, In a l -> ~ In a overflow ->
                  compliance (c_items acc a) = cabin_compliant co (its a)
                  /\ excess (c_items acc a) = excess (its a))
    /\ (forall a, In a overflow ->
                  excess (c_items acc a) = true
                  /\ compliance (c_items acc a) = false).
Proof.
  intros Hq. cbn zeta. unfold carry_on_passes.
  destruct (carry_fold_spec co l its [] []) as (S1 & S2 & S3 & S4 & S5).
  cbn zeta in S1, S2, S3, S4, S5. cbn [app] in S1, S2.
  set (acc := fold_left (carry_step co) l (mkCarryAcc its [] [])) in *.
  destruct (Z.of_nat (List.length (compliant_items acc)) >? quantity co + 1)%Z
    eqn:E.
  - apply Z.gtb_lt in E.
    set (sorted := sort_weight_desc (c_items acc) (compliant_items acc)).
    assert (Hp : Permutation (compliant_items acc) sorted)
      by apply sort_weight_desc_perm.
    assert (Hlen : List.length sorted = List.length (compliant_items acc))
      by (symmetry; apply Permutation_length, Hp).
    unfold slice_from, slice_to.
    replace (0 <=? quantity co + 1)%Z with true
      by (symmetry; apply Z.leb_le; exact Hq).
    set (n := Z.to_nat (quantity co + 1)).
    cbn [checked_candidates compliant_items c_items].
    exists (skipn n sorted).
    assert (Hin : forall a, In a (skipn n sorted) -> In a l).
    { intros a Ha.
      assert (In a sorted)
        by (rewrite <- (firstn_skipn n sorted); apply in_or_app; right;
            exact Ha).
      assert (Hc : In a (compliant_items acc))
        by (eapply Permutation_in; [symmetry; exact Hp | assumption]).
      rewrite S2 in Hc. apply filter_In in Hc. apply Hc. }
    destruct (mark_overflow_spec (skipn n sorted) (c_items acc)) as [F M].
    split; [rewrite S1; reflexivity|].
    split; [rewrite <- S2, firstn_skipn; exact Hp|].
    split.
    { intros a b Ha Hb.
      pose proof (sort_weight_desc_sorted (c_items acc) (compliant_items acc))
        as Hs. fold sorted in Hs. rewrite <- (firstn_skipn n sorted) in Hs.
      pose proof (StronglySorted_app_rel _ _ _ Hs a b Ha Hb) as Hab.
      cbn beta in Hab.
      destruct (S3 a) as [(_ & _ & Wa & _) _].
      destruct (S3 b) as [(_ & _ & Wb & _) _]. rewrite Wa, Wb. exact Hab. }
    split.
    { intros _. rewrite length_firstn, Hlen. unfold n. lia. }
    split.
    { intros Hnil. exfalso.
      assert (List.length (skipn n sorted) = 0%nat) by (rewrite Hnil; reflexivity).
      rewrite length_skipn, Hlen in H. unfold n in H. lia. }
    split.
    { eapply framed_trans; [apply keeps_identity_trans | exact S3 |].
      eapply framed_weaken; [|exact F]. exact Hin. }
    split.
    { intros a Ha Hn. destruct (F a) as [_ Fa]. rewrite (Fa Hn).
      split; [apply S4, Ha | apply S5]. }
    exact M.
  - rewrite Z.gtb_ltb in E. apply Z.ltb_ge in E.
    exists []. rewrite app_nil_r, S1, app_nil_r.
    split; [reflexivity|]. split; [rewrite S2; apply Permutation_refl|].
    split; [intros a b _ []|].
    split; [intros H; contradiction|].
    split; [intros _; exact S2|].
    split; [exact S3|].
    split; [|intros a []].
    intros a Ha _. split; [apply S4, Ha | apply S5].
Qed.

Lemma standard_known self s tc :
  standard_policy self s ->
  str_in tc ["Economy"; "Business"; "First"] = true ->
  exists entry,
    lookup tc (classes self) = Some entry
    /\ co_size_limit (carry_on entry) = [55; 40; 23]
    /\ (co_weight_limit (carry_on entry) == 7
        \/ co_weight_limit (carry_on entry) == 12)
    /\ (1 <= quantity (carry_on entry))%Z
    /\ (1 <= allowance (dicts s (checked entry)))%Z
    /\ (weight_limit (dicts s (checked entry)) == 23
        \/ weight_limit (dicts s (checked entry)) == 32)
    /\ size_limit (dicts s (checked entry)) = 158
    /\ (checked entry < next_dict s)%nat.
Proof.
  intros Hstd Htc.
  destruct (standard_classes tc Htc)
    as (co & cp & Ht & H1 & H2 & H3 & H4 & H5 & H6).
  destruct (standard_lookup self s tc co cp Hstd Ht)
    as (entry & Hl & Hco & Hcp & Ha).
  exists entry. rewrite Hco, Hcp. repeat split; assumption.
Qed.

Lemma validate_carry_on_returns self tc co_items pe_items s entry :
  lookup tc (classes self) = Some entry ->
  let acc := carry_on_passes (carry_on entry) (co_items ++ pe_items)
               (items s) in
  validate_carry_on self tc co_items pe_items s
  = Returns (true,
             if (0 <? List.length (checked_candidates acc))%nat
             then Mais_deplacer (List.length (checked_candidates acc))
             else Cabine_conformes,
             checked_candidates acc)
            (with_items s (c_items acc)).
Proof. intros Hl. unfold validate_carry_on. rewrite Hl. reflexivity. Qed.

(** ** X7-X9: validate_carry_on *)







(** ** validate_checked_baggage as a whole *)

Lemma keeps_reclaim_refl x : keeps_reclaim x x.
Proof. repeat split. Qed.

Lemma keeps_reclaim_trans x y z :
  keeps_reclaim x y -> keeps_reclaim y z -> keeps_reclaim x z.
Proof.
  intros [[A1 A2] A3] [[B1 B2] B3]. repeat split; congruence.
Qed.

Lemma keeps_storage_refl x : keeps_storage x x.
Proof. repeat split. Qed.

Lemma keeps_storage_trans x y z :
  keeps_storage x y -> keeps_storage y z -> keeps_storage x z.
Proof.
  intros [[A1 A2] A3] [[B1 B2] B3]. repeat split; congruence.
Qed.

(** The cabin-reclaim loop: the visited items are split between the two
    lists, the reclaimed ones pass the test and carry the cabin flags, and
    only storage, [compliance] and [excess] of reclaimed items are written. *)
Lemma reclaim_fold_spec co l its cap cands ret :
  let r := fold_left (reclaim_step co) l (mkReclaim its cap cands ret) in
  exists reclaimed kept,
    carryon_candidates r = cands ++ reclaimed
    /\ retained_checked_items r = ret ++ kept
    /\ Permutation l (reclaimed ++ kept)
    /\ framed keeps_reclaim reclaimed its (r_items r)
    /\ (forall a, In a reclaimed ->
                  fits_cabin co (its a) = true /\ in_cabin (r_items r a))
    /\ ((cap <= 0)%Z -> reclaimed = [] /\ kept = l)
    /\ (forall p : Luggage -> bool,
          (forall x y, same_measure x y -> p x = p y) ->
          (forall x, fits_cabin co x = true -> p x = false) ->
          filter (fun a => p (its a)) kept = filter (fun a => p (its a)) l).
Proof.
  revert its cap cands ret.
  induction l as [|b l IH]; intros its cap cands ret; cbn zeta.
  - exists [], []. cbn [fold_left carryon_candidates retained_checked_items
                       r_items]. rewrite !app_nil_r.
    split; [reflexivity|]. split; [reflexivity|].
    split; [apply Permutation_refl|].
    split; [apply framed_refl, keeps_reclaim_refl|].
    split; [intros a []|]. split; [intros _; split; reflexivity|].
    intros p _ _. reflexivity.
  - cbn [fold_left]. rewrite reclaim_step_eq, can_return_split.
    destruct ((cap >? 0)%Z && fits_cabin co (its b)) eqn:E.
    + apply andb_true_iff in E. destruct E as [Ecap Efit].
      apply Z.gtb_lt in Ecap.
      set (its1 := assign (set_excess false) b
                     (assign (set_compliance true) b
                        (assign (set_storage "carry-on") b its))).
      assert (F0 : framed keeps_reclaim [b] its its1).
      { unfold its1.
        eapply framed_trans; [apply keeps_reclaim_trans | |];
          [eapply framed_trans; [apply keeps_reclaim_trans | |]|];
          apply framed_assign;
          try apply keeps_reclaim_refl; try (left; reflexivity);
          intros x; repeat split. }
      assert (M0 : same_measures its its1)
        by (intros a; apply (F0 a)).
      destruct (IH its1 (cap - 1)%Z (cands ++ [b]) ret)
        as (adm & kept & I1 & I2 & I3 & I4 & I5 & I6 & I7).
      exists (b :: adm), kept.
      split; [rewrite I1, <- app_assoc; reflexivity|].
      split; [exact I2|].
      split; [cbn [app]; apply perm_skip, I3|].
      split.
      { eapply framed_trans; [apply keeps_reclaim_trans | |].
        - eapply framed_weaken; [|exact F0]. intros x [<-|[]]. left; reflexivity.
        - eapply framed_weaken; [|exact I4]. intros x Hx. right; exact Hx. }
      split.
      { intros a Ha. destruct (in_dec Nat.eq_dec a adm) as [Hadm|Hadm].
        - destruct (I5 a Hadm) as [G1 G2]. split; [|exact G2].
          rewrite <- G1. unfold fits_cabin. apply same_measure_cabin, M0.
        - destruct Ha as [<-|Ha]; [|contradiction].
          split; [exact Efit|].
          destruct (I4 b) as [_ Fb]. rewrite (Fb Hadm). unfold its1, in_cabin.
          rewrite !assign_same. repeat split. }
      split; [intros Hc; lia|].
      intros p Hp Hfit. cbn [filter].
      rewrite (Hfit (its b) Efit).
      rewrite (filter_ext (fun a => p (its a)) (fun a => p (its1 a)))
        by (intros a; apply Hp, M0).
      rewrite (filter_ext_in (fun a => p (its a)) (fun a => p (its1 a)) l)
        by (intros a _; apply Hp, M0).
      apply I7; assumption.
    + destruct (IH its cap cands (ret ++ [b]))
        as (adm & kept & I1 & I2 & I3 & I4 & I5 & I6 & I7).
      exists adm, (b :: kept).
      split; [exact I1|].
      split; [rewrite I2, <- app_assoc; reflexivity|].
      split; [apply Permutation_cons_app, I3|].
      split; [exact I4|]. split; [exact I5|].
      split.
      { intros Hc. destruct (I6 Hc) as [-> ->]. split; reflexivity. }
      intros p Hp Hfit. cbn [filter]. rewrite (I7 p Hp Hfit). reflexivity.
Qed.

Lemma fee_step_framed fee pol acc a :
  framed keeps_storage [a] (f_items acc) (f_items (fee_step fee pol acc a)).
Proof.
  assert (In a [a]) by (left; reflexivity).
  unfold fee_step.
  destruct (cargo_bound (f_items acc a)); cbn [f_items].
  - eapply framed_trans; [apply keeps_storage_trans | |];
      apply framed_assign; try apply keeps_storage_refl; try assumption;
      intros x; repeat split.
  - destruct (Qgt_bool (weight (f_items acc a)) (weight_limit pol));
      destruct (Qgt_bool (get_total_size_cm (f_items acc a)) (size_limit pol)
                && Qle_bool (get_total_size_cm (f_items acc a)) 203);
      cbn [f_items].
    + eapply framed_trans; [apply keeps_storage_trans | |];
        apply framed_assign; try apply keeps_storage_refl; try assumption;
        intros x; repeat split.
    + apply framed_assign; try apply keeps_storage_refl; try assumption;
        intros x; repeat split.
    + apply framed_assign; try apply keeps_storage_refl; try assumption;
        intros x; repeat split.
    + apply framed_refl, keeps_storage_refl.
Qed.

Lemma fee_fold_framed fee pol l acc :
  framed keeps_storage l (f_items acc)
         (f_items (fold_left (fee_step fee pol) l acc)).
Proof.
  revert acc. induction l as [|a l IH]; cbn [fold_left]; intros acc.
  - apply framed_refl, keeps_storage_refl.
  - eapply framed_trans; [apply keeps_storage_trans | |].
    + eapply framed_weaken; [|apply fee_step_framed].
      intros x [<-|[]]. left; reflexivity.
    + eapply framed_weaken; [|apply IH]. intros x Hx. right; exact Hx.
Qed.

Lemma mark_excess_framed l its :
  framed keeps_storage l its (mark_excess l its).
Proof.
  unfold mark_excess. apply framed_fold.
  - apply keeps_storage_refl.
  - apply keeps_storage_trans.
  - intros m a. apply framed_assign;
      [apply keeps_storage_refl | left; reflexivity | intros x; repeat split].
Qed.

Lemma slice_from_incl {A} (n : Z) (l : list A) : incl (slice_from n l) l.
Proof.
  intros a Ha. unfold slice_from in Ha.
  destruct (0 <=? n)%Z;
    match type of Ha with
    | In _ (skipn ?k _) =>
        rewrite <- (firstn_skipn k l); apply in_or_app; right; exact Ha
    end.
Qed.

(** The three passes together, on any policy. *)
Lemma checked_passes_frame fee co pol parts0 cap l its0 :
  let run := checked_passes fee co pol parts0 cap l its0 in
  let r := reclaim_pass co cap (sort_weight_asc its0 l) its0 in
  let its := fst (fst run) in
  Permutation l (carryon_candidates r ++ retained_checked_items r)
  /\ (forall a, ~ In a l -> its a = its0 a)
  /\ (forall a, ~ In a (carryon_candidates r) ->
                storage (its a) = storage (its0 a))
  /\ (forall a, ~ In a (retained_checked_items r) ->
                special (its a) = special (its0 a))
  /\ (forall a, In a (carryon_candidates r) ->
                fits_cabin co (its0 a) = true
                /\ storage (its a) = "carry-on"
                /\ (~ In a (retained_checked_items r) -> in_cabin (its a)))
  /\ ((cap <= 0)%Z ->
      carryon_candidates r = []
      /\ retained_checked_items r = sort_weight_asc its0 l)
  /\ (forall p : Luggage -> bool,
        (forall x y, same_measure x y -> p x = p y) ->
        (forall x, fits_cabin co x = true -> p x = false) ->
        filter (fun a => p (its0 a)) (retained_checked_items r)
        = filter (fun a => p (its0 a)) (sort_weight_asc its0 l)).
Proof.
  cbn zeta.
  destruct (checked_passes_spec fee co pol parts0 cap l its0)
    as (_ & _ & _ & _ & Hits).
  set (sorted := sort_weight_asc its0 l) in *.
  destruct (reclaim_fold_spec co sorted its0 cap [] [])
    as (adm & kept & R1 & R2 & R3 & R4 & R5 & R6 & R7).
  cbn zeta in R1, R2, R4, R5. cbn [app] in R1, R2.
  fold (reclaim_pass co cap sorted its0) in R1, R2, R4, R5.
  set (r := reclaim_pass co cap sorted its0) in *.
  rewrite R1, R2.
  pose proof (fee_fold_framed fee pol kept (mkFeeAcc (r_items r) 0 [] parts0))
    as F. cbn [f_items] in F. rewrite <- R2 in F.
  fold (fee_pass fee pol (retained_checked_items r) (r_items r) parts0) in F.
  set (f := fee_pass fee pol (retained_checked_items r) (r_items r) parts0)
    in *.
  rewrite R2 in F.
  assert (G : framed keeps_storage kept (r_items r) (fst (fst
                (checked_passes fee co pol parts0 cap l its0)))).
  { rewrite Hits.
    destruct (excess_count pol (retained_checked_items r) >? 0)%Z; [|exact F].
    eapply framed_trans; [apply keeps_storage_trans | exact F |].
    eapply framed_weaken; [|apply mark_excess_framed].
    rewrite R2. apply slice_from_incl. }
  set (its := fst (fst (checked_passes fee co pol parts0 cap l its0))) in *.
  assert (Hsorted : Permutation l sorted) by apply sort_weight_asc_perm.
  split; [eapply perm_trans; [exact Hsorted | exact R3]|].
  split.
  { intros a Ha.
    assert (Hs : ~ In a (adm ++ kept)).
    { intros Hin. apply Ha.
      eapply Permutation_in; [symmetry; eapply perm_trans;
                              [exact Hsorted | exact R3] | exact Hin]. }
    destruct (G a) as [_ G2]. destruct (R4 a) as [_ R42].
    rewrite G2, R42; [reflexivity | |];
      intros Hin; apply Hs, in_or_app; [left | right]; exact Hin. }
  split.
  { intros a Ha. destruct (G a) as [[_ G1] _]. destruct (R4 a) as [_ R42].
    rewrite <- G1, (R42 Ha). reflexivity. }
  split.
  { intros a Ha. destruct (G a) as [_ G2]. destruct (R4 a) as [[_ R41] _].
    rewrite (G2 Ha), R41. reflexivity. }
  split.
  { intros a Ha. destruct (R5 a Ha) as [Q1 (Q2 & Q3 & Q4)].
    destruct (G a) as [[_ G1] G2].
    split; [exact Q1|]. split; [rewrite <- G1; exact Q2|].
    intros Hn. rewrite (G2 Hn). repeat split; assumption. }
  split.
  { intros Hc. destruct (R6 Hc) as [-> ->]. split; reflexivity. }
  exact R7.
Qed.

Lemma sum_fees_zero fee pol its l :
  (forall a, In a l -> item_fee fee pol (its a) = 0%Z) ->
  sum_fees fee pol its l = 0%Z.
Proof.
  induction l as [|a l IH]; intros H; cbn; [reflexivity|].
  fold (sum_fees fee pol its l).
  rewrite (H a (or_introl eq_refl)), IH; [reflexivity|].
  intros b Hb. apply H. right; exact Hb.
Qed.


(** ** X10-X14: validate_checked_baggage *)




Lemma filter_none {A} (p : A -> bool) (l : list A) :
  (forall a, In a l -> p a = false) -> filter p l = [].
Proof.
  induction l as [|a l IH]; intros H; cbn [filter]; [reflexivity|].
  rewrite (H a (or_introl eq_refl)). apply IH.
  intros b Hb. apply H. right; exact Hb.
Qed.

(** X11.  A list of checked items that already satisfies the overlaid
    policy costs nothing: when every item weighs at most 32 and at most the
    overlaid weight limit, has a total size of at most 203 and at most the
    class size limit, a size that floating point decides as exact
    arithmetic does ([sizes_decided]), and the items are no more than the
    overlaid allowance, the call succeeds with an empty cargo list and a
    fee of 0, whatever the cabin capacity. *)
Theorem compliant_checked_items_cost_nothing :
  forall self tc l ptype cap s entry,
    lookup tc (classes self) = Some entry ->
    let pol := age_overlay (dicts s (checked entry))
                 (lookup ptype (child_allowances self)) in
    (forall a, In a l ->
               weight (items s a) <= 32
               /\ weight (items s a) <= weight_limit pol
               /\ get_total_size_cm (items s a) <= 203
               /\ get_total_size_cm (items s a) <= size_limit pol) ->
    sizes_decided (size_limit pol) (items s) l ->
    (Z.of_nat (List.length l) <= allowance pol)%Z ->
    exists msg final s',
      validate_checked_baggage self tc l ptype cap s
      = Returns ((true, msg, [], 0%Z), final) s'.
Proof.
  intros self tc l ptype cap s entry Hl pol Hall _ Hlen.
  destruct (validate_checked_baggage_returns self tc l ptype cap s entry Hl)
    as (s' & Hrun & _).
  cbn zeta in Hrun.
  set (child := lookup ptype (child_allowances self)) in *.
  fold pol in Hrun.
  pose proof (checked_passes_fee (excess_fees self) (carry_on entry) pol
                (overlay_notes child) cap l (items s)) as Hf.
  pose proof (checked_passes_cargo (excess_fees self) (carry_on entry) pol
                (overlay_notes child) cap l (items s)) as Hc.
  destruct (checked_passes_spec (excess_fees self) (carry_on entry) pol
              (overlay_notes child) cap l (items s))
    as (_ & Hcargo & Hok & _).
  destruct (checked_passes_frame (excess_fees self) (carry_on entry) pol
              (overlay_notes child) cap l (items s)) as (Hperm & _).
  cbn zeta in Hperm.
  set (sorted := sort_weight_asc (items s) l) in *.
  set (r := reclaim_pass (carry_on entry) cap sorted (items s)) in *.
  assert (Hin : forall a, In a (retained_checked_items r) -> In a l).
  { intros a Ha. eapply Permutation_in; [symmetry; exact Hperm|].
    apply in_or_app. right; exact Ha. }
  assert (Hnc : forall a, In a (retained_checked_items r) ->
                          cargo_bound (items s a) = false).
  { intros a Ha. destruct (Hall a (Hin a Ha)) as (H1 & _ & H3 & _).
    unfold cargo_bound. apply orb_false_iff.
    split; apply Qgt_bool_false; assumption. }
  assert (Hnil : filter (fun a => cargo_bound (items s a))
                   (retained_checked_items r) = []).
  { apply filter_none. exact Hnc. }
  rewrite Hnil in Hc.
  assert (Hsum : sum_fees (excess_fees self) pol (items s)
                   (retained_checked_items r) = 0%Z).
  { apply sum_fees_zero. intros a Ha.
    destruct (Hall a (Hin a Ha)) as (H1 & H2 & H3 & H4).
    unfold item_fee. rewrite (Hnc a Ha).
    apply Qgt_bool_false in H2, H4. rewrite H2, H4. reflexivity. }
  assert (Hn : excess_count pol (retained_checked_items r) = 0%Z).
  { unfold excess_count.
    assert (List.length (retained_checked_items r) <= List.length l)%nat.
    { apply Permutation_length in Hperm. rewrite length_app in Hperm. lia. }
    lia. }
  rewrite Hsum, Hn in Hf. cbn in Hf.
  rewrite Hcargo in Hc. rewrite Hc in Hok.
  destruct (checked_passes (excess_fees self) (carry_on entry) pol
              (overlay_notes child) cap l (items s))
    as [[its [[[ok msg] cargo] fee]] final].
  cbn [fst snd res_ok res_cargo res_fee] in *. subst.
  rewrite Hc in Hrun. eexists _, _, s'. exact Hrun.
Qed.

Lemma compliant_checked_items_cost_nothing_witness :
  exists msg final s',
    validate_checked_baggage policy "Economy" [0%nat] "adult" 0
      (state_with [bag "checked" 20 60 40 25])
    = Returns ((true, msg, [], 0%Z), final) s'.
Proof.
  apply (compliant_checked_items_cost_nothing policy "Economy" [0%nat]
           "adult" 0 (state_with [bag "checked" 20 60 40 25])
           (mkClass (mkCarryOn 1 7 [55; 40; 23]) 0%nat) eq_refl).
  - cbn zeta. intros a [<-|[]]. repeat split; vm_compute; discriminate.
  - intros a [<-|[]]; split; vm_compute; reflexivity.
  - vm_compute. discriminate.
Defined.

(** X12.  The passenger type is not validated by the evaluator: a type that
    has no entry in [child_allowances], upper-case ["Child"] or a misspelt
    one included, is treated exactly as ["adult"], with no overlay and no
    error. *)
Theorem unknown_passenger_type_is_adult :
  forall self s tc l ptype cap,
    standard_policy self s ->
    str_in ptype ["child"; "infant"] = false ->
    validate_checked_baggage self tc l ptype cap s
    = validate_checked_baggage self tc l "adult" cap s.
Proof.
  intros self s tc l ptype cap Hstd Hp.
  unfold validate_checked_baggage.
  destruct (lookup tc (classes self)) as [entry|]; [|reflexivity].
  unfold alloc_dict, apply_child_allowance.
  destruct Hstd as (_ & _ & -> & _). cbn in Hp |- *.
  destruct (String.eqb ptype "child"); [discriminate|].
  destruct (String.eqb ptype "infant"); [discriminate|].
  reflexivity.
Qed.

Lemma unknown_passenger_type_is_adult_witness :
  validate_checked_baggage policy "Economy" [0%nat] "Child" 0
    (state_with [bag "checked" 20 60 40 25])
  = validate_checked_baggage policy "Economy" [0%nat] "adult" 0
      (state_with [bag "checked" 20 60 40 25]).
Proof.
  apply (unknown_passenger_type_is_adult policy
           (state_with [bag "checked" 20 60 40 25]) "Economy" [0%nat]
           "Child" 0).
  - apply init_standard.
  - reflexivity.
Defined.

(** X13.  Whatever the class entry, a returning call of
    [validate_checked_baggage] never writes a weight or a dimension, leaves
    every object outside its input list untouched, returns only input items
    as cargo, and keeps every dictionary that existed before the call.
    With a cabin capacity of 0 or less it changes no storage, and every
    input item is retained for the fee pass. *)
Theorem validate_checked_baggage_frame :
  forall self tc l ptype cap s entry,
    lookup tc (classes self) = Some entry ->
    exists ok msg cargo fee final s',
      validate_checked_baggage self tc l ptype cap s
      = Returns ((ok, msg, cargo, fee), final) s'
      /\ (forall a, weight (items s' a) = weight (items s a)
                    /\ dim (items s' a) = dim (items s a))
      /\ (forall a, ~ In a l -> items s' a = items s a)
      /\ incl cargo l
      /\ (forall a, a <> next_dict s -> dicts s' a = dicts s a)
      /\ ((cap <= 0)%Z ->
          (forall a, storage (items s' a) = storage (items s a))
          /\ retained_checked_items
               (reclaim_pass (carry_on entry) cap final (items s))
             = final).
Proof.
  intros self tc l ptype cap s entry Hl.
  destruct (validate_checked_baggage_returns self tc l ptype cap s entry Hl)
    as (s' & Hrun & Hits & _ & _ & Hd).
  cbn zeta in Hrun, Hits.
  set (child := lookup ptype (child_allowances self)) in *.
  set (pol := age_overlay (dicts s (checked entry)) child) in *.
  pose proof (checked_passes_measures (excess_fees self) (carry_on entry) pol
                (overlay_notes child) cap l (items s)) as Hm.
  pose proof (checked_passes_cargo (excess_fees self) (carry_on entry) pol
                (overlay_notes child) cap l (items s)) as Hc.
  destruct (checked_passes_spec (excess_fees self) (carry_on entry) pol
              (overlay_notes child) cap l (items s)) as (Hsorted & _).
  destruct (checked_passes_frame (excess_fees self) (carry_on entry) pol
              (overlay_notes child) cap l (items s))
    as (Hperm & Hout & Hst & _ & _ & Hzero & _).
  cbn zeta in Hperm, Hout, Hst, Hzero.
  rewrite <- Hits in Hm, Hout, Hst.
  destruct (checked_passes (excess_fees self) (carry_on entry) pol
              (overlay_notes child) cap l (items s))
    as [[its [[[ok msg] cargo] fee]] final] eqn:Erun.
  cbn [fst snd res_cargo] in *.
  exists ok, msg, cargo, fee, final, s'.
  split; [exact Hrun|].
  split; [intros a; destruct (Hm a) as [H1 H2]; split; congruence|].
  split; [exact Hout|].
  split.
  { intros a Ha. rewrite Hc in Ha. apply filter_In in Ha.
    destruct Ha as [Ha _].
    eapply Permutation_in; [symmetry; exact Hperm|].
    apply in_or_app. right; exact Ha. }
  split; [exact Hd|].
  intros Hcap. destruct (Hzero Hcap) as [Hnone Hret]. split.
  - intros a. apply Hst. rewrite Hnone. intros [].
  - rewrite Hsorted. exact Hret.
Qed.

Lemma validate_checked_baggage_frame_witness :
  exists ok msg cargo fee final s',
    validate_checked_baggage policy "Economy" [0%nat] "adult" 0
      (state_with [bag "checked" 5 50 30 20; bag "carry-on" 5 50 30 20])
    = Returns ((ok, msg, cargo, fee), final) s'
    /\ (forall a, ~ In a [0%nat] ->
                  items s' a
                  = items (state_with [bag "checked" 5 50 30 20;
                                       bag "carry-on" 5 50 30 20]) a).
Proof.
  destruct (validate_checked_baggage_frame policy "Economy" [0%nat] "adult" 0
              (state_with [bag "checked" 5 50 30 20; bag "carry-on" 5 50 30 20])
              (mkClass (mkCarryOn 1 7 [55; 40; 23]) 0%nat) eq_refl)
    as (ok & msg & cargo & fee & final & s' & H1 & _ & H3 & _).
  exists ok, msg, cargo, fee, final, s'. split; assumption.
Defined.



(** ** C6: the cabin-reclaim pass *)






(** ** test_eligibility as a whole *)

(** The evaluation of a request on a known class, stage by stage. *)
Lemma test_eligibility_known self request s entry :
  lookup (travel_class request) (classes self) = Some entry ->
  let co_items :=
    filter (storage_is (items s) "carry-on") (luggages request) in
  let pe_items :=
    filter (storage_is (items s) "personal") (luggages request) in
  let ch_items :=
    filter (storage_is (items s) "checked") (luggages request) in
  let acc := carry_on_passes (carry_on entry) (co_items ++ pe_items)
               (items s) in
  let cands := checked_candidates acc in
  let its2 := move_to_checked cands (c_items acc) in
  let cap :=
    Z.max 0 (quantity (carry_on entry) + 1
             - (Z.of_nat (List.length co_items)
                + Z.of_nat (List.length pe_items)
                - Z.of_nat (List.length cands))) in
  let child := lookup (age_category request) (child_allowances self) in
  let pol := age_overlay (dicts s (checked entry)) child in
  let run := checked_passes (excess_fees self) (carry_on entry) pol
               (overlay_notes child) cap (ch_items ++ cands) its2 in
  let r := snd (fst run) in
  let cmsg :=
    if (0 <? List.length cands)%nat then Mais_deplacer (List.length cands)
    else Cabine_conformes in
  let messages :=
    (if carry_msg_is_default cmsg then [] else [Of_carry cmsg])
    ++ (if checked_msg_is_default (res_msg r) then []
        else [Of_checked (res_msg r)]) in
  exists s',
    eligibility_try self request s
    = Returns (res_ok r && Nat.eqb (List.length (res_cargo r)) 0,
               match messages with
               | [] => Tous_conformes
               | _ :: _ => Joined messages
               end,
               cands, res_cargo r, res_fee r) s'
    /\ test_eligibility self request s = eligibility_try self request s
    /\ items s' = fst (fst run)
    /\ (forall a, a <> next_dict s -> dicts s' a = dicts s a).
Proof.
  intros Hl. cbn zeta.
  unfold test_eligibility, eligibility_try, cabin_stage.
  rewrite (validate_carry_on_returns self (travel_class request) _ _ s entry Hl).
  rewrite Hl. cbn zeta.
  set (co_items :=
         filter (storage_is (items s) "carry-on") (luggages request)).
  set (pe_items :=
         filter (storage_is (items s) "personal") (luggages request)).
  set (ch_items :=
         filter (storage_is (items s) "checked") (luggages request)).
  set (acc := carry_on_passes (carry_on entry) (co_items ++ pe_items)
                (items s)).
  cbn [items with_items].
  set (s2 := with_items (with_items s (c_items acc))
               (move_to_checked (checked_candidates acc) (c_items acc))).
  set (cap := Z.max 0 _).
  destruct (validate_checked_baggage_returns self (travel_class request)
              (ch_items ++ checked_candidates acc) (age_category request)
              cap s2 entry Hl) as (s' & Hrun & Hits & _ & _ & Hd).
  cbn zeta in Hrun, Hits. cbn [s2 dicts items with_items] in Hrun, Hits.
  rewrite Hrun.
  set (run := checked_passes _ _ _ _ _ _ _) in *.
  destruct (snd (fst run)) as [[[ok cm] cargo] fee].
  cbn [res_ok res_msg res_cargo res_fee fst snd].
  exists s'. split; [reflexivity|]. split; [reflexivity|].
  split; [exact Hits|]. exact Hd.
Qed.

(** The carry-on passes on any policy: only [compliance] and [excess] of
    the input items are written, and the candidates are input items. *)
Lemma carry_on_passes_framed co l its :
  let acc := carry_on_passes co l its in
  framed keeps_identity l its (c_items acc)
  /\ incl (checked_candidates acc) l.
Proof.
  cbn zeta. unfold carry_on_passes.
  destruct (carry_fold_spec co l its [] []) as (S1 & S2 & S3 & _).
  cbn zeta in S1, S2, S3. cbn [app] in S1, S2.
  set (acc := fold_left (carry_step co) l (mkCarryAcc its [] [])) in *.
  assert (Hc : incl (checked_candidates acc) l)
    by (rewrite S1; apply incl_filter).
  destruct (Z.of_nat (List.length (compliant_items acc)) >? quantity co + 1)%Z;
    cbn [c_items checked_candidates]; [|split; assumption].
  set (overflow := slice_from (quantity co + 1)
                     (sort_weight_desc (c_items acc) (compliant_items acc))).
  assert (Ho : incl overflow l).
  { intros a Ha. apply slice_from_incl in Ha.
    assert (In a (compliant_items acc))
      by (eapply Permutation_in;
          [symmetry; apply sort_weight_desc_perm | exact Ha]).
    rewrite S2 in H. apply filter_In in H. apply H. }
  split.
  - eapply framed_trans; [apply keeps_identity_trans | exact S3 |].
    eapply framed_weaken; [exact Ho | apply mark_overflow_spec].
  - apply incl_app; assumption.
Qed.

Lemma move_to_checked_spec l its :
  framed same_measure l its (move_to_checked l its)
  /\ (forall a, In a l -> storage (move_to_checked l its a) = "checked")
  /\ (forall a, special (move_to_checked l its a) = special (its a)
                /\ compliance (move_to_checked l its a) = compliance (its a)
                /\ excess (move_to_checked l its a) = excess (its a)).
Proof.
  unfold move_to_checked. revert its.
  induction l as [|b l IH]; cbn [fold_left]; intros its.
  - split; [apply framed_refl, same_measure_refl|].
    split; [intros a [] | intros a; repeat split].
  - destruct (IH (assign (set_storage "checked") b its)) as (F & S & K).
    assert (F0 : framed same_measure (b :: l) its
                   (assign (set_storage "checked") b its)).
    { apply framed_assign;
        [apply same_measure_refl | left; reflexivity | intros x; split;
                                                       reflexivity]. }
    split; [|split].
    + eapply framed_trans; [apply same_measure_trans | exact F0 |].
      eapply framed_weaken; [|exact F]. intros x Hx. right; exact Hx.
    + intros a Ha. destruct (in_dec Nat.eq_dec a l) as [Hl|Hl];
        [apply S, Hl|].
      destruct Ha as [<-|Ha]; [|contradiction].
      destruct (F b) as [_ Fb]. rewrite (Fb Hl), assign_same. reflexivity.
    + intros a. destruct (K a) as (K1 & K2 & K3). rewrite K1, K2, K3.
      destruct (Nat.eq_dec a b) as [->|Hne].
      * rewrite assign_same. repeat split.
      * rewrite assign_other by exact Hne. repeat split.
Qed.

Lemma engine_step_valid x y :
  engine_step x y -> valid_luggage x -> valid_luggage y.
Proof.
  intros [[Hw Hd] Hs] (V1 & V2 & V3 & V4 & V5 & V6).
  unfold valid_luggage. rewrite <- Hw, <- Hd.
  repeat split; try assumption.
  destruct Hs as [->| [-> | ->]]; [exact V1 | reflexivity | reflexivity].
Qed.

(** X17.  [test_eligibility], on any policy object and any request, never
    writes a weight or a dimension; the storage of an object stays as it
    was or becomes carry-on or checked, so an object that satisfied the
    checks of the constructor still does; and an object that is not in
    [request.luggages] is left exactly as it was. *)
Theorem test_eligibility_preserves_items :
  forall self request s,
    exists v s',
      test_eligibility self request s = Returns v s'
      /\ (forall a,
            weight (items s' a) = weight (items s a)
            /\ dim (items s' a) = dim (items s a)
            /\ (storage (items s' a) = storage (items s a)
                \/ storage (items s' a) = "carry-on"
                \/ storage (items s' a) = "checked")
            /\ (valid_luggage (items s a) -> valid_luggage (items s' a)))
      /\ (forall a, ~ In a (luggages request) -> items s' a = items s a).
Proof.
  intros self request s.
  destruct (lookup (travel_class request) (classes self)) as [entry|] eqn:Hl.
  - destruct (test_eligibility_known self request s entry Hl)
      as (s' & Hrun & Htest & Hits & _).
    cbn zeta in Hrun, Hits. rewrite Htest, Hrun.
    eexists _, s'. split; [reflexivity|].
    set (co_items :=
           filter (storage_is (items s) "carry-on") (luggages request)) in *.
    set (pe_items :=
           filter (storage_is (items s) "personal") (luggages request)) in *.
    set (ch_items :=
           filter (storage_is (items s) "checked") (luggages request)) in *.
    destruct (carry_on_passes_framed (carry_on entry) (co_items ++ pe_items)
                (items s)) as [F1 I1].
    cbn zeta in F1, I1.
    set (acc := carry_on_passes (carry_on entry) (co_items ++ pe_items)
                  (items s)) in *.
    destruct (move_to_checked_spec (checked_candidates acc) (c_items acc))
      as (F2 & S2 & _).
    set (its2 := move_to_checked (checked_candidates acc) (c_items acc)) in *.
    set (cap := Z.max 0 _) in *.
    set (child := lookup (age_category request) (child_allowances self)) in *.
    set (pol := age_overlay (dicts s (checked entry)) child) in *.
    pose proof (checked_passes_measures (excess_fees self) (carry_on entry)
                  pol (overlay_notes child) cap
                  (ch_items ++ checked_candidates acc) its2) as M3.
    destruct (checked_passes_frame (excess_fees self) (carry_on entry) pol
                (overlay_notes child) cap
                (ch_items ++ checked_candidates acc) its2)
      as (_ & O3 & St3 & _ & A3 & _).
    cbn zeta in O3, St3, A3. rewrite <- Hits in M3, O3, St3, A3.
    assert (Htot : incl (co_items ++ pe_items) (luggages request))
      by (apply incl_app; apply incl_filter).
    assert (Hall : incl (ch_items ++ checked_candidates acc)
                        (luggages request)).
    { apply incl_app; [apply incl_filter|].
      intros a Ha. apply Htot, I1, Ha. }
    assert (Hstep : forall a, engine_step (items s a) (items s' a)).
    { intros a. destruct (F1 a) as [(K1 & _ & K3 & K4) _].
      destruct (F2 a) as [[L3 L4] L0]. destruct (M3 a) as [N3 N4].
      split; [split; congruence|].
      destruct (in_dec Nat.eq_dec a
                  (carryon_candidates
                     (reclaim_pass (carry_on entry) cap
                        (sort_weight_asc its2
                           (ch_items ++ checked_candidates acc)) its2)))
        as [Hadm|Hadm].
      - right. left. destruct (A3 a Hadm) as (_ & Hcab & _). exact Hcab.
      - rewrite (St3 a Hadm).
        destruct (in_dec Nat.eq_dec a (checked_candidates acc)) as [Hc|Hc].
        + right. right. apply S2, Hc.
        + left. rewrite (L0 Hc). symmetry. exact K1. }
    split.
    + intros a. destruct (Hstep a) as [[Hw Hd] Hs].
      split; [symmetry; exact Hw|]. split; [symmetry; exact Hd|].
      split; [exact Hs|]. apply engine_step_valid, Hstep.
    + intros a Ha.
      rewrite (O3 a) by (intros Hin; apply Ha, Hall, Hin).
      destruct (F2 a) as [_ L0].
      rewrite L0 by (intros Hin; apply Ha, Htot, I1, Hin).
      apply F1. intros Hin. apply Ha, Htot, Hin.
  - exists (failed_result (ValueError
              ("Classe de voyage invalide: " ++ travel_class request)%string)),
      s.
    split.
    + unfold test_eligibility, eligibility_try, cabin_stage, validate_carry_on.
      rewrite Hl. reflexivity.
    + split; [|reflexivity].
      intros a. split; [reflexivity|]. split; [reflexivity|].
      split; [left; reflexivity | intros Hv; exact Hv].
Qed.




(** ** X15-X16: requests *)






(** ** X18-X19: the cabin capacity from end to end *)

Lemma fits_is_compliant co x l0 l1 l2 :
  co_size_limit co = [l0; l1; l2] ->
  fits_cabin co x = cabin_compliant co x.
Proof.
  intros Hs. unfold fits_cabin, can_return_to_cabin, cabin_compliant,
               all_zip_le, get_dimensions_list_cm.
  rewrite Hs. cbn [all_enum_le nth_error combine forallb fst snd Z.gtb
                   Z.compare andb].
  destruct (Qle_bool (height (get_dimensions_in_cm x)) l0);
    destruct (Qle_bool (width (get_dimensions_in_cm x)) l1);
    destruct (Qle_bool (depth (get_dimensions_in_cm x)) l2); reflexivity.
Qed.

Lemma filter_split_length {A} (p : A -> bool) (l : list A) :
  (List.length (filter p l) + List.length (filter (fun a => negb (p a)) l)
   = List.length l)%nat.
Proof.
  induction l as [|a l IH]; cbn [filter]; [reflexivity|].
  destruct (p a); cbn [negb List.length]; lia.
Qed.

Lemma stays_refused_refl x : stays_refused x x.
Proof. intros H; exact H. Qed.

Lemma stays_refused_trans x y z :
  stays_refused x y -> stays_refused y z -> stays_refused x z.
Proof. intros H1 H2 H. apply H2, H1, H. Qed.

Lemma framed_assign_twice (keep : Luggage -> Luggage -> Prop)
    (f g : Luggage -> Luggage) l a its :
  (forall x, keep x x) ->
  (forall x y z, keep x y -> keep y z -> keep x z) ->
  In a l -> (forall x, keep x (f x)) -> (forall x, keep x (g x)) ->
  framed keep l its (assign g a (assign f a its)).
Proof.
  intros Hr Ht Hin Hf Hg.
  apply (framed_trans keep Ht l its (assign f a its)).
  - apply framed_assign; assumption.
  - apply framed_assign; assumption.
Qed.

Lemma fee_fold_refused fee pol l acc :
  framed stays_refused l (f_items acc)
         (f_items (fold_left (fee_step fee pol) l acc)).
Proof.
  revert acc. induction l as [|a l IH]; cbn [fold_left]; intros acc.
  - apply framed_refl, stays_refused_refl.
  - apply (framed_trans stays_refused stays_refused_trans (a :: l)
             (f_items acc) (f_items (fee_step fee pol acc a))).
    + assert (Hin : In a (a :: l)) by (left; reflexivity).
      unfold fee_step.
      destruct (cargo_bound (f_items acc a)); cbn [f_items].
      * apply (framed_assign_twice stays_refused (set_special true)
                 (set_compliance false));
          [apply stays_refused_refl | apply stays_refused_trans | exact Hin
          | intros x Hx; exact Hx | intros x Hx; reflexivity].
      * destruct (Qgt_bool (weight (f_items acc a)) (weight_limit pol));
          destruct (Qgt_bool (get_total_size_cm (f_items acc a))
                      (size_limit pol)
                    && Qle_bool (get_total_size_cm (f_items acc a)) 203);
          cbn [f_items].
        -- apply (framed_assign_twice stays_refused (set_excess true)
                    (set_excess true));
             [apply stays_refused_refl | apply stays_refused_trans | exact Hin
             | intros x Hx; exact Hx | intros x Hx; exact Hx].
        -- apply (framed_assign stays_refused stays_refused_refl
                    (set_excess true));
             [exact Hin | intros x Hx; exact Hx].
        -- apply (framed_assign stays_refused stays_refused_refl
                    (set_excess true));
             [exact Hin | intros x Hx; exact Hx].
        -- apply framed_refl, stays_refused_refl.
    + eapply framed_weaken; [|apply IH]. intros x Hx. right; exact Hx.
Qed.

(** An item that the reclaim pass did not take back and that was refused before
    the call is still refused after it. *)
Lemma checked_passes_refused fee co pol parts0 cap l its0 a :
  let run := checked_passes fee co pol parts0 cap l its0 in
  let r := reclaim_pass co cap (sort_weight_asc its0 l) its0 in
  ~ In a (carryon_candidates r) ->
  compliance (its0 a) = false ->
  compliance (fst (fst run) a) = false.
Proof.
  cbn zeta. intros Hadm Hc.
  destruct (checked_passes_spec fee co pol parts0 cap l its0)
    as (_ & _ & _ & _ & ->).
  set (sorted := sort_weight_asc its0 l) in *.
  destruct (reclaim_fold_spec co sorted its0 cap [] [])
    as (adm & kept & R1 & _ & _ & R4 & _).
  cbn zeta in R1, R4. cbn [app] in R1.
  fold (reclaim_pass co cap sorted its0) in R1, R4.
  set (r := reclaim_pass co cap sorted its0) in *.
  rewrite R1 in Hadm. destruct (R4 a) as [_ R42].
  assert (H1 : compliance (r_items r a) = false)
    by (rewrite (R42 Hadm); exact Hc).
  pose proof (fee_fold_refused fee pol (retained_checked_items r)
                (mkFeeAcc (r_items r) 0 [] parts0) a) as [F _].
  cbn [f_items] in F.
  fold (fee_pass fee pol (retained_checked_items r) (r_items r) parts0) in F.
  specialize (F H1).
  destruct (excess_count pol (retained_checked_items r) >? 0)%Z; [|exact F].
  destruct (mark_excess_flags
              (slice_from (- excess_count pol (retained_checked_items r))
                 (retained_checked_items r))
              (f_items (fee_pass fee pol (retained_checked_items r)
                          (r_items r) parts0)) a) as (_ & -> & _).
  exact F.
Qed.

(** The cabin capacity handed to the checked stage, on the table: with
    what the carry-on stage kept it makes the class quantity plus 1, and it
    is 0 when the carry-on stage had an overflow. *)
Lemma cabin_stage_capacity (co : CarryOnPolicy) (total : list addr) its
    (n_co n_pe : nat) :
  (0 <= quantity co + 1)%Z ->
  (n_co + n_pe)%nat = List.length total ->
  let acc := carry_on_passes co total its in
  let cap :=
    Z.max 0 (quantity co + 1
             - (Z.of_nat n_co + Z.of_nat n_pe
                - Z.of_nat (List.length (checked_candidates acc)))) in
  (Z.of_nat (List.length (compliant_items acc)) + cap = quantity co + 1)%Z
  /\ (0 <= cap)%Z.
Proof.
  intros Hq Hn. cbn zeta.
  destruct (carry_on_passes_spec co total its Hq)
    as (overflow & C1 & C2 & _).
  cbn zeta in C1, C2.
  pose proof (carry_on_capacity_invariant co total its Hq) as Hk.
  set (acc := carry_on_passes co total its) in *.
  pose proof (filter_split_length (fun a => cabin_compliant co (its a)) total)
    as Hs.
  apply Permutation_length in C2. rewrite length_app in C2.
  assert (Hc : List.length (checked_candidates acc)
               = (List.length (filter (fun a => negb (cabin_compliant co (its a)))
                                 total)
                  + List.length overflow)%nat)
    by (rewrite C1, length_app; reflexivity).
  lia.
Qed.

(** An item that the carry-on stage moved to the hold is not taken back by
    the reclaim pass: it fails the cabin test, or it was moved for lack of
    room and the capacity left is 0. *)
Lemma moved_not_reclaimed (co : CarryOnPolicy) (total : list addr) its
    (n_co n_pe : nat) (checked_list : list addr) l0 l1 l2 :
  co_size_limit co = [l0; l1; l2] ->
  (0 <= quantity co + 1)%Z ->
  (n_co + n_pe)%nat = List.length total ->
  let acc := carry_on_passes co total its in
  let its2 := move_to_checked (checked_candidates acc) (c_items acc) in
  let cap :=
    Z.max 0 (quantity co + 1
             - (Z.of_nat n_co + Z.of_nat n_pe
                - Z.of_nat (List.length (checked_candidates acc)))) in
  forall a,
    In a (checked_candidates acc) ->
    ~ In a (carryon_candidates (reclaim_pass co cap checked_list its2)).
Proof.
  intros Hs Hq Hn. cbn zeta. intros a Ha Hadm.
  destruct (cabin_stage_capacity co total its n_co n_pe Hq Hn) as [Hk _].
  cbn zeta in Hk.
  destruct (carry_on_passes_spec co total its Hq)
    as (overflow & C1 & _ & _ & C4 & _ & C6 & _).
  cbn zeta in C1, C4, C6.
  set (acc := carry_on_passes co total its) in *.
  set (its2 := move_to_checked (checked_candidates acc) (c_items acc)) in *.
  set (cap := Z.max 0 _) in *.
  destruct (reclaim_fold_spec co checked_list its2 cap [] [])
    as (adm & kept & R1 & _ & _ & _ & R5 & R6 & _).
  cbn zeta in R1, R5. cbn [app] in R1.
  fold (reclaim_pass co cap checked_list its2) in R1, R5.
  rewrite R1 in Hadm.
  destruct (R5 a Hadm) as [Hfit _].
  destruct overflow as [|o os].
  - rewrite app_nil_r in C1. rewrite C1 in Ha. apply filter_In in Ha.
    destruct Ha as [_ Ha]. apply negb_true_iff in Ha.
    rewrite (fits_is_compliant co _ l0 l1 l2 Hs) in Hfit.
    assert (Hm : same_measure (its a) (its2 a)).
    { destruct (C6 a) as [(_ & _ & W & D) _].
      destruct (move_to_checked_spec (checked_candidates acc) (c_items acc))
        as (F & _). destruct (F a) as [[W2 D2] _].
      fold its2 in W2, D2. split; congruence. }
    rewrite (cabin_compliant_measure co _ _ Hm) in Ha. congruence.
  - assert (Hne : o :: os <> []) by discriminate.
    specialize (C4 Hne).
    assert (Hcap : (cap <= 0)%Z) by lia.
    destruct (R6 Hcap) as [Hnil _]. rewrite Hnil in Hadm. destruct Hadm.
Qed.

(** The moved items when the evaluation of a request of the table
    returns. *)
Lemma eligibility_moved :
  forall self s tc age l,
    standard_policy self s ->
    str_in tc ["Economy"; "Business"; "First"] = true ->
    exists v m moved cargo fee s',
      test_eligibility self (mkRequest tc age l) s
      = Returns (v, m, moved, cargo, fee) s'
      /\ forall a,
           In a moved ->
           In a l
           /\ (storage (items s a) = "carry-on"
               \/ storage (items s a) = "personal")
           /\ storage (items s' a) = "checked"
           /\ compliance (items s' a) = false.
Proof.
  intros self s tc age l Hstd Htc.
  destruct (standard_known self s tc Hstd Htc)
    as (entry & Hl & Hsz & _ & Hq & _).
  destruct (test_eligibility_known self (mkRequest tc age l) s entry Hl)
    as (s' & Hrun & Htest & Hits & _).
  cbn zeta in Hrun, Hits.
  cbn [luggages travel_class age_category] in Hrun, Hits.
  rewrite Htest, Hrun. eexists _, _, _, _, _, s'. split; [reflexivity|].
  set (co_items := filter (storage_is (items s) "carry-on") l) in *.
  set (pe_items := filter (storage_is (items s) "personal") l) in *.
  set (ch_items := filter (storage_is (items s) "checked") l) in *.
  pose proof (moved_not_reclaimed (carry_on entry) (co_items ++ pe_items)
                (items s) (List.length co_items) (List.length pe_items))
    as Hna.
  destruct (carry_on_passes_spec (carry_on entry) (co_items ++ pe_items)
              (items s) ltac:(lia))
    as (overflow & C1 & C2 & _ & _ & _ & C6 & C7 & C8).
  destruct (carry_on_passes_framed (carry_on entry) (co_items ++ pe_items)
              (items s)) as [_ I1].
  cbn zeta in C1, C2, C6, C7, C8, I1, Hna.
  set (acc := carry_on_passes (carry_on entry) (co_items ++ pe_items)
                (items s)) in *.
  destruct (move_to_checked_spec (checked_candidates acc) (c_items acc))
    as (_ & S2 & K2).
  set (its2 := move_to_checked (checked_candidates acc) (c_items acc)) in *.
  set (cap := Z.max 0 _) in *.
  set (child := lookup age (child_allowances self)) in *.
  set (pol := age_overlay (dicts s (checked entry)) child) in *.
  set (all_checked := ch_items ++ checked_candidates acc) in *.
  destruct (checked_passes_frame (excess_fees self) (carry_on entry) pol
              (overlay_notes child) cap all_checked its2)
    as (_ & _ & St3 & _).
  cbn zeta in St3. rewrite <- Hits in St3.
  pose proof (checked_passes_refused (excess_fees self) (carry_on entry) pol
                (overlay_notes child) cap all_checked its2) as Rf.
  cbn zeta in Rf. rewrite <- Hits in Rf.
  intros a Ha.
  assert (Hnot : ~ In a (carryon_candidates
                           (reclaim_pass (carry_on entry) cap
                              (sort_weight_asc its2 all_checked) its2))).
  { apply (Hna (sort_weight_asc its2 all_checked) 55 40 23 Hsz ltac:(lia)
             ltac:(rewrite length_app; reflexivity) a Ha). }
  assert (Htot : In a (co_items ++ pe_items)) by (apply I1, Ha).
  split.
  { apply in_app_or in Htot.
    destruct Htot as [H|H]; apply (incl_filter _ _ _ H). }
  split.
  { apply in_app_or in Htot. destruct Htot as [H|H];
      apply filter_In in H; destruct H as [_ H]; unfold storage_is in H;
      apply String.eqb_eq in H; [left | right]; exact H. }
  split.
  { rewrite (St3 a Hnot). apply S2, Ha. }
  apply (Rf a Hnot).
  destruct (K2 a) as (_ & -> & _).
  destruct (in_dec Nat.eq_dec a overflow) as [Ho|Ho].
  - apply (C8 a Ho).
  - destruct (C7 a Htot Ho) as [-> _].
    rewrite C1 in Ha. apply in_app_or in Ha.
    destruct Ha as [Ha|Ha]; [|contradiction].
    apply filter_In in Ha. destruct Ha as [_ Ha].
    apply negb_true_iff in Ha. exact Ha.
Qed.

(** X18.  On the table, an item that [test_eligibility] reports as moved to
    checked was a carry-on or personal item of the request, and it stays in
    the hold: when the call returns its storage is checked and its
    [compliance] flag is false.  The cabin-reclaim pass never takes it
    back. *)
Theorem moved_items_stay_checked :
  forall self s tc age l,
    standard_policy self s ->
    str_in tc ["Economy"; "Business"; "First"] = true ->
    exists v m moved cargo fee s',
      test_eligibility self (mkRequest tc age l) s
      = Returns (v, m, moved, cargo, fee) s'
      /\ forall a,
           In a moved ->
           In a l
           /\ (storage (items s a) = "carry-on"
               \/ storage (items s a) = "personal")
           /\ storage (items s' a) = "checked"
           /\ compliance (items s' a) = false.
Proof.
  intros self s tc age l Hstd Htc.
  destruct (eligibility_moved self s tc age l Hstd Htc)
    as (v & m & moved & cargo & fee & s' & Hrun & Hmoved).
  exists v, m, moved, cargo, fee, s'. split; [exact Hrun|].
  intros a Ha. destruct (Hmoved a Ha) as (H1 & H2 & H3 & H4).
  repeat split; assumption.
Qed.

Lemma moved_items_stay_checked_witness :
  exists v m moved cargo fee s',
    test_eligibility policy (mkRequest "Economy" "adult" [0%nat])
      (state_with [bag "carry-on" 8 55 40 23])
    = Returns (v, m, moved, cargo, fee) s'
    /\ forall a,
         In a moved ->
         In a [0%nat]
         /\ (storage (items (state_with [bag "carry-on" 8 55 40 23]) a)
             = "carry-on"
             \/ storage (items (state_with [bag "carry-on" 8 55 40 23]) a)
                = "personal")
         /\ storage (items s' a) = "checked"
         /\ compliance (items s' a) = false.
Proof.
  apply (moved_items_stay_checked policy
           (state_with [bag "carry-on" 8 55 40 23]) "Economy" "adult"
           [0%nat]).
  - apply init_standard.
  - reflexivity.
Defined.



(** ** X20: generate_detailed_report *)

Lemma storage_is_distinct its u v a :
  u <> v -> storage_is its u a = true -> storage_is its v a = true -> False.
Proof.
  unfold storage_is. intros Hne H1 H2.
  apply String.eqb_eq in H1, H2. congruence.
Qed.

(** The candidates of the carry-on passes are listed once when the input
    is. *)
Lemma carry_on_candidates_nodup co l its :
  (0 <= quantity co + 1)%Z ->
  NoDup l -> NoDup (checked_candidates (carry_on_passes co l its)).
Proof.
  intros Hq Hnd.
  destruct (carry_on_passes_spec co l its Hq) as (overflow & C1 & C2 & _).
  cbn zeta in C1, C2. rewrite C1.
  assert (Hko : NoDup (compliant_items (carry_on_passes co l its)
                       ++ overflow)).
  { eapply Permutation_NoDup; [exact C2|]. apply NoDup_filter, Hnd. }
  apply NoDup_app.
  - apply NoDup_filter, Hnd.
  - apply (NoDup_app_remove_l _ _ Hko).
  - intros a Ha Ho. apply filter_In in Ha. destruct Ha as [_ Ha].
    apply negb_true_iff in Ha.
    assert (Hin : In a (filter (fun a => cabin_compliant co (its a)) l)).
    { eapply Permutation_in; [symmetry; exact C2|].
      apply in_or_app. right; exact Ho. }
    apply filter_In in Hin. destruct Hin as [_ Hin]. congruence.
Qed.






(** ** X21: the fee does not depend on the order of the list *)

Lemma sum_fees_perm fee pol its l l' :
  Permutation l l' -> sum_fees fee pol its l = sum_fees fee pol its l'.
Proof.
  intros H. induction H as [|a l l' _ IH|a b l|l1 l2 l3 _ IH1 _ IH2].
  - reflexivity.
  - cbn [sum_fees fold_right]. fold (sum_fees fee pol its l).
    fold (sum_fees fee pol its l'). rewrite IH. reflexivity.
  - cbn [sum_fees fold_right]. lia.
  - congruence.
Qed.

Lemma filter_perm {A} (p : A -> bool) (l l' : list A) :
  Permutation l l' -> Permutation (filter p l) (filter p l').
Proof.
  intros H. induction H as [|a l l' _ IH|a b l|l1 l2 l3 _ IH1 _ IH2];
    cbn [filter].
  - constructor.
  - destruct (p a); [apply perm_skip|]; exact IH.
  - destruct (p a), (p b); try apply Permutation_refl. apply perm_swap.
  - eapply perm_trans; eassumption.
Qed.




(** ** X22: a second evaluation changes nothing *)

(** Each evaluation on a known class allocates one dictionary, the copy of
    the class policy. *)
Lemma test_eligibility_allocates self request s entry r s' :
  lookup (travel_class request) (classes self) = Some entry ->
  test_eligibility self request s = Returns r s' ->
  next_dict s' = S (next_dict s).
Proof.
  intros Hl.
  unfold test_eligibility, eligibility_try, cabin_stage.
  rewrite (validate_carry_on_returns self (travel_class request) _ _ s entry Hl).
  rewrite Hl. cbn zeta.
  set (co_items :=
         filter (storage_is (items s) "carry-on") (luggages request)).
  set (pe_items :=
         filter (storage_is (items s) "personal") (luggages request)).
  set (ch_items :=
         filter (storage_is (items s) "checked") (luggages request)).
  set (acc := carry_on_passes (carry_on entry) (co_items ++ pe_items)
                (items s)).
  cbn [items with_items].
  set (s2 := with_items (with_items s (c_items acc))
               (move_to_checked (checked_candidates acc) (c_items acc))).
  set (cap := Z.max 0 _).
  destruct (validate_checked_baggage_returns self (travel_class request)
              (ch_items ++ checked_candidates acc) (age_category request)
              cap s2 entry Hl) as (s3 & Hrun & _ & Hn & _).
  cbn zeta in Hrun. cbn [s2 dicts items with_items] in Hrun.
  rewrite Hrun.
  destruct (snd (fst (checked_passes _ _ _ _ _ _ _))) as [[[ok cm] cargo] fee].
  intros H. assert (E : s3 = s') by congruence. subst s'. exact Hn.
Qed.

(** The table of a built object survives any step that only allocates. *)
Lemma standard_policy_extends self s s' :
  standard_policy self s ->
  (next_dict s <= next_dict s')%nat ->
  (forall a, (a < next_dict s)%nat -> dicts s' a = dicts s a) ->
  standard_policy self s'.
Proof.
  intros (Ha & Hv & Hc & Hf) Hn Hd.
  assert (Hview : classes_view self s' = classes_view self s).
  { unfold classes_view. apply map_ext_in. intros [k e] Hin. cbn.
    rewrite Hd; [reflexivity|].
    unfold allocated in Ha. rewrite Forall_forall in Ha.
    apply (Ha _ Hin). }
  repeat split; try assumption.
  - unfold allocated in *. eapply Forall_impl; [|exact Ha].
    intros kv Hkv. cbn in Hkv |- *. lia.
  - rewrite Hview. exact Hv.
Qed.

(** The evaluation of a request of the table that lists each object once,
    taken apart: the items kept in the cabin, those moved to the hold, those
    brought back to the cabin and those retained in the hold, with the
    final storage of each group. *)
Lemma eligibility_anatomy self s tc age l entry :
  standard_policy self s ->
  str_in tc ["Economy"; "Business"; "First"] = true ->
  lookup tc (classes self) = Some entry ->
  NoDup l ->
  let co := carry_on entry in
  let pol := age_overlay (dicts s (checked entry))
               (lookup age (child_allowances self)) in
  exists kept moved reclaimed retained cap v m cargo fee s',
    test_eligibility self (mkRequest tc age l) s
    = Returns (v, m, moved, cargo, fee) s'
    /\ (forall a, a <> next_dict s -> dicts s' a = dicts s a)
    /\ next_dict s' = S (next_dict s)
    /\ same_measures (items s) (items s')
    /\ Permutation (filter (fun a => cabin_storage (items s a)) l)
                   (kept ++ moved)
    /\ Permutation
         (filter (fun a => String.eqb (storage (items s a)) "checked") l
          ++ moved)
         (reclaimed ++ retained)
    /\ (forall a, In a kept ->
                  cabin_compliant co (items s a) = true
                  /\ storage (items s' a) = storage (items s a))
    /\ (forall a, In a reclaimed ->
                  fits_cabin co (items s a) = true
                  /\ storage (items s' a) = "carry-on")
    /\ (forall a, In a retained -> storage (items s' a) = "checked")
    /\ (forall a, ~ In a (kept ++ reclaimed ++ retained) ->
                  storage (items s' a) = storage (items s a))
    /\ ((forall a, In a l -> cabin_storage (items s a) = true ->
                   cabin_compliant co (items s a) = true) ->
        (Z.of_nat
           (List.length (filter (fun a => cabin_storage (items s a)) l))
         <= quantity co + 1)%Z ->
        moved = [])
    /\ (Z.of_nat (List.length kept) + cap = quantity co + 1)%Z
    /\ (0 <= cap)%Z
    /\ Z.of_nat (List.length reclaimed)
       = Z.min cap
           (Z.of_nat (count_fit co (items s) (reclaimed ++ retained)))
    /\ fee
       = (sum_fees (excess_fees self) pol (items s) retained
          + 150 * Z.max 0 (Z.of_nat (List.length retained)
                           - allowance pol))%Z
    /\ cargo = filter (fun a => cargo_bound (items s a)) retained
    /\ (v = true <-> cargo = []).
Proof.
  intros Hstd Htc Hl Hnd. cbn zeta.
  destruct (standard_known self s tc Hstd Htc)
    as (entry' & Hl' & Hsz & _ & Hq & _).
  rewrite Hl in Hl'. injection Hl' as <-.
  assert (Hfee : excess_fees self = mkFees 75 100 150) by apply Hstd.
  destruct (test_eligibility_known self (mkRequest tc age l) s entry Hl)
    as (s' & Hrun & Htest & Hits & Hd).
  cbn zeta in Hrun, Hits.
  cbn [luggages travel_class age_category] in Hrun, Hits.
  set (co_items := filter (storage_is (items s) "carry-on") l) in *.
  set (pe_items := filter (storage_is (items s) "personal") l) in *.
  set (ch_items := filter (storage_is (items s) "checked") l) in *.
  set (total := co_items ++ pe_items) in *.
  (* the cabin items of the request *)
  assert (Htotal : NoDup total).
  { apply NoDup_app; try (apply NoDup_filter, Hnd).
    intros a Ha Hb. apply filter_In in Ha, Hb.
    apply (storage_is_distinct (items s) "carry-on" "personal" a);
      [discriminate | apply Ha | apply Hb]. }
  assert (Hcab : Permutation
                   (filter (fun a => cabin_storage (items s a)) l) total).
  { apply NoDup_Permutation; [apply NoDup_filter, Hnd | exact Htotal |].
    intros a. unfold total, co_items, pe_items, cabin_storage, storage_is.
    rewrite in_app_iff, !filter_In, orb_true_iff. tauto. }
  destruct (cabin_stage_capacity (carry_on entry) total (items s)
              (List.length co_items) (List.length pe_items)
              ltac:(lia) ltac:(unfold total; rewrite length_app; reflexivity))
    as [Hk Hcap].
  destruct (carry_on_passes_spec (carry_on entry) total (items s) ltac:(lia))
    as (overflow & C1 & C2 & _ & C4 & C5 & C6 & _).
  pose proof (carry_on_candidates_nodup (carry_on entry) total (items s)
                ltac:(lia) Htotal) as Hcn.
  destruct (carry_on_passes_framed (carry_on entry) total (items s))
    as [_ I1].
  cbn zeta in C1, C2, C4, C5, C6, Hk, Hcap, I1.
  set (acc := carry_on_passes (carry_on entry) total (items s)) in *.
  destruct (move_to_checked_spec (checked_candidates acc) (c_items acc))
    as (F2 & S2 & _).
  set (its2 := move_to_checked (checked_candidates acc) (c_items acc)) in *.
  set (cap := Z.max 0 _) in *.
  set (child := lookup age (child_allowances self)) in *.
  set (pol := age_overlay (dicts s (checked entry)) child) in *.
  set (all_checked := ch_items ++ checked_candidates acc) in *.
  assert (M2 : same_measures (items s) its2).
  { intros a. destruct (C6 a) as [(_ & _ & W & D) _].
    destruct (F2 a) as [[W2 D2] _]. split; congruence. }
  (* the split of the compliant cabin items *)
  assert (Hsplit : Permutation total
                     (compliant_items acc ++ checked_candidates acc)).
  { rewrite C1.
    eapply perm_trans;
      [|apply Permutation_app_comm].
    rewrite <- app_assoc.
    eapply perm_trans; [|apply Permutation_app_head;
                          eapply perm_trans; [exact C2|];
                          apply Permutation_app_comm].
    clear. induction total as [|a t IH]; cbn [filter]; [constructor|].
    destruct (cabin_compliant (carry_on entry) (items s a)); cbn [negb app].
    - apply Permutation_cons_app. exact IH.
    - apply perm_skip. exact IH. }
  assert (Hkc : NoDup (compliant_items acc ++ checked_candidates acc))
    by (eapply Permutation_NoDup; eassumption).
  (* the checked list *)
  assert (Hall : NoDup all_checked).
  { apply NoDup_app; [apply NoDup_filter, Hnd | exact Hcn |].
    intros a Ha Hb. apply filter_In in Ha. apply I1 in Hb.
    apply in_app_or in Hb. destruct Hb as [Hb|Hb]; apply filter_In in Hb.
    - apply (storage_is_distinct (items s) "checked" "carry-on" a);
        [discriminate | apply Ha | apply Hb].
    - apply (storage_is_distinct (items s) "checked" "personal" a);
        [discriminate | apply Ha | apply Hb]. }
  destruct (checked_passes_frame (excess_fees self) (carry_on entry) pol
              (overlay_notes child) cap all_checked its2)
    as (P3 & O3 & St3 & _ & A3 & _ & _).
  pose proof (checked_passes_measures (excess_fees self) (carry_on entry) pol
                (overlay_notes child) cap all_checked its2) as M3.
  pose proof (checked_passes_fee (excess_fees self) (carry_on entry) pol
                (overlay_notes child) cap all_checked its2) as Hf.
  pose proof (checked_passes_cargo (excess_fees self) (carry_on entry) pol
                (overlay_notes child) cap all_checked its2) as Hc.
  destruct (checked_passes_spec (excess_fees self) (carry_on entry) pol
              (overlay_notes child) cap all_checked its2)
    as (_ & Hcargo & Hok & _).
  rewrite <- Hcargo in Hok.
  cbn zeta in P3, O3, St3, A3, M3, Hf, Hc.
  rewrite <- Hits in O3, St3, A3, M3.
  set (sorted := sort_weight_asc its2 all_checked) in *.
  pose proof (reclaim_pass_count (carry_on entry) cap sorted its2 Hcap)
    as Hcount.
  set (r := reclaim_pass (carry_on entry) cap sorted its2) in *.
  assert (Har : NoDup (carryon_candidates r ++ retained_checked_items r))
    by (eapply Permutation_NoDup; eassumption).
  assert (Hdisj : forall a, In a (carryon_candidates r) ->
                            ~ In a (retained_checked_items r)).
  { intros a Ha Hr. apply in_split in Ha. destruct Ha as (l1 & l2 & E).
    rewrite E, <- app_assoc in Har. cbn [app] in Har.
    apply NoDup_remove_2 in Har. apply Har.
    rewrite app_assoc. apply in_or_app. right; exact Hr. }
  assert (Hkept_out : forall a, In a (compliant_items acc) ->
                                ~ In a all_checked).
  { intros a Ha Hb. apply in_app_or in Hb. destruct Hb as [Hb|Hb].
    - assert (Ht : In a total)
        by (eapply Permutation_in; [symmetry; exact Hsplit|];
            apply in_or_app; left; exact Ha).
      apply filter_In in Hb. apply in_app_or in Ht.
      destruct Ht as [Ht|Ht]; apply filter_In in Ht.
      + apply (storage_is_distinct (items s) "checked" "carry-on" a);
          [discriminate | apply Hb | apply Ht].
      + apply (storage_is_distinct (items s) "checked" "personal" a);
          [discriminate | apply Hb | apply Ht].
    - apply in_split in Ha. destruct Ha as (l1 & l2 & E).
      rewrite E, <- app_assoc in Hkc. cbn [app] in Hkc.
      apply NoDup_remove_2 in Hkc. apply Hkc.
      rewrite app_assoc. apply in_or_app. right; exact Hb. }
  destruct (snd (fst (checked_passes (excess_fees self) (carry_on entry) pol
                        (overlay_notes child) cap all_checked its2)))
    as [[[ok cm] cargo] fee].
  cbn [res_ok res_msg res_cargo res_fee fst snd] in *.
  exists (compliant_items acc), (checked_candidates acc),
    (carryon_candidates r), (retained_checked_items r), cap.
  eexists _, _, _, _, s'.
  split; [rewrite Htest; exact Hrun|].
  split; [exact Hd|].
  split; [exact (test_eligibility_allocates self (mkRequest tc age l) s entry
                  _ s' Hl (eq_trans Htest Hrun))|].
  split.
  { intros a. destruct (M2 a) as [W D]. destruct (M3 a) as [W3 D3].
    split; congruence. }
  split; [eapply perm_trans; [exact Hcab | exact Hsplit]|].
  split.
  { eapply perm_trans; [|exact P3].
    apply Permutation_app_tail. apply Permutation_refl. }
  split.
  { intros a Ha.
    assert (Ht : In a total)
      by (eapply Permutation_in; [symmetry; exact Hsplit|];
          apply in_or_app; left; exact Ha).
    assert (Hnc : ~ In a (checked_candidates acc)).
    { intros Hb. apply in_split in Ha. destruct Ha as (l1 & l2 & E).
      rewrite E, <- app_assoc in Hkc. cbn [app] in Hkc.
      apply NoDup_remove_2 in Hkc. apply Hkc.
      rewrite app_assoc. apply in_or_app. right; exact Hb. }
    split.
    - destruct (cabin_compliant (carry_on entry) (items s a)) eqn:E;
        [reflexivity|].
      exfalso. apply Hnc. rewrite C1. apply in_or_app. left.
      apply filter_In. split; [exact Ht|]. rewrite E. reflexivity.
    - rewrite (O3 a (Hkept_out a Ha)).
      destruct (F2 a) as [_ F2a]. rewrite (F2a Hnc).
      destruct (C6 a) as [(Hst & _) _]. symmetry. exact Hst. }
  split.
  { intros a Ha. destruct (A3 a Ha) as (Hfit & Hst & _).
    split; [|exact Hst]. rewrite <- Hfit. unfold fits_cabin.
    apply same_measure_cabin, M2. }
  split.
  { intros a Ha.
    assert (Hna : ~ In a (carryon_candidates r))
      by (intros Hb; apply (Hdisj a Hb Ha)).
    rewrite (St3 a Hna).
    assert (Hin : In a all_checked)
      by (eapply Permutation_in; [symmetry; exact P3|];
          apply in_or_app; right; exact Ha).
    apply in_app_or in Hin. destruct Hin as [Hin|Hin].
    - destruct (in_dec Nat.eq_dec a (checked_candidates acc)) as [Hc'|Hc'];
        [apply S2, Hc'|].
      destruct (F2 a) as [_ F2a]. rewrite (F2a Hc').
      destruct (C6 a) as [(Hst & _) _]. rewrite <- Hst.
      apply filter_In in Hin. destruct Hin as [_ Hin].
      unfold storage_is in Hin. apply String.eqb_eq in Hin. exact Hin.
    - apply S2, Hin. }
  split.
  { intros a Ha.
    assert (Hna : ~ In a (carryon_candidates r))
      by (intros Hb; apply Ha, in_or_app; right; apply in_or_app; left;
          exact Hb).
    assert (Hnr : ~ In a (retained_checked_items r))
      by (intros Hb; apply Ha, in_or_app; right; apply in_or_app; right;
          exact Hb).
    assert (Hnc : ~ In a (checked_candidates acc)).
    { intros Hb.
      assert (Hin : In a (carryon_candidates r ++ retained_checked_items r))
        by (eapply Permutation_in; [exact P3|];
            apply in_or_app; right; exact Hb).
      apply in_app_or in Hin. tauto. }
    rewrite (St3 a Hna). destruct (F2 a) as [_ F2a]. rewrite (F2a Hnc).
    destruct (C6 a) as [(Hst & _) _]. symmetry. exact Hst. }
  split.
  { intros Hgood Hfew.
    assert (Hnf : filter (fun a => negb (cabin_compliant (carry_on entry)
                                           (items s a))) total = []).
    { apply filter_none. intros a Ha. apply negb_false_iff.
      assert (Hin : In a (filter (fun a => cabin_storage (items s a)) l))
        by (eapply Permutation_in; [symmetry; exact Hcab | exact Ha]).
      apply filter_In in Hin. apply Hgood; apply Hin. }
    rewrite C1, Hnf. cbn [app].
    destruct overflow as [|o os]; [reflexivity|]. exfalso.
    assert (Hne : o :: os <> []) by discriminate.
    specialize (C4 Hne).
    apply Permutation_length in C2. rewrite length_app in C2.
    cbn [List.length] in C2.
    pose proof (filter_split_length
                  (fun a => cabin_compliant (carry_on entry) (items s a))
                  total) as Hs.
    cbv beta in Hs. rewrite Hnf in Hs. cbn [List.length] in Hs.
    apply Permutation_length in Hcab. lia. }
  split; [exact Hk|]. split; [exact Hcap|].
  split.
  { rewrite Hcount.
    rewrite (count_fit_measures (carry_on entry) (items s) its2 _ M2).
    f_equal. f_equal. apply count_fit_perm.
    eapply perm_trans; [symmetry; apply sort_weight_asc_perm | exact P3]. }
  split.
  { rewrite Hf, Hfee. cbn [extra_piece].
    rewrite (sum_fees_measures _ _ (items s) its2 _ M2).
    unfold excess_count.
    destruct (Z.max 0 _ >? 0)%Z eqn:E.
    - reflexivity.
    - rewrite Z.gtb_ltb in E. apply Z.ltb_ge in E. lia. }
  split.
  { rewrite Hc. apply filter_ext. intros a. symmetry.
    apply same_measure_cargo, M2. }
  subst ok. destruct cargo as [|c cs]; cbn; split;
    try reflexivity; try discriminate.
Qed.

Lemma count_fit_all co its (taken rest : list addr) :
  (forall a, In a taken -> fits_cabin co (its a) = true) ->
  count_fit co its (taken ++ rest)
  = (List.length taken + count_fit co its rest)%nat.
Proof.
  induction taken as [|a t IH]; intros H; [reflexivity|].
  cbn [app List.length]. rewrite count_fit_cons.
  rewrite (H a (or_introl eq_refl)).
  rewrite IH by (intros b Hb; apply H; right; exact Hb). lia.
Qed.

(** The storage classes of the request after an evaluation, from the four
    groups of its anatomy. *)
Lemma final_storage_classes (l kept moved taken rest : list addr)
    (its its' : addr -> Luggage) :
  NoDup l ->
  Permutation (filter (fun a => cabin_storage (its a)) l) (kept ++ moved) ->
  Permutation
    (filter (fun a => String.eqb (storage (its a)) "checked") l ++ moved)
    (taken ++ rest) ->
  (forall a, In a kept -> storage (its' a) = storage (its a)) ->
  (forall a, In a taken -> storage (its' a) = "carry-on") ->
  (forall a, In a rest -> storage (its' a) = "checked") ->
  (forall a, ~ In a (kept ++ taken ++ rest) ->
             storage (its' a) = storage (its a)) ->
  Permutation (filter (fun a => cabin_storage (its' a)) l) (kept ++ taken)
  /\ Permutation
       (filter (fun a => String.eqb (storage (its' a)) "checked") l) rest.
Proof.
  intros Hnd PC PH K T R U.
  assert (Hcab : forall a, In a (kept ++ moved) ->
                           In a l /\ cabin_storage (its a) = true).
  { intros a Ha.
    assert (Hb : In a (filter (fun a => cabin_storage (its a)) l))
      by (eapply Permutation_in; [symmetry; exact PC | exact Ha]).
    apply filter_In in Hb. exact Hb. }
  assert (Hkm : NoDup (kept ++ moved))
    by (eapply Permutation_NoDup; [exact PC | apply NoDup_filter, Hnd]).
  assert (Hchk : forall a, cabin_storage (its a) = true ->
                           String.eqb (storage (its a)) "checked" = false).
  { intros a H. unfold cabin_storage in H. apply orb_true_iff in H.
    destruct H as [H|H]; apply String.eqb_eq in H; rewrite H; reflexivity. }
  assert (Hcm : NoDup
                  (filter (fun a => String.eqb (storage (its a)) "checked") l
                   ++ moved)).
  { apply NoDup_app; [apply NoDup_filter, Hnd
                     | apply (NoDup_app_remove_l _ _ Hkm) |].
    intros a Ha Hb. apply filter_In in Ha.
    destruct (Hcab a (in_or_app _ _ _ (or_intror Hb))) as [_ Hc].
    apply Hchk in Hc. destruct Ha as [_ Ha]. congruence. }
  assert (Htr : NoDup (taken ++ rest))
    by (eapply Permutation_NoDup; eassumption).
  assert (Hsrc : forall a, In a (taken ++ rest) ->
                           In a l
                           /\ (String.eqb (storage (its a)) "checked" = true
                               \/ In a moved)).
  { intros a Ha.
    assert (Hb : In a (filter (fun a => String.eqb (storage (its a))
                                          "checked") l ++ moved))
      by (eapply Permutation_in; [symmetry; exact PH | exact Ha]).
    apply in_app_or in Hb. destruct Hb as [Hb|Hb].
    - apply filter_In in Hb. split; [apply Hb | left; apply Hb].
    - split; [|right; exact Hb].
      apply (Hcab a (in_or_app _ _ _ (or_intror Hb))). }
  assert (Hkt : forall a, In a kept -> ~ In a (taken ++ rest)).
  { intros a Ha Hb. destruct (Hsrc a Hb) as [_ [Hc|Hc]].
    - destruct (Hcab a (in_or_app _ _ _ (or_introl Ha))) as [_ Hd].
      apply Hchk in Hd. congruence.
    - apply in_split in Ha. destruct Ha as (l1 & l2 & E).
      rewrite E, <- app_assoc in Hkm. cbn [app] in Hkm.
      apply NoDup_remove_2 in Hkm. apply Hkm.
      rewrite app_assoc. apply in_or_app. right; exact Hc. }
  assert (Hrest : forall a, In a rest -> ~ In a taken).
  { intros a Ha Hb. apply in_split in Hb. destruct Hb as (l1 & l2 & E).
    rewrite E, <- app_assoc in Htr. cbn [app] in Htr.
    apply NoDup_remove_2 in Htr. apply Htr.
    rewrite app_assoc. apply in_or_app. right; exact Ha. }
  assert (Hother : forall a, In a l -> ~ In a (kept ++ taken ++ rest) ->
                             cabin_storage (its' a) = false
                             /\ String.eqb (storage (its' a)) "checked"
                                = false).
  { intros a Hl Hn. unfold cabin_storage. rewrite (U a Hn).
    fold (cabin_storage (its a)).
    assert (Hnk : ~ In a kept)
      by (intros H; apply Hn, in_or_app; left; exact H).
    assert (Hnt : ~ In a (taken ++ rest))
      by (intros H; apply Hn, in_or_app; right; exact H).
    split.
    - destruct (cabin_storage (its a)) eqn:E; [exfalso | reflexivity].
      assert (Hin : In a (kept ++ moved)).
      { eapply Permutation_in; [exact PC|]. apply filter_In.
        split; assumption. }
      apply in_app_or in Hin. destruct Hin as [Hin|Hin]; [tauto|].
      apply Hnt. eapply Permutation_in; [exact PH|].
      apply in_or_app. right; exact Hin.
    - destruct (String.eqb (storage (its a)) "checked") eqn:E;
        [exfalso | reflexivity].
      apply Hnt. eapply Permutation_in; [exact PH|].
      apply in_or_app. left. apply filter_In. split; assumption. }
  split.
  - apply NoDup_Permutation; [apply NoDup_filter, Hnd | |].
    + apply NoDup_app; [apply (NoDup_app_remove_r _ _ Hkm)
                       | apply (NoDup_app_remove_r _ _ Htr) |].
      intros a Ha Hb. apply (Hkt a Ha). apply in_or_app. left; exact Hb.
    + intros a. rewrite filter_In, in_app_iff. split.
      * intros [Hl Hc].
        destruct (in_dec Nat.eq_dec a kept) as [Hk|Hk]; [left; exact Hk|].
        destruct (in_dec Nat.eq_dec a taken) as [Ht|Ht]; [right; exact Ht|].
        exfalso.
        destruct (in_dec Nat.eq_dec a rest) as [Hr|Hr].
        -- unfold cabin_storage in Hc. rewrite (R a Hr) in Hc. discriminate.
        -- destruct (Hother a Hl) as [H _]; [|congruence].
           intros H. apply in_app_or in H. destruct H as [H|H]; [tauto|].
           apply in_app_or in H. tauto.
      * intros [Hk|Ht].
        -- destruct (Hcab a (in_or_app _ _ _ (or_introl Hk))) as [Hl Hc].
           split; [exact Hl|]. unfold cabin_storage. rewrite (K a Hk).
           exact Hc.
        -- split; [apply (Hsrc a (in_or_app _ _ _ (or_introl Ht)))|].
           unfold cabin_storage. rewrite (T a Ht). reflexivity.
  - apply NoDup_Permutation; [apply NoDup_filter, Hnd
                             | apply (NoDup_app_remove_l _ _ Htr) |].
    intros a. rewrite filter_In. split.
    + intros [Hl Hc].
      destruct (in_dec Nat.eq_dec a rest) as [Hr|Hr]; [exact Hr|]. exfalso.
      destruct (in_dec Nat.eq_dec a kept) as [Hk|Hk].
      { destruct (Hcab a (in_or_app _ _ _ (or_introl Hk))) as [_ Hd].
        apply Hchk in Hd. rewrite (K a Hk) in Hc. congruence. }
      destruct (in_dec Nat.eq_dec a taken) as [Ht|Ht].
      { rewrite (T a Ht) in Hc. discriminate. }
      destruct (Hother a Hl) as [_ H]; [|congruence].
      intros H. apply in_app_or in H. destruct H as [H|H]; [tauto|].
      apply in_app_or in H. tauto.
    + intros Hr. split; [apply (Hsrc a (in_or_app _ _ _ (or_intror Hr)))|].
      rewrite (R a Hr). reflexivity.
Qed.

(** X22.  Evaluating a request a second time changes nothing.  For a
    request of the table that lists each object once, [test_eligibility]
    run again on the store its first run left moves no item to the hold and
    changes no storage field, and it returns the same verdict, the same
    total fee and the same cargo items. *)
Theorem second_evaluation_changes_nothing :
  forall self s tc age l,
    standard_policy self s ->
    str_in tc ["Economy"; "Business"; "First"] = true ->
    NoDup l ->
    exists v m moved cargo fee s1 m2 cargo2 s2,
      test_eligibility self (mkRequest tc age l) s
      = Returns (v, m, moved, cargo, fee) s1
      /\ test_eligibility self (mkRequest tc age l) s1
         = Returns (v, m2, [], cargo2, fee) s2
      /\ Permutation cargo cargo2
      /\ (forall a, storage (items s2 a) = storage (items s1 a)).
Proof.
  intros self s tc age l Hstd Htc Hnd.
  destruct (standard_known self s tc Hstd Htc)
    as (entry & Hl & Hsz & _ & Hq & _ & _ & _ & Hlt).
  destruct (eligibility_anatomy self s tc age l entry Hstd Htc Hl Hnd)
    as (kept1 & moved1 & adm1 & ret1 & cap1 & v1 & m1 & cargo1 & fee1 & s1
        & R1 & D1 & N1 & M1 & PC1 & PH1 & K1 & A1 & T1 & U1 & _ & Cap1
        & Cap1' & Cnt1 & Fee1 & Cargo1 & V1).
  cbn zeta in *.
  assert (Hstd1 : standard_policy self s1).
  { apply (standard_policy_extends self s s1 Hstd); [lia|].
    intros a Ha. apply D1. lia. }
  assert (Hpol : dicts s1 (checked entry) = dicts s (checked entry))
    by (apply D1; lia).
  destruct (final_storage_classes l kept1 moved1 adm1 ret1 (items s)
              (items s1) Hnd PC1 PH1
              (fun a Ha => proj2 (K1 a Ha)) (fun a Ha => proj2 (A1 a Ha))
              T1 U1) as [FS1 FS2].
  destruct (eligibility_anatomy self s1 tc age l entry Hstd1 Htc Hl Hnd)
    as (kept2 & moved2 & adm2 & ret2 & cap2 & v2 & m2 & cargo2 & fee2 & s2
        & R2 & _ & _ & M2 & PC2 & PH2 & K2 & A2 & T2 & U2 & Z2 & Cap2
        & Cap2' & Cnt2 & Fee2 & Cargo2 & V2).
  cbn zeta in *. rewrite Hpol in Fee2.
  (* the cabin holds compliant items within its capacity *)
  assert (Hlen1 : Z.of_nat (List.length
                              (filter (fun a => cabin_storage (items s1 a)) l))
                  = (Z.of_nat (List.length kept1)
                     + Z.of_nat (List.length adm1))%Z).
  { rewrite (Permutation_length FS1), length_app. lia. }
  assert (Hmoved : moved2 = []).
  { apply Z2; [|lia].
    intros a Ha Hc.
    assert (Hin : In a (kept1 ++ adm1)).
    { eapply Permutation_in; [exact FS1|]. apply filter_In.
      split; assumption. }
    rewrite <- (cabin_compliant_measure _ _ _ (M1 a)).
    apply in_app_or in Hin. destruct Hin as [Hin|Hin].
    - apply (K1 a Hin).
    - rewrite <- (fits_is_compliant _ _ _ _ _ Hsz). apply (A1 a Hin). }
  subst moved2. rewrite app_nil_r in PC2, PH2.
  (* nothing is left to bring back *)
  assert (Hret : Permutation ret1 (adm2 ++ ret2))
    by (eapply perm_trans; [symmetry; exact FS2 | exact PH2]).
  assert (Hfit : count_fit (carry_on entry) (items s1) (adm2 ++ ret2)
                 = count_fit (carry_on entry) (items s) ret1).
  { rewrite <- (count_fit_measures _ _ _ _ M1).
    symmetry. apply count_fit_perm, Hret. }
  assert (Hadm2 : adm2 = []).
  { apply length_zero_iff_nil.
    rewrite Hfit in Cnt2.
    rewrite (count_fit_all _ _ adm1 ret1 (fun a Ha => proj1 (A1 a Ha)))
      in Cnt1.
    pose proof (Permutation_length PC2) as Hk2.
    rewrite <- Hk2 in Cap2. lia. }
  subst adm2. cbn [app] in Hret, PH2.
  exists v1, m1, moved1, cargo1, fee1, s1, m2, cargo2, s2.
  assert (Hcargo : Permutation cargo1 cargo2).
  { rewrite Cargo1, Cargo2.
    eapply perm_trans; [apply filter_perm, Hret|].
    erewrite filter_ext; [apply Permutation_refl|].
    intros a. apply same_measure_cargo, M1. }
  assert (Hv : v2 = v1).
  { assert (H : cargo1 = [] <-> cargo2 = []).
    { split; intros ->.
      - apply Permutation_nil, Hcargo.
      - apply Permutation_nil. symmetry. exact Hcargo. }
    destruct v1, v2; try reflexivity.
    - apply (proj2 V2), (proj1 H), (proj1 V1). reflexivity.
    - symmetry. apply (proj2 V1), (proj2 H), (proj1 V2). reflexivity. }
  assert (Hfee : fee2 = fee1).
  { rewrite Fee1, Fee2.
    rewrite <- (sum_fees_measures _ _ _ _ _ M1).
    rewrite (sum_fees_perm _ _ _ _ _ Hret).
    rewrite (Permutation_length Hret). reflexivity. }
  split; [exact R1|].
  split; [rewrite R2, Hv, Hfee; reflexivity|].
  split; [exact Hcargo|].
  intros a.
  destruct (in_dec Nat.eq_dec a kept2) as [Hk|Hk]; [apply (K2 a Hk)|].
  destruct (in_dec Nat.eq_dec a ret2) as [Hr|Hr].
  - rewrite (T2 a Hr).
    assert (Hin : In a (filter (fun a => String.eqb (storage (items s1 a))
                                           "checked") l))
      by (eapply Permutation_in; [symmetry; exact PH2 | exact Hr]).
    apply filter_In in Hin. destruct Hin as [_ Hin].
    apply String.eqb_eq in Hin. symmetry. exact Hin.
  - apply U2. cbn [app]. intros H. apply in_app_or in H. tauto.
Qed.

Lemma second_evaluation_changes_nothing_witness :
  exists v m moved cargo fee s1 m2 cargo2 s2,
    let s := state_with [bag "carry-on" 8 50 35 20;
                         bag "carry-on" 5 50 35 20;
                         bag "personal" 3 30 20 10;
                         bag "checked" 30 70 50 30;
                         bag "checked" 6 50 35 20] in
    test_eligibility policy
      (mkRequest "Economy" "adult" [0; 1; 2; 3; 4]%nat) s
    = Returns (v, m, moved, cargo, fee) s1
    /\ test_eligibility policy
         (mkRequest "Economy" "adult" [0; 1; 2; 3; 4]%nat) s1
       = Returns (v, m2, [], cargo2, fee) s2
    /\ Permutation cargo cargo2
    /\ (forall a, storage (items s2 a) = storage (items s1 a)).
Proof.
  apply (second_evaluation_changes_nothing policy
           (state_with [bag "carry-on" 8 50 35 20;
                        bag "carry-on" 5 50 35 20;
                        bag "personal" 3 30 20 10;
                        bag "checked" 30 70 50 30;
                        bag "checked" 6 50 35 20])
           "Economy" "adult" [0; 1; 2; 3; 4]%nat).
  - apply init_standard.
  - reflexivity.
  - repeat constructor; cbn; intuition lia.
Defined.
